(** * Arx Libertatis (PS Vita port): window, OpenGL capability and frame pacing core

    A shallow embedding of the parts of the engine runtime that the
    specification makes claims about:

    - [OpenGLInfo]   : src/graphics/opengl/OpenGLUtil.cpp
                       (override parsing and the [has] capability query);
    - [Renderer]     : src/graphics/opengl/OpenGLRenderer.cpp ([flushState]);
    - [Win]          : Window.cpp (src/unnamed/part_000: listener fan-out,
                       state mutators, [DisplayMode] ordering) and
                       src/window/SDL2Window.cpp (event filter, event pump,
                       [updateSize], display mode enumeration);
    - [FramePacing]  : ArxGame.cpp (src/unnamed/part_002: the frame-rate
                       limiter at the head of [doFrame]).

    Integers of the C++ code are modelled as [Z]; where the code computes in
    [u32] the wrap-around is written out.  Strings are [String.string]. *)

From Stdlib Require Import ZArith List String Ascii Bool Lia.
From Stdlib Require Import Sorting.Sorted Sorting.Permutation.
Import ListNotations.

Open Scope string_scope.
Open Scope list_scope.
Open Scope Z_scope.

(* ===================================================================== *)
(** * Small string helpers mirroring [std::string_view] operations *)
(* ===================================================================== *)

Module Str.

(** [boost::starts_with(s, p)]. *)
Definition starts_with (s p : string) : bool := String.prefix p s.

(** [s.substr(pos)]: the suffix from [pos] (for [pos <= s.size()]). *)
Definition substr (pos : nat) (s : string) : string :=
  String.substring pos (String.length s - pos) s.

(** [s.substr(pos, count)]. *)
Definition substr2 (pos count : nat) (s : string) : string :=
  String.substring pos count s.

(** [s.find(c, offset)]; [None] is [npos]. *)
Definition find (c : ascii) (offset : nat) (s : string) : option nat :=
  String.index offset (String c EmptyString) s.

(** [s[0]]; the code only indexes non-empty strings. *)
Definition front (s : string) : option ascii := String.get 0 s.

Fixpoint is_sep (c : ascii) (seps : string) : bool :=
  match seps with
  | EmptyString => false
  | String d rest => if Ascii.eqb c d then true else is_sep c rest
  end.

Definition flush (cur : string) : list string :=
  match cur with
  | EmptyString => []
  | _ => [cur]
  end.

(** Modelled from the spec: [util::splitIgnoreEmpty] (util/String.h is not
    among the sources): the maximal non-empty runs of characters of [s]
    that contain no separator character, in order. *)
Fixpoint splitAcc (seps : string) (cur : string) (s : string) : list string :=
  match s with
  | EmptyString => flush cur
  | String c rest =>
      if is_sep c seps
      then flush cur ++ splitAcc seps EmptyString rest
      else splitAcc seps (String.append cur (String c EmptyString)) rest
  end.

Definition splitIgnoreEmpty (s seps : string) : list string :=
  splitAcc seps EmptyString s.

Definition digit_of (c : ascii) : option Z :=
  let n := Z.of_nat (nat_of_ascii c) in
  if (48 <=? n) && (n <=? 57) then Some (n - 48) else None.

Fixpoint digits_value (s : string) (acc : Z) : option Z :=
  match s with
  | EmptyString => Some acc
  | String c r =>
      match digit_of c with
      | Some d => digits_value r (acc * 10 + d)
      | None => None
      end
  end.

Definition s32_min : Z := -2147483648.
Definition s32_max : Z := 2147483647.
Definition u32_max : Z := 4294967295.

Definition in_s32 (z : Z) : option Z :=
  if (s32_min <=? z) && (z <=? s32_max) then Some z else None.

(** Modelled from the spec: [util::toInt] (util/Number.h is not among the
    sources): the whole string read as a decimal integer ("MAJOR", "MINOR",
    "bare integer"), an optional leading minus sign, no value when the string
    is not a number or does not fit an [s32]. *)
Definition toInt_dec (s : string) : option Z :=
  match s with
  | EmptyString => None
  | String "-"%char EmptyString => None
  | String "-"%char r =>
      match digits_value r 0 with
      | Some v => in_s32 (- v)
      | None => None
      end
  | _ =>
      match digits_value s 0 with
      | Some v => in_s32 v
      | None => None
      end
  end.

End Str.

(* ===================================================================== *)
(** * OpenGLInfo: override parsing and capability queries *)
(* ===================================================================== *)

Module OpenGLInfo.

Import Str.

(** The members of [OpenGLInfo] that [parseOverrideConfig] and [has] read or
    write.  The vendor, renderer and version strings and the ES flag play no
    part in either function.  The header that declares the two version
    members is not among the sources; they hold the MAJOR*10+MINOR encoding
    and are kept as integers, the [u32] arithmetic of the parser being
    written out where it happens. *)
Record t : Type := mk {
  m_version : Z;
  m_versionOverride : Z;
  m_extensionOverrides : list string
}.

Inductive LogEntry : Type :=
| WarnIgnoringBefore (token : string)   (* "Ignoring OpenGL feature overrides before 'token'" *)
| WarnInvalid (token : string)          (* "Invalid OpenGL feature override 'token'" *)
| InfoIgnoringExtension (ext : string). (* "Ignoring OpenGL extension ext" *)

Definition to_u32 (z : Z) : Z := z mod 4294967296.

Definition value_or (o : option Z) (d : Z) : Z :=
  match o with Some v => v | None => d end.

(** TAB, CR and LF cannot be written in a string literal. *)
Definition separators : string :=
  String " "%char
    (String (ascii_of_nat 9)
      (String (ascii_of_nat 13)
        (String (ascii_of_nat 10) ",;:"))).

(** The first branch of the loop body: the token names an extension. *)
Definition isExtensionToken (token : string) : bool :=
  starts_with token "+GL_" || starts_with token "-GL_".

Section Parse.

(** [util::toInt], see [Str.toInt_dec] for the instance used on concrete
    inputs. *)
Variable toInt : string -> option Z.

(** The [try] block up to the assignment of [m_versionOverride]: the new
    value of the version override, or [None] when [std::exception] is
    thrown.  Nothing is written before the throw. *)
Definition parseVersionToken (version : Z) (token : string) : option Z :=
  let offset := if starts_with token "GL" then 2%nat else 0%nat in
  let dot := find "."%char offset token in
  if String.eqb token "+*" || String.eqb token "+" then
    Some s32_max
  else if String.eqb token "-*" || String.eqb token "-" then
    Some version
  else
    match dot with
    | Some dot =>
        let major := value_or (toInt (substr2 offset (dot - offset) token)) (-1) in
        let minor := value_or (toInt (substr (dot + 1) token)) (-1) in
        if (minor <? 0) || (10 <? minor) || (major <? 0) || (u32_max / 10 <? major)
        then None
        else Some (to_u32 (to_u32 (major * 10) + to_u32 minor))
    | None =>
        if (1 <? String.length token - offset)%nat then
          let version := value_or (toInt (substr offset token)) (-1) in
          if version <? 0 then None else Some (to_u32 version)
        else
          let major := value_or (toInt (substr offset token)) (-1) in
          if (major <? 0) || (u32_max / 10 <? major) then None
          else Some (to_u32 (to_u32 major * 10))
    end.

(** One iteration of the [for] loop.  The state is the object together with
    the local flag [first]; the result also carries the lines logged. *)
Definition parseToken (token : string) (st : t * bool) : (t * bool) * list LogEntry :=
  let '(gl, first) := st in
  if isExtensionToken token then
    ((mk (m_version gl) (m_versionOverride gl) (m_extensionOverrides gl ++ [token]),
      false), [])
  else
    match parseVersionToken (m_version gl) token with
    | Some v =>
        ((mk (m_version gl) v [], false),
         if negb first then [WarnIgnoringBefore token] else [])
    | None => ((gl, first), [WarnInvalid token])
    end.

Fixpoint parseTokens (tokens : list string) (st : t * bool)
  : (t * bool) * list LogEntry :=
  match tokens with
  | [] => (st, [])
  | token :: rest =>
      let '(st1, log1) := parseToken token st in
      let '(st2, log2) := parseTokens rest st1 in
      (st2, log1 ++ log2)
  end.

Definition parseOverrideConfig (gl : t) (string : string) : t * list LogEntry :=
  let '((gl', _), log) := parseTokens (splitIgnoreEmpty string separators) (gl, true) in
  (gl', log).

End Parse.

(** The loop of [has] over [boost::adaptors::reverse(m_extensionOverrides)]:
    the verdict of the first entry whose name is [extension], if any. *)
Fixpoint scanOverrides (reversed : list string) (extension : string) : option bool :=
  match reversed with
  | [] => None
  | override :: rest =>
      if String.eqb (substr 1 override) extension then
        match front override with
        | Some c => Some (Ascii.eqb c "+")
        | None => Some false
        end
      else scanOverrides rest extension
  end.

(** [OpenGLInfo::has] as compiled without [__vita__] (lines 180-212).
    [supported] stands for the native query ([epoxy_has_gl_extension] or
    [glewIsSupported]). *)
Definition has_run (gl : t) (supported : string -> bool)
    (extension : string) (version : Z) : bool * list LogEntry :=
  if (m_version gl <? version) && negb (supported extension) then
    (false, [])
  else
    match scanOverrides (rev (m_extensionOverrides gl)) extension with
    | Some true => (true, [])
    | Some false => (false, [InfoIgnoringExtension extension])
    | None =>
        if version <=? m_versionOverride gl then (true, [])
        else (false, [InfoIgnoringExtension extension])
    end.

Definition has (gl : t) (supported : string -> bool)
    (extension : string) (version : Z) : bool :=
  fst (has_run gl supported extension version).

(** [OpenGLInfo::has] as compiled with [__vita__] (lines 216-224): a plain
    membership test in the list returned by [glGetStringi(GL_EXTENSIONS, i)];
    neither the versions nor the overrides are consulted. *)
Fixpoint has_vita (extensions : list string) (extension : string) : bool :=
  match extensions with
  | [] => false
  | e :: rest => if String.eqb e extension then true else has_vita rest extension
  end.

End OpenGLInfo.

(* ===================================================================== *)
(** * OpenGLRenderer: the render-state cache and [flushState] *)
(* ===================================================================== *)

Module Renderer.

(** The enumerators of [BlendingFactor], in the order in which the table
    [arxToGlBlendFactor] lists them. *)
Inductive BlendingFactor : Type :=
| BlendZero | BlendOne | BlendSrcColor | BlendSrcAlpha | BlendInvSrcColor
| BlendInvSrcAlpha | BlendSrcAlphaSaturate | BlendDstColor | BlendDstAlpha
| BlendInvDstColor | BlendInvDstAlpha.

Inductive GLenum : Type :=
| GL_ZERO | GL_ONE | GL_SRC_COLOR | GL_SRC_ALPHA | GL_ONE_MINUS_SRC_COLOR
| GL_ONE_MINUS_SRC_ALPHA | GL_SRC_ALPHA_SATURATE | GL_DST_COLOR | GL_DST_ALPHA
| GL_ONE_MINUS_DST_COLOR | GL_ONE_MINUS_DST_ALPHA.

Definition arxToGlBlendFactor (f : BlendingFactor) : GLenum :=
  match f with
  | BlendZero => GL_ZERO
  | BlendOne => GL_ONE
  | BlendSrcColor => GL_SRC_COLOR
  | BlendSrcAlpha => GL_SRC_ALPHA
  | BlendInvSrcColor => GL_ONE_MINUS_SRC_COLOR
  | BlendInvSrcAlpha => GL_ONE_MINUS_SRC_ALPHA
  | BlendSrcAlphaSaturate => GL_SRC_ALPHA_SATURATE
  | BlendDstColor => GL_DST_COLOR
  | BlendDstAlpha => GL_DST_ALPHA
  | BlendInvDstColor => GL_ONE_MINUS_DST_COLOR
  | BlendInvDstAlpha => GL_ONE_MINUS_DST_ALPHA
  end.

Definition BlendingFactor_eqb (a b : BlendingFactor) : bool :=
  match a, b with
  | BlendZero, BlendZero | BlendOne, BlendOne | BlendSrcColor, BlendSrcColor
  | BlendSrcAlpha, BlendSrcAlpha | BlendInvSrcColor, BlendInvSrcColor
  | BlendInvSrcAlpha, BlendInvSrcAlpha
  | BlendSrcAlphaSaturate, BlendSrcAlphaSaturate
  | BlendDstColor, BlendDstColor | BlendDstAlpha, BlendDstAlpha
  | BlendInvDstColor, BlendInvDstColor | BlendInvDstAlpha, BlendInvDstAlpha => true
  | _, _ => false
  end.

Definition GLenum_eqb (a b : GLenum) : bool :=
  match a, b with
  | GL_ZERO, GL_ZERO | GL_ONE, GL_ONE | GL_SRC_COLOR, GL_SRC_COLOR
  | GL_SRC_ALPHA, GL_SRC_ALPHA | GL_ONE_MINUS_SRC_COLOR, GL_ONE_MINUS_SRC_COLOR
  | GL_ONE_MINUS_SRC_ALPHA, GL_ONE_MINUS_SRC_ALPHA
  | GL_SRC_ALPHA_SATURATE, GL_SRC_ALPHA_SATURATE
  | GL_DST_COLOR, GL_DST_COLOR | GL_DST_ALPHA, GL_DST_ALPHA
  | GL_ONE_MINUS_DST_COLOR, GL_ONE_MINUS_DST_COLOR
  | GL_ONE_MINUS_DST_ALPHA, GL_ONE_MINUS_DST_ALPHA => true
  | _, _ => false
  end.

(** Modelled from the spec: [RenderState] (graphics/Renderer.h is not among
    the sources): "cull enabled, fog enabled, depth-test enabled, depth-write
    enabled, depth-offset (int bias units), blend (src-factor, dst-factor),
    alpha-cutout enabled", compared field by field. *)
Record RenderState : Type := mkRenderState {
  getCull : bool;
  getFog : bool;
  getDepthTest : bool;
  getDepthWrite : bool;
  getDepthOffset : Z;
  getBlendSrc : BlendingFactor;
  getBlendDst : BlendingFactor;
  getAlphaCutout : bool
}.

Definition RenderState_eqb (a b : RenderState) : bool :=
  Bool.eqb (getCull a) (getCull b)
  && Bool.eqb (getFog a) (getFog b)
  && Bool.eqb (getDepthTest a) (getDepthTest b)
  && Bool.eqb (getDepthWrite a) (getDepthWrite b)
  && (getDepthOffset a =? getDepthOffset b)
  && BlendingFactor_eqb (getBlendSrc a) (getBlendSrc b)
  && BlendingFactor_eqb (getBlendDst a) (getBlendDst b)
  && Bool.eqb (getAlphaCutout a) (getAlphaCutout b).

(** [Renderer::AlphaCutoutAntialising], the range of
    [config.video.alphaCutoutAntialiasing] (the configuration reader clamps
    the value to the three enumerators). *)
Inductive AlphaCutoutAntialising : Type :=
| NoAlphaCutoutAA | FuzzyAlphaCutoutAA | CrispAlphaCutoutAA.

(** The local enumeration of [flushState]. *)
Inductive TestMode : Type :=
| TestSS | TestA2C | TestStrict | TestConservative | TestNone.

Definition TestMode_eqb (a b : TestMode) : bool :=
  match a, b with
  | TestSS, TestSS | TestA2C, TestA2C | TestStrict, TestStrict
  | TestConservative, TestConservative | TestNone, TestNone => true
  | _, _ => false
  end.

(** The value cached in [m_glalphaFunc].  The code stores the three float
    constants -1, 0 and 0.5 and nothing else. *)
Inductive AlphaRef : Type :=
| RefMinusOne   (* -1.f : alpha test off, GL_ALWAYS *)
| RefZero       (*  0.f : GL_GREATER 0 *)
| RefHalf.      (* 0.5f : GL_GREATER 0.5 *)

Inductive GLcap : Type :=
| GL_CULL_FACE | GL_FOG | GL_SAMPLE_SHADING_ARB | GL_SAMPLE_ALPHA_TO_COVERAGE.

Inductive GLfunc : Type := GL_ALWAYS | GL_GREATER | GL_LEQUAL.

(** The calls [flushState] can issue, in the order issued. *)
Inductive GLCall : Type :=
| glEnable (cap : GLcap)
| glDisable (cap : GLcap)
| glAlphaFunc (func : GLfunc) (ref : AlphaRef)
| glBlendFunc (sfactor dfactor : GLenum)
| glDepthFunc (func : GLfunc)
| glDepthMask (flag : bool)
| glPolygonOffset (factor units : Z)
| TextureStage_apply (stage : nat).

(** The members of [OpenGLRenderer] that [flushState] reads or writes. *)
Record t : Type := mk {
  m_state : RenderState;          (* desired *)
  m_glstate : RenderState;        (* applied *)
  m_glsampleShading : bool;
  m_glalphaToCoverage : bool;
  m_glalphaFunc : AlphaRef;
  m_glblendSrc : GLenum;
  m_glblendDst : GLenum;
  m_hasMSAA : bool;
  m_hasSampleShading : bool;
  maxTextureStage : nat
}.

Definition hasSampleShading (r : t) : bool := m_hasSampleShading r.

(** The assertion inside the alpha-cutout branch.  [arx_assert_msg] checks
    it in debug builds only; the functions below are the release build. *)
Definition cutoutBlendAssertion (blendSrc blendDst : BlendingFactor) : bool :=
  negb (BlendingFactor_eqb blendSrc BlendInvSrcAlpha)
  && negb (BlendingFactor_eqb blendDst BlendSrcAlpha).

(** Lines 971-987: the test mode and the (possibly replaced) source factor. *)
Definition selectAlphaTest (useSS useA2C : bool) (st : RenderState)
  : TestMode * BlendingFactor :=
  let blendSrc := getBlendSrc st in
  let blendDst := getBlendDst st in
  if getAlphaCutout st then
    if BlendingFactor_eqb blendSrc BlendOne && BlendingFactor_eqb blendDst BlendZero then
      (if useSS then TestSS else if useA2C then TestA2C else TestStrict, blendSrc)
    else if BlendingFactor_eqb blendSrc BlendOne && BlendingFactor_eqb blendDst BlendOne then
      (TestConservative, BlendSrcAlpha)
    else if BlendingFactor_eqb blendSrc BlendSrcAlpha
            || BlendingFactor_eqb blendDst BlendInvSrcAlpha then
      (TestConservative, blendSrc)
    else
      (if useSS then TestSS else TestStrict, blendSrc)
  else (TestNone, blendSrc).

(** The condition of lines 950-952. *)
Definition blendOrCutoutChanged (gl st : RenderState) : bool :=
  negb (BlendingFactor_eqb (getBlendSrc gl) (getBlendSrc st))
  || negb (BlendingFactor_eqb (getBlendDst gl) (getBlendDst st))
  || negb (Bool.eqb (getAlphaCutout gl) (getAlphaCutout st)).

Section Flush.

(** [config.video.alphaCutoutAntialiasing]. *)
Variable alphaCutoutAntialiasing : AlphaCutoutAntialising.

(** Whether the GL headers define [GL_SAMPLE_SHADING_ARB] and
    [GL_SAMPLE_ALPHA_TO_COVERAGE]; the calls are compiled out otherwise. *)
Variable def_GL_SAMPLE_SHADING_ARB : bool.
Variable def_GL_SAMPLE_ALPHA_TO_COVERAGE : bool.

Definition useSS (r : t) : bool :=
  m_hasMSAA r && hasSampleShading r
  && match alphaCutoutAntialiasing with CrispAlphaCutoutAA => true | _ => false end.

Definition useA2C (r : t) : bool :=
  m_hasMSAA r
  && match alphaCutoutAntialiasing with FuzzyAlphaCutoutAA => true | _ => false end.

Definition ifdef (defined : bool) (c : GLCall) : list GLCall :=
  if defined then [c] else [].

(** Lines 950-1038, entered when a blend factor or the alpha cutout flag
    differs: the derived toggles, each re-issued only when its cached value
    changes. *)
Definition flushBlend (r : t) : t * list GLCall :=
  let '(alphaTest, blendSrc) := selectAlphaTest (useSS r) (useA2C r) (m_state r) in
  let blendDst := getBlendDst (m_state r) in
  let '(ss, c1) :=
    if m_glsampleShading r && negb (TestMode_eqb alphaTest TestSS) then
      (false, ifdef def_GL_SAMPLE_SHADING_ARB (glDisable GL_SAMPLE_SHADING_ARB))
    else if negb (m_glsampleShading r) && TestMode_eqb alphaTest TestSS then
      (true, ifdef def_GL_SAMPLE_SHADING_ARB (glEnable GL_SAMPLE_SHADING_ARB))
    else (m_glsampleShading r, []) in
  let '(a2c, c2) :=
    if m_glalphaToCoverage r && negb (TestMode_eqb alphaTest TestA2C) then
      (false, ifdef def_GL_SAMPLE_ALPHA_TO_COVERAGE (glDisable GL_SAMPLE_ALPHA_TO_COVERAGE))
    else if negb (m_glalphaToCoverage r) && TestMode_eqb alphaTest TestA2C then
      (true, ifdef def_GL_SAMPLE_ALPHA_TO_COVERAGE (glEnable GL_SAMPLE_ALPHA_TO_COVERAGE))
    else (m_glalphaToCoverage r, []) in
  let '(af, c3) :=
    match alphaTest with
    | TestNone =>
        match m_glalphaFunc r with
        | RefMinusOne => (RefMinusOne, [])
        | _ => (RefMinusOne, [glAlphaFunc GL_ALWAYS RefZero])
        end
    | TestConservative | TestA2C =>
        match m_glalphaFunc r with
        | RefZero => (RefZero, [])
        | _ => (RefZero, [glAlphaFunc GL_GREATER RefZero])
        end
    | _ =>
        match m_glalphaFunc r with
        | RefHalf => (RefHalf, [])
        | _ => (RefHalf, [glAlphaFunc GL_GREATER RefHalf])
        end
    end in
  let glblendSrc := arxToGlBlendFactor blendSrc in
  let glblendDst := arxToGlBlendFactor blendDst in
  let '(bs, bd, c4) :=
    if negb (GLenum_eqb (m_glblendSrc r) glblendSrc)
       || negb (GLenum_eqb (m_glblendDst r) glblendDst)
    then (glblendSrc, glblendDst, [glBlendFunc glblendSrc glblendDst])
    else (m_glblendSrc r, m_glblendDst r, []) in
  (mk (m_state r) (m_glstate r) ss a2c af bs bd
      (m_hasMSAA r) (m_hasSampleShading r) (maxTextureStage r),
   c1 ++ c2 ++ c3 ++ c4).

(** The body of [if(m_glstate != m_state)]. *)
Definition flushDiff (r : t) : t * list GLCall :=
  let gl := m_glstate r in
  let st := m_state r in
  let cCull :=
    if negb (Bool.eqb (getCull gl) (getCull st)) then
      [if getCull st then glEnable GL_CULL_FACE else glDisable GL_CULL_FACE]
    else [] in
  let cFog :=
    if negb (Bool.eqb (getFog gl) (getFog st)) then
      [if getFog st then glEnable GL_FOG else glDisable GL_FOG]
    else [] in
  let '(r1, cBlend) :=
    if blendOrCutoutChanged gl st then flushBlend r else (r, []) in
  let cDepthTest :=
    if negb (Bool.eqb (getDepthTest gl) (getDepthTest st)) then
      [glDepthFunc (if getDepthTest st then GL_LEQUAL else GL_ALWAYS)]
    else [] in
  let cDepthWrite :=
    if negb (Bool.eqb (getDepthWrite gl) (getDepthWrite st)) then
      [glDepthMask (getDepthWrite st)]
    else [] in
  let cDepthOffset :=
    if negb (getDepthOffset gl =? getDepthOffset st) then
      [glPolygonOffset (- getDepthOffset st) (- getDepthOffset st)]
    else [] in
  (mk (m_state r1) (m_state r1) (m_glsampleShading r1) (m_glalphaToCoverage r1)
      (m_glalphaFunc r1) (m_glblendSrc r1) (m_glblendDst r1)
      (m_hasMSAA r1) (m_hasSampleShading r1) (maxTextureStage r1),
   cCull ++ cFog ++ cBlend ++ cDepthTest ++ cDepthWrite ++ cDepthOffset).

(** [GetTextureStage(i)->apply()] for [i <= maxTextureStage].  What a stage
    applies is outside the render-state cache and is kept as one event. *)
Definition applyTextureStages (r : t) : list GLCall :=
  map TextureStage_apply (seq 0 (S (maxTextureStage r))).

Definition flushState (r : t) : t * list GLCall :=
  let '(r1, calls) :=
    if negb (RenderState_eqb (m_glstate r) (m_state r)) then flushDiff r
    else (r, []) in
  (r1, calls ++ applyTextureStages r1).

End Flush.

(** The calls gated by the state diff, as opposed to the per-stage texture
    application that every flush repeats. *)
Definition isStateCall (c : GLCall) : bool :=
  match c with
  | TextureStage_apply _ => false
  | _ => true
  end.

Definition stateCalls (calls : list GLCall) : list GLCall :=
  filter isStateCall calls.

(** The selection rule in the words of the specification: conservative when
    the blend pair incorporates source alpha, otherwise sample shading,
    alpha-to-coverage or strict discard by availability. *)
Definition incorporatesSrcAlpha (blendSrc blendDst : BlendingFactor) : bool :=
  BlendingFactor_eqb blendSrc BlendSrcAlpha
  || BlendingFactor_eqb blendDst BlendInvSrcAlpha.

Definition specTestMode (useSS useA2C : bool) (blendSrc blendDst : BlendingFactor)
  : TestMode :=
  if incorporatesSrcAlpha blendSrc blendDst then TestConservative
  else if useSS then TestSS
  else if useA2C then TestA2C
  else TestStrict.

(** What the code selects, case by case on the desired blend pair. *)
Definition codeTestMode (useSS useA2C : bool) (blendSrc blendDst : BlendingFactor)
  : TestMode :=
  match blendSrc, blendDst with
  | BlendOne, BlendZero =>
      if useSS then TestSS else if useA2C then TestA2C else TestStrict
  | BlendOne, BlendOne => TestConservative
  | BlendSrcAlpha, _ | _, BlendInvSrcAlpha => TestConservative
  | _, _ => if useSS then TestSS else TestStrict
  end.

(** The toggles a test mode stands for. *)
Definition alphaRefOf (mode : TestMode) : AlphaRef :=
  match mode with
  | TestNone => RefMinusOne
  | TestConservative | TestA2C => RefZero
  | TestSS | TestStrict => RefHalf
  end.

(** The render state right after [reinit], with MSAA switched on. *)
Definition afterReinit (hasSampleShading : bool) : t :=
  let applied := mkRenderState false false false true 0 BlendZero BlendOne false in
  mk applied applied false false RefMinusOne GL_ONE GL_ZERO true hasSampleShading 0.

Definition setDesired (st : RenderState) (r : t) : t :=
  mk st (m_glstate r) (m_glsampleShading r) (m_glalphaToCoverage r)
     (m_glalphaFunc r) (m_glblendSrc r) (m_glblendDst r)
     (m_hasMSAA r) (m_hasSampleShading r) (maxTextureStage r).

(** ** [reinit] and [SetAntialiasing] *)

(** The writes of [OpenGLRenderer::reinit] (lines 403-450) to the members
    that [flushState] reads: the applied state and the derived toggles are
    set to what the fresh context holds, MSAA is off; the desired state and
    the capabilities are not touched. *)
Definition reinitCache (r : t) : t :=
  mk (m_state r)
     (mkRenderState false false false true 0 BlendZero BlendOne false)
     false false RefMinusOne GL_ONE GL_ZERO
     false (m_hasSampleShading r) (maxTextureStage r).

Definition setAlphaCutout (enable : bool) (st : RenderState) : RenderState :=
  mkRenderState (getCull st) (getFog st) (getDepthTest st) (getDepthWrite st)
                (getDepthOffset st) (getBlendSrc st) (getBlendDst st) enable.

Definition setHasMSAA (enable : bool) (r : t) : t :=
  mk (m_state r) (m_glstate r) (m_glsampleShading r) (m_glalphaToCoverage r)
     (m_glalphaFunc r) (m_glblendSrc r) (m_glblendDst r)
     enable (m_hasSampleShading r) (maxTextureStage r).

(** What [SetAntialiasing] issues: the calls of the flush it may run, then
    the multisample switch. *)
Inductive AACall : Type :=
| Flushed (call : GLCall)
| glEnable_GL_MULTISAMPLE
| glDisable_GL_MULTISAMPLE.

(** [OpenGLRenderer::SetAntialiasing] (lines 707-739).  [m_MSAALevel] and
    [config.video.antialiasing] are only read; [def_GL_MULTISAMPLE] tells
    whether the GL headers define the macro. *)
Definition SetAntialiasing (alphaCutoutAntialiasing : AlphaCutoutAntialising)
    (def_GL_SAMPLE_SHADING_ARB def_GL_SAMPLE_ALPHA_TO_COVERAGE : bool)
    (def_GL_MULTISAMPLE : bool) (m_MSAALevel : Z) (antialiasing : bool)
    (enable : bool) (r : t) : t * list AACall :=
  if m_MSAALevel <=? 0 then (r, [])
  else if enable && negb antialiasing then (r, [])
  else if Bool.eqb enable (m_hasMSAA r) then (r, [])
  else
    let '(r1, c1) :=
      if getAlphaCutout (m_glstate r) then
        let alphaCutout := getAlphaCutout (m_state r) in
        let '(rf, cf) :=
          flushState alphaCutoutAntialiasing def_GL_SAMPLE_SHADING_ARB
            def_GL_SAMPLE_ALPHA_TO_COVERAGE
            (setDesired (setAlphaCutout false (m_state r)) r) in
        (setDesired (setAlphaCutout alphaCutout (m_state rf)) rf, map Flushed cf)
      else (r, []) in
    (setHasMSAA enable r1,
     c1 ++ (if def_GL_MULTISAMPLE
            then [if enable then glEnable_GL_MULTISAMPLE else glDisable_GL_MULTISAMPLE]
            else [])).

(** The derived toggles are those that the applied state selects under the
    current MSAA setting. *)
Definition togglesMatch (aa : AlphaCutoutAntialising) (r : t) : Prop :=
  let mode := fst (selectAlphaTest (useSS aa r) (useA2C aa r) (m_glstate r)) in
  m_glsampleShading r = TestMode_eqb mode TestSS
  /\ m_glalphaToCoverage r = TestMode_eqb mode TestA2C
  /\ m_glalphaFunc r = alphaRefOf mode.

(** ** The part of the OpenGL state that [flushState] drives *)

(** The contract of the GL entry points used: each call sets the piece of
    context state it names; applying a texture stage touches none of it. *)
Record GLState : Type := mkGLState {
  gl_cull : bool;
  gl_fog : bool;
  gl_sampleShading : bool;
  gl_alphaToCoverage : bool;
  gl_alphaFunc : GLfunc * AlphaRef;
  gl_blendFunc : GLenum * GLenum;
  gl_depthFunc : GLfunc;
  gl_depthMask : bool;
  gl_polygonOffset : Z * Z
}.

Definition setCap (cap : GLcap) (on : bool) (g : GLState) : GLState :=
  match cap with
  | GL_CULL_FACE =>
      mkGLState on (gl_fog g) (gl_sampleShading g) (gl_alphaToCoverage g)
        (gl_alphaFunc g) (gl_blendFunc g) (gl_depthFunc g) (gl_depthMask g)
        (gl_polygonOffset g)
  | GL_FOG =>
      mkGLState (gl_cull g) on (gl_sampleShading g) (gl_alphaToCoverage g)
        (gl_alphaFunc g) (gl_blendFunc g) (gl_depthFunc g) (gl_depthMask g)
        (gl_polygonOffset g)
  | GL_SAMPLE_SHADING_ARB =>
      mkGLState (gl_cull g) (gl_fog g) on (gl_alphaToCoverage g)
        (gl_alphaFunc g) (gl_blendFunc g) (gl_depthFunc g) (gl_depthMask g)
        (gl_polygonOffset g)
  | GL_SAMPLE_ALPHA_TO_COVERAGE =>
      mkGLState (gl_cull g) (gl_fog g) (gl_sampleShading g) on
        (gl_alphaFunc g) (gl_blendFunc g) (gl_depthFunc g) (gl_depthMask g)
        (gl_polygonOffset g)
  end.

Definition exec (call : GLCall) (g : GLState) : GLState :=
  match call with
  | glEnable cap => setCap cap true g
  | glDisable cap => setCap cap false g
  | glAlphaFunc func ref =>
      mkGLState (gl_cull g) (gl_fog g) (gl_sampleShading g) (gl_alphaToCoverage g)
        (func, ref) (gl_blendFunc g) (gl_depthFunc g) (gl_depthMask g)
        (gl_polygonOffset g)
  | glBlendFunc sfactor dfactor =>
      mkGLState (gl_cull g) (gl_fog g) (gl_sampleShading g) (gl_alphaToCoverage g)
        (gl_alphaFunc g) (sfactor, dfactor) (gl_depthFunc g) (gl_depthMask g)
        (gl_polygonOffset g)
  | glDepthFunc func =>
      mkGLState (gl_cull g) (gl_fog g) (gl_sampleShading g) (gl_alphaToCoverage g)
        (gl_alphaFunc g) (gl_blendFunc g) func (gl_depthMask g)
        (gl_polygonOffset g)
  | glDepthMask flag =>
      mkGLState (gl_cull g) (gl_fog g) (gl_sampleShading g) (gl_alphaToCoverage g)
        (gl_alphaFunc g) (gl_blendFunc g) (gl_depthFunc g) flag
        (gl_polygonOffset g)
  | glPolygonOffset factor units =>
      mkGLState (gl_cull g) (gl_fog g) (gl_sampleShading g) (gl_alphaToCoverage g)
        (gl_alphaFunc g) (gl_blendFunc g) (gl_depthFunc g) (gl_depthMask g)
        (factor, units)
  | TextureStage_apply _ => g
  end.

Definition execAll (calls : list GLCall) (g : GLState) : GLState :=
  fold_left (fun acc call => exec call acc) calls g.

(** The arguments of the [glAlphaFunc] call that leaves a cached value. *)
Definition alphaFuncOf (ref : AlphaRef) : GLfunc * AlphaRef :=
  match ref with
  | RefMinusOne => (GL_ALWAYS, RefZero)
  | RefZero => (GL_GREATER, RefZero)
  | RefHalf => (GL_GREATER, RefHalf)
  end.

(** The cache describes the context: every cached member is the value the
    context holds. *)
Definition coherent (r : t) (g : GLState) : Prop :=
  gl_cull g = getCull (m_glstate r)
  /\ gl_fog g = getFog (m_glstate r)
  /\ gl_sampleShading g = m_glsampleShading r
  /\ gl_alphaToCoverage g = m_glalphaToCoverage r
  /\ gl_alphaFunc g = alphaFuncOf (m_glalphaFunc r)
  /\ gl_blendFunc g = (m_glblendSrc r, m_glblendDst r)
  /\ gl_depthFunc g = (if getDepthTest (m_glstate r) then GL_LEQUAL else GL_ALWAYS)
  /\ gl_depthMask g = getDepthWrite (m_glstate r)
  /\ gl_polygonOffset g = (- getDepthOffset (m_glstate r), - getDepthOffset (m_glstate r)).

(** ** Vertex buffer strategy selection (lines 777-848) *)

(** [Renderer::BufferUsage]; the selection names [Static] and [Stream]. *)
Inductive BufferUsage : Type := Static | Dynamic | Stream.

(** The buffer classes the selection can instantiate; the fence buffer
    carries its runtime buffer count. *)
Inductive VertexBufferKind : Type :=
| GLPersistentOrphanVertexBuffer
| GLPersistentFenceVertexBuffer (count : nat)
| GLPersistentUnsynchronizedVertexBuffer
| GLMapRangeVertexBuffer
| GLMapVertexBuffer
| GLShadowVertexBuffer.

Record BufferCaps : Type := mkBufferCaps {
  hasMapBufferRange : bool;
  hasBufferStorage : bool;
  hasMapBuffer : bool
}.

Definition isStatic (usage : BufferUsage) : bool :=
  match usage with Static => true | _ => false end.

Definition isStream (usage : BufferUsage) : bool :=
  match usage with Stream => true | _ => false end.

(** The four [if]s inside [if(renderer->hasBufferStorage())]: the buffer
    returned, if any, and the value of [matched] reached. *)
Definition selectPersistent (usage : BufferUsage) (setting : string)
  : option VertexBufferKind * bool :=
  let empty := String.eqb setting "" in
  let orphan := empty || String.eqb setting "persistent-orphan" in
  let x3 := empty || String.eqb setting "persistent-x3" in
  let x2 := empty || String.eqb setting "persistent-x2" in
  let nosync := String.eqb setting "persistent-nosync" in
  if orphan && negb (isStatic usage) then
    (Some GLPersistentOrphanVertexBuffer, false)
  else if x3 && isStream usage then
    (Some (GLPersistentFenceVertexBuffer 3), orphan)
  else if x2 && isStream usage then
    (Some (GLPersistentFenceVertexBuffer 2), orphan || x3)
  else if nosync && negb (isStatic usage) then
    (Some GLPersistentUnsynchronizedVertexBuffer, orphan || x3 || x2)
  else (None, orphan || x3 || x2 || nosync).

(** The body of [createVertexBufferImpl] down to the last [return] before
    the warning: the buffer returned, if any, and [matched]. *)
Definition selectVertexBuffer (def_GL_ARB_buffer_storage : bool) (caps : BufferCaps)
    (usage : BufferUsage) (setting : string) : option VertexBufferKind * bool :=
  let empty := String.eqb setting "" in
  let '(found, matched) :=
    if hasMapBufferRange caps then
      let '(persistent, matched) :=
        if def_GL_ARB_buffer_storage && hasBufferStorage caps
        then selectPersistent usage setting
        else (None, false) in
      match persistent with
      | Some kind => (Some kind, matched)
      | None =>
          if empty || String.eqb setting "maprange"
             || String.eqb setting "maprange+subdata"
          then (Some GLMapRangeVertexBuffer, matched)
          else (None, matched)
      end
    else (None, false) in
  match found with
  | Some kind => (Some kind, matched)
  | None =>
      if hasMapBuffer caps
         && (empty || String.eqb setting "map" || String.eqb setting "map+subdata")
      then (Some GLMapVertexBuffer, matched)
      else if empty || String.eqb setting "shadow" || String.eqb setting "shadow+subdata"
      then (Some GLShadowVertexBuffer, matched)
      else (None, matched)
  end.

(** [createVertexBufferImpl] with its recursive call on the empty setting.
    [warned] is the function's static flag; the result is the buffer, the
    flag afterwards and the settings warned about.  [fuel] bounds the
    recursion depth. *)
Fixpoint createVertexBufferImpl (fuel : nat) (def_GL_ARB_buffer_storage : bool)
    (caps : BufferCaps) (usage : BufferUsage) (setting : string) (warned : bool)
  : option (VertexBufferKind * bool * list string) :=
  match fuel with
  | O => None
  | S fuel' =>
      match selectVertexBuffer def_GL_ARB_buffer_storage caps usage setting with
      | (Some kind, _) => Some (kind, warned, [])
      | (None, matched) =>
          let warn := negb matched && negb warned in
          match createVertexBufferImpl fuel' def_GL_ARB_buffer_storage caps usage
                  "" (if warn then true else warned) with
          | Some (kind, warned', log) =>
              Some (kind, warned', (if warn then [setting] else []) ++ log)
          | None => None
          end
      end
  end.

(** The preference order that the empty setting follows: persistent
    orphaning, then range mapping, then mapping, then the shadow copy. *)
Definition defaultBuffer (def_GL_ARB_buffer_storage : bool) (caps : BufferCaps)
    (usage : BufferUsage) : VertexBufferKind :=
  if hasMapBufferRange caps then
    if def_GL_ARB_buffer_storage && hasBufferStorage caps && negb (isStatic usage)
    then GLPersistentOrphanVertexBuffer
    else GLMapRangeVertexBuffer
  else if hasMapBuffer caps then GLMapVertexBuffer
  else GLShadowVertexBuffer.

End Renderer.

(* ===================================================================== *)
(** * OpenGLRenderer: the transform cache *)
(* ===================================================================== *)

Module Transform.

(** The values of [m_currentTransform]. *)
Inductive GLTransformMode : Type :=
| GL_UnsetTransform
| GL_NoTransform
| GL_ModelViewProjectionTransform.

Inductive MatrixMode : Type := GL_MODELVIEW | GL_PROJECTION.

Inductive FogCoordinateSource : Type := GL_FRAGMENT_DEPTH | GL_FOG_COORDINATE.

(** The [float] arguments the code passes, as it writes them: a constant
    [num/den], or a constant divided by an [int]. *)
Inductive Float : Type :=
| Const (num den : Z)
| ConstOver (num : Z) (divisor : Z).

Set Implicit Arguments.

Section Transform.

(** [glm::mat4x4] with its [operator==], and [Rect] with its [operator==]
    and the accessors the code uses. *)
Variable Matrix : Type.
Variable Matrix_eqb : Matrix -> Matrix -> bool.
Variable Rect : Type.
Variable Rect_eqb : Rect -> Rect -> bool.
Variables Rect_left Rect_bottom Rect_width Rect_height : Rect -> Z.

(** Whether the headers define [GL_FOG_COORDINATE_SOURCE]. *)
Variable GL_FOG_COORDINATE_SOURCE_defined : bool.

Inductive GLCall : Type :=
| glMatrixMode (mode : MatrixMode)
| glLoadMatrixf (m : Matrix)
| glLoadIdentity
| glTranslatef (x y z : Float)
| glScalef (x y z : Float)
| glFogi_GL_FOG_COORDINATE_SOURCE (param : FogCoordinateSource)
| glViewport (x y w h : Z).

(** The members of [OpenGLRenderer] that the five functions read or write. *)
Record t : Type := mk {
  m_currentTransform : GLTransformMode;
  m_view : Matrix;
  m_projection : Matrix;
  viewport : Rect;
  m_hasVertexFogCoordinate : bool
}.

Definition hasVertexFogCoordinate (r : t) : bool := m_hasVertexFogCoordinate r.

Definition setCurrentTransform (mode : GLTransformMode) (r : t) : t :=
  mk mode (m_view r) (m_projection r) (viewport r) (m_hasVertexFogCoordinate r).

Definition fogSource (param : FogCoordinateSource) (r : t) : list GLCall :=
  if GL_FOG_COORDINATE_SOURCE_defined && hasVertexFogCoordinate r
  then [glFogi_GL_FOG_COORDINATE_SOURCE param]
  else [].

Definition enableTransform (r : t) : t * list GLCall :=
  match m_currentTransform r with
  | GL_ModelViewProjectionTransform => (r, [])
  | _ =>
      (setCurrentTransform GL_ModelViewProjectionTransform r,
       [glMatrixMode GL_MODELVIEW; glLoadMatrixf (m_view r);
        glMatrixMode GL_PROJECTION; glLoadMatrixf (m_projection r)]
       ++ fogSource GL_FRAGMENT_DEPTH r)
  end.

Definition disableTransform (r : t) : t * list GLCall :=
  match m_currentTransform r with
  | GL_NoTransform => (r, [])
  | _ =>
      (setCurrentTransform GL_NoTransform r,
       [glMatrixMode GL_MODELVIEW; glLoadIdentity;
        glMatrixMode GL_PROJECTION; glLoadIdentity;
        glTranslatef (Const (-1) 1) (Const 1 1) (Const 0 1);
        glScalef (ConstOver 2 (Rect_width (viewport r)))
                 (ConstOver (-2) (Rect_height (viewport r)))
                 (Const 1 1);
        glTranslatef (Const 1 2) (Const 1 2) (Const 0 1)]
       ++ fogSource GL_FOG_COORDINATE r)
  end.

Definition SetViewMatrix (matView : Matrix) (r : t) : t :=
  if Matrix_eqb (m_view r) matView then r
  else
    mk (match m_currentTransform r with
        | GL_ModelViewProjectionTransform => GL_UnsetTransform
        | mode => mode
        end)
       matView (m_projection r) (viewport r) (m_hasVertexFogCoordinate r).

Definition SetProjectionMatrix (matProj : Matrix) (r : t) : t :=
  if Matrix_eqb (m_projection r) matProj then r
  else
    mk (match m_currentTransform r with
        | GL_ModelViewProjectionTransform => GL_UnsetTransform
        | mode => mode
        end)
       (m_view r) matProj (viewport r) (m_hasVertexFogCoordinate r).

(** [SetViewport]; [windowHeight] is
    [mainApp->getWindow()->getSize().y]. *)
Definition SetViewport (_viewport : Rect) (windowHeight : Z) (r : t) : t * list GLCall :=
  if Rect_eqb _viewport (viewport r) then (r, [])
  else
    (mk (match m_currentTransform r with
         | GL_NoTransform => GL_UnsetTransform
         | mode => mode
         end)
        (m_view r) (m_projection r) _viewport (m_hasVertexFogCoordinate r),
     [glViewport (Rect_left _viewport) (windowHeight - Rect_bottom _viewport)
                 (Rect_width _viewport) (Rect_height _viewport)]).

(** ** The context, as OpenGL defines the calls *)

(** A matrix of the context: what was loaded, and what was multiplied onto
    it since. *)
Inductive MatExp : Type :=
| Loaded (m : Matrix)
| Identity
| Translated (e : MatExp) (x y z : Float)
| Scaled (e : MatExp) (x y z : Float).

Record Context : Type := mkContext {
  gl_matrixMode : MatrixMode;
  gl_modelview : MatExp;
  gl_projection : MatExp;
  gl_fogCoordinateSource : FogCoordinateSource;
  gl_viewport : Z * Z * Z * Z
}.

Definition currentMatrix (g : Context) : MatExp :=
  match gl_matrixMode g with
  | GL_MODELVIEW => gl_modelview g
  | GL_PROJECTION => gl_projection g
  end.

Definition setCurrentMatrix (e : MatExp) (g : Context) : Context :=
  match gl_matrixMode g with
  | GL_MODELVIEW =>
      mkContext (gl_matrixMode g) e (gl_projection g) (gl_fogCoordinateSource g)
                (gl_viewport g)
  | GL_PROJECTION =>
      mkContext (gl_matrixMode g) (gl_modelview g) e (gl_fogCoordinateSource g)
                (gl_viewport g)
  end.

Definition exec (call : GLCall) (g : Context) : Context :=
  match call with
  | glMatrixMode mode =>
      mkContext mode (gl_modelview g) (gl_projection g) (gl_fogCoordinateSource g)
                (gl_viewport g)
  | glLoadMatrixf m => setCurrentMatrix (Loaded m) g
  | glLoadIdentity => setCurrentMatrix Identity g
  | glTranslatef x y z => setCurrentMatrix (Translated (currentMatrix g) x y z) g
  | glScalef x y z => setCurrentMatrix (Scaled (currentMatrix g) x y z) g
  | glFogi_GL_FOG_COORDINATE_SOURCE param =>
      mkContext (gl_matrixMode g) (gl_modelview g) (gl_projection g) param
                (gl_viewport g)
  | glViewport x y w h =>
      mkContext (gl_matrixMode g) (gl_modelview g) (gl_projection g)
                (gl_fogCoordinateSource g) (x, y, w, h)
  end.

Definition execAll (calls : list GLCall) (g : Context) : Context :=
  fold_left (fun acc call => exec call acc) calls g.

(** The projection that [disableTransform] builds for a viewport: from
    pixels to the unit square, y flipped, pixel origins moved by a half. *)
Definition pixelProjection (r : Rect) : MatExp :=
  Translated
    (Scaled
       (Translated Identity (Const (-1) 1) (Const 1 1) (Const 0 1))
       (ConstOver 2 (Rect_width r)) (ConstOver (-2) (Rect_height r)) (Const 1 1))
    (Const 1 2) (Const 1 2) (Const 0 1).

Definition fogFollows (param : FogCoordinateSource) (r : t) (g : Context) : Prop :=
  GL_FOG_COORDINATE_SOURCE_defined && hasVertexFogCoordinate r = true ->
  gl_fogCoordinateSource g = param.

(** What [m_currentTransform] promises about the context. *)
Definition coherent (r : t) (g : Context) : Prop :=
  match m_currentTransform r with
  | GL_UnsetTransform => True
  | GL_NoTransform =>
      gl_modelview g = Identity
      /\ gl_projection g = pixelProjection (viewport r)
      /\ fogFollows GL_FOG_COORDINATE r g
  | GL_ModelViewProjectionTransform =>
      gl_modelview g = Loaded (m_view r)
      /\ gl_projection g = Loaded (m_projection r)
      /\ fogFollows GL_FRAGMENT_DEPTH r g
  end.

(** The calls a user of the renderer can make, and their effect on the
    renderer and the context together. *)
Inductive Op : Type :=
| DoEnableTransform
| DoDisableTransform
| DoSetViewMatrix (matView : Matrix)
| DoSetProjectionMatrix (matProj : Matrix)
| DoSetViewport (_viewport : Rect) (windowHeight : Z).

Definition step (op : Op) (st : t * Context) : t * Context :=
  let '(r, g) := st in
  match op with
  | DoEnableTransform =>
      let '(r1, calls) := enableTransform r in (r1, execAll calls g)
  | DoDisableTransform =>
      let '(r1, calls) := disableTransform r in (r1, execAll calls g)
  | DoSetViewMatrix matView => (SetViewMatrix matView r, g)
  | DoSetProjectionMatrix matProj => (SetProjectionMatrix matProj r, g)
  | DoSetViewport _viewport windowHeight =>
      let '(r1, calls) := SetViewport _viewport windowHeight r in (r1, execAll calls g)
  end.

Definition run (ops : list Op) (st : t * Context) : t * Context :=
  fold_left (fun acc op => step op acc) ops st.

End Transform.

Unset Implicit Arguments.

End Transform.

(* ===================================================================== *)
(** * OpenGLRenderer: scissor and clear *)
(* ===================================================================== *)

Module Scissor.

Set Implicit Arguments.

Section Scissor.

(** [Rect] with its [operator==], [isValid] and the accessors the code
    uses; the clear colour and depth are only handed to OpenGL. *)
Variable Rect : Type.
Variable Rect_eqb : Rect -> Rect -> bool.
Variable isValid : Rect -> bool.
Variables Rect_left Rect_bottom Rect_width Rect_height : Rect -> Z.
Variable Color : Type.
Variable Depth : Type.

(** [hasClearDepthf()], false where the call is compiled out. *)
Variable hasClearDepthf : bool.

(** [mainApp->getWindow()->getSize().y]. *)
Variable windowHeight : Z.

Inductive GLCall : Type :=
| glEnable_GL_SCISSOR_TEST
| glDisable_GL_SCISSOR_TEST
| glScissor (x y w h : Z)
| glClearColor (c : Color)
| glDepthMask_GL_TRUE
| glClearDepthf (d : Depth)
| glClearDepth (d : Depth)
| glClear (colorBufferBit depthBufferBit : bool).

(** [m_scissor] and [m_glstate.getDepthWrite()]. *)
Record t : Type := mk {
  m_scissor : Rect;
  glstate_depthWrite : bool
}.

Definition scissorBox (rect : Rect) : Z * Z * Z * Z :=
  (Rect_left rect, windowHeight - Rect_bottom rect, Rect_width rect, Rect_height rect).

Definition SetScissor (rect : Rect) (r : t) : t * list GLCall :=
  if Rect_eqb (m_scissor r) rect then (r, [])
  else
    (mk rect (glstate_depthWrite r),
     if isValid rect then
       (if negb (isValid (m_scissor r)) then [glEnable_GL_SCISSOR_TEST] else [])
       ++ [glScissor (Rect_left rect) (windowHeight - Rect_bottom rect)
                     (Rect_width rect) (Rect_height rect)]
     else
       if isValid (m_scissor r) then [glDisable_GL_SCISSOR_TEST] else []).

(** The [for] loop of [Clear] over the rectangles. *)
Fixpoint clearRects (colorBufferBit depthBufferBit : bool) (rects : list Rect) (r : t)
  : t * list GLCall :=
  match rects with
  | [] => (r, [])
  | rect :: rest =>
      let '(r1, calls1) := SetScissor rect r in
      let '(r2, calls2) := clearRects colorBufferBit depthBufferBit rest r1 in
      (r2, calls1 ++ [glClear colorBufferBit depthBufferBit] ++ calls2)
  end.

(** [Clear]; the two flags are [bufferFlags & ColorBuffer] and
    [bufferFlags & DepthBuffer], the list is [rect[0..nrects)]. *)
Definition Clear (colorBuffer depthBuffer : bool) (clearColor : Color)
    (clearDepth : Depth) (rects : list Rect) (r : t) : t * list GLCall :=
  let calls1 := if colorBuffer then [glClearColor clearColor] else [] in
  let '(r1, calls2) :=
    if depthBuffer then
      (mk (m_scissor r) true,
       (if negb (glstate_depthWrite r) then [glDepthMask_GL_TRUE] else [])
       ++ [if hasClearDepthf then glClearDepthf clearDepth else glClearDepth clearDepth])
    else (r, []) in
  match rects with
  | _ :: _ =>
      let scissor := m_scissor r1 in
      let '(r2, calls3) := clearRects colorBuffer depthBuffer rects r1 in
      let '(r3, calls4) := SetScissor scissor r2 in
      (r3, calls1 ++ calls2 ++ calls3 ++ calls4)
  | [] =>
      (r1,
       calls1 ++ calls2
       ++ (if isValid (m_scissor r1) then [glDisable_GL_SCISSOR_TEST] else [])
       ++ [glClear colorBuffer depthBuffer]
       ++ (if isValid (m_scissor r1) then [glEnable_GL_SCISSOR_TEST] else []))
  end.

(** ** The context, as OpenGL defines the calls *)

(** One [glClear] as the context carries it out: the region (the scissor
    box when the scissor test is on, the whole buffer otherwise), the
    buffers named, and whether the depth mask let the depth buffer be
    written. *)
Record Cleared : Type := mkCleared {
  region : option (Z * Z * Z * Z);
  clearedColor : bool;
  clearedDepth : bool
}.

Record Context : Type := mkContext {
  gl_scissorTest : bool;
  gl_scissorBox : Z * Z * Z * Z;
  gl_depthMask : bool;
  gl_cleared : list Cleared
}.

Definition exec (call : GLCall) (g : Context) : Context :=
  match call with
  | glEnable_GL_SCISSOR_TEST =>
      mkContext true (gl_scissorBox g) (gl_depthMask g) (gl_cleared g)
  | glDisable_GL_SCISSOR_TEST =>
      mkContext false (gl_scissorBox g) (gl_depthMask g) (gl_cleared g)
  | glScissor x y w h =>
      mkContext (gl_scissorTest g) (x, y, w, h) (gl_depthMask g) (gl_cleared g)
  | glDepthMask_GL_TRUE =>
      mkContext (gl_scissorTest g) (gl_scissorBox g) true (gl_cleared g)
  | glClearColor _ | glClearDepthf _ | glClearDepth _ => g
  | glClear colorBufferBit depthBufferBit =>
      mkContext (gl_scissorTest g) (gl_scissorBox g) (gl_depthMask g)
        (gl_cleared g
         ++ [mkCleared (if gl_scissorTest g then Some (gl_scissorBox g) else None)
                       colorBufferBit (depthBufferBit && gl_depthMask g)])
  end.

Definition execAll (calls : list GLCall) (g : Context) : Context :=
  fold_left (fun acc call => exec call acc) calls g.

(** The cache describes the context: the scissor test is on exactly when
    [m_scissor] is valid, the box is then the one of [m_scissor] at the
    current window height, and the cached depth mask is the context's. *)
Definition coherent (r : t) (g : Context) : Prop :=
  gl_scissorTest g = isValid (m_scissor r)
  /\ (isValid (m_scissor r) = true -> gl_scissorBox g = scissorBox (m_scissor r))
  /\ gl_depthMask g = glstate_depthWrite r.

(** The region a clear of [rect] covers. *)
Definition regionOf (rect : Rect) : option (Z * Z * Z * Z) :=
  if isValid rect then Some (scissorBox rect) else None.

End Scissor.

Unset Implicit Arguments.

End Scissor.

(* ===================================================================== *)
(** * Window and SDL2Window *)
(* ===================================================================== *)

Module Win.

Record Vec2i : Type := mkVec2i { vx : Z; vy : Z }.

(** [DisplayMode]: a resolution and a refresh rate; 0 stands for the desktop
    default. *)
Record DisplayMode : Type := mkDisplayMode { resolution : Vec2i; refresh : Z }.

Definition Vec2i_eqb (a b : Vec2i) : bool := (vx a =? vx b) && (vy a =? vy b).

(** Modelled from the spec: [DisplayMode::operator==] (window/Window.h is not
    among the sources): equality of the "(resolution, refresh) pairs". *)
Definition DisplayMode_eqb (a b : DisplayMode) : bool :=
  Vec2i_eqb (resolution a) (resolution b) && (refresh a =? refresh b).

(** [DisplayMode::operator<]. *)
Definition DisplayMode_lt (a o : DisplayMode) : bool :=
  if negb (vx (resolution a) =? vx (resolution o)) then
    vx (resolution a) <? vx (resolution o)
  else if negb (vy (resolution a) =? vy (resolution o)) then
    vy (resolution a) <? vy (resolution o)
  else
    refresh a <? refresh o.

(** The lexicographic order that [operator<] decides. *)
Definition lexLess (a b : DisplayMode) : Prop :=
  vx (resolution a) < vx (resolution b)
  \/ (vx (resolution a) = vx (resolution b)
      /\ (vy (resolution a) < vy (resolution b)
          \/ (vy (resolution a) = vy (resolution b) /\ refresh a < refresh b))).

(** ** Display mode enumeration in [SDL2Window::initializeFramework] *)

(** What [SDL_GetDisplayMode] writes: [w], [h] and [refresh_rate]. *)
Record SDL_DisplayMode : Type := mkSDLMode { sdl_w : Z; sdl_h : Z; sdl_refresh_rate : Z }.

(** The two nested loops.  A display is the list of the answers of
    [SDL_GetDisplayMode] for its mode indices, [None] for a negative return
    value. *)
Definition collectModes (displays : list (list (option SDL_DisplayMode)))
  : list DisplayMode :=
  flat_map
    (fun modes =>
       flat_map
         (fun answer =>
            match answer with
            | Some mode =>
                [mkDisplayMode (mkVec2i (sdl_w mode) (sdl_h mode)) (sdl_refresh_rate mode)]
            | None => []
            end)
         modes)
    displays.

Fixpoint insertMode (m : DisplayMode) (l : list DisplayMode) : list DisplayMode :=
  match l with
  | [] => [m]
  | h :: rest => if DisplayMode_lt m h then m :: h :: rest else h :: insertMode m rest
  end.

(** [std::sort(begin, end)] with [operator<]: an executable sort; the
    properties below are also stated for any sorted permutation, which is all
    the standard promises. *)
Definition std_sort (l : list DisplayMode) : list DisplayMode :=
  fold_right insertMode [] l.

(** The postcondition of [std::sort]: no element is less than its
    predecessor. *)
Definition notGreater (a b : DisplayMode) : Prop := DisplayMode_lt b a = false.

Definition sortedModes (l : list DisplayMode) : Prop := Sorted notGreater l.

Fixpoint uniqueFrom (kept : DisplayMode) (l : list DisplayMode) : list DisplayMode :=
  match l with
  | [] => []
  | m :: rest =>
      if DisplayMode_eqb kept m then uniqueFrom kept rest
      else m :: uniqueFrom m rest
  end.

(** [erase(std::unique(begin, end), end)]: of every run of equal neighbours
    the first is kept. *)
Definition std_unique (l : list DisplayMode) : list DisplayMode :=
  match l with
  | [] => []
  | m :: rest => m :: uniqueFrom m rest
  end.

Definition displayModes (displays : list (list (option SDL_DisplayMode)))
  : list DisplayMode :=
  std_unique (std_sort (collectModes displays)).

Definition strictlyIncreasing (l : list DisplayMode) : Prop :=
  StronglySorted (fun a b => DisplayMode_lt a b = true) l.

(** ** Listeners, events and observations *)

Inductive Notification : Type :=
| CreateWindow | CloseWindow | DestroyWindow | MoveWindow | ResizeWindow
| MinimizeWindow | MaximizeWindow | RestoreWindow | ToggleFullscreen
| WindowGotFocus | WindowLostFocus | PaintWindow
| DroppedFile (path : string).

Inductive RendererCall : Type :=
| BeforeResize (wasOrIsFullscreen : bool)
| AfterResize
| SetViewport (width height : Z).

Inductive WindowEventID : Type :=
| SDL_WINDOWEVENT_SHOWN | SDL_WINDOWEVENT_HIDDEN | SDL_WINDOWEVENT_EXPOSED
| SDL_WINDOWEVENT_MINIMIZED | SDL_WINDOWEVENT_MAXIMIZED | SDL_WINDOWEVENT_RESTORED
| SDL_WINDOWEVENT_FOCUS_GAINED | SDL_WINDOWEVENT_FOCUS_LOST
| SDL_WINDOWEVENT_MOVED | SDL_WINDOWEVENT_SIZE_CHANGED | SDL_WINDOWEVENT_CLOSE
| SDL_WINDOWEVENT_other.

Inductive Event : Type :=
| SDL_WINDOWEVENT (event : WindowEventID) (data1 data2 : Z)
| SDL_QUIT
| SDL_DROPFILE (file : string)
| SDL_other (type : Z).

(** What the window does to its collaborators: a listener callback, a call
    on the renderer, an event handed to the input backend. *)
Inductive Obs : Type :=
| Notify (listener : nat) (what : Notification)
| Render (call : RendererCall)
| InputOnEvent (event : Event).

(** The platform groups that [OpenGLRenderer::beforeResize] distinguishes. *)
Inductive Platform : Type :=
| PlatformNoReinit   (* Linux, BSD, Haiku, PS Vita *)
| PlatformWin32
| PlatformOther.

Set Implicit Arguments.

Section Windows.

(** The state the listeners own.  A close handler reads and writes it and
    answers whether the window may close. *)
Variable A : Type.

Record Listener : Type := mkListener {
  lid : nat;
  onCloseWindow : A -> bool * A
}.

(** The members of [Window]. *)
Record Window : Type := mkWindow {
  m_position : Vec2i;
  m_mode : DisplayMode;
  m_minimized : bool;
  m_maximized : bool;
  m_visible : bool;
  m_fullscreen : bool;
  m_focused : bool;
  m_listeners : list Listener
}.

(** [Window::Window()]. *)
Definition Window_new (vita : bool) : Window :=
  mkWindow (mkVec2i 0 0)
           (mkDisplayMode (if vita then mkVec2i 720 408 else mkVec2i 640 480) 0)
           false false false false false [].

(** The window together with what surrounds it: the listeners' state, the
    renderer, what SDL would answer, and the observations made so far. *)
Record World : Type := mkWorld {
  window : Window;
  app : A;
  trace : list Obs;
  rendererInitialized : bool;
  s_mainWindow : bool;           (* the static pointer is set *)
  m_input : bool;                (* an input backend is attached *)
  sdlWindowSize : Vec2i;         (* SDL_GetWindowSize *)
  sdlCurrentRefresh : option Z;  (* SDL_GetCurrentDisplayMode, None on error *)
  sdlMinimizedFlag : bool        (* SDL_GetWindowFlags & SDL_WINDOW_MINIMIZED *)
}.

Definition withWindow (f : Window -> Window) (w : World) : World :=
  mkWorld (f (window w)) (app w) (trace w) (rendererInitialized w)
          (s_mainWindow w) (m_input w) (sdlWindowSize w) (sdlCurrentRefresh w)
          (sdlMinimizedFlag w).

Definition observe (obs : list Obs) (w : World) : World :=
  mkWorld (window w) (app w) (trace w ++ obs) (rendererInitialized w)
          (s_mainWindow w) (m_input w) (sdlWindowSize w) (sdlCurrentRefresh w)
          (sdlMinimizedFlag w).

Definition withApp (a : A) (w : World) : World :=
  mkWorld (window w) a (trace w) (rendererInitialized w)
          (s_mainWindow w) (m_input w) (sdlWindowSize w) (sdlCurrentRefresh w)
          (sdlMinimizedFlag w).

Definition withRenderer (initialized : bool) (w : World) : World :=
  mkWorld (window w) (app w) (trace w) initialized
          (s_mainWindow w) (m_input w) (sdlWindowSize w) (sdlCurrentRefresh w)
          (sdlMinimizedFlag w).

(** The fan-out loop shared by the mutators: every registered listener is
    called, in registration order. *)
Definition notifyAll (what : Notification) (w : World) : World :=
  observe (map (fun l => Notify (lid l) what) (m_listeners (window w))) w.

(** ** window/Window.cpp *)


(** The loop of [Window::onClose] from a given listener on. *)
Fixpoint closeLoop (listeners : list Listener) (a : A) : bool * A * list Obs :=
  match listeners with
  | [] => (true, a, [])
  | listener :: rest =>
      let '(shouldClose, a1) := onCloseWindow listener a in
      if negb shouldClose then (false, a1, [Notify (lid listener) CloseWindow])
      else
        let '(result, a2, obs) := closeLoop rest a1 in
        (result, a2, Notify (lid listener) CloseWindow :: obs)
  end.

Definition onClose (w : World) : bool * World :=
  let '(result, a, obs) := closeLoop (m_listeners (window w)) (app w) in
  (result, observe obs (withApp a w)).

Definition onCreate (w : World) : World := notifyAll CreateWindow w.

Definition onDestroy (w : World) : World := notifyAll DestroyWindow w.

Definition onMove (x y : Z) (w : World) : World :=
  notifyAll MoveWindow
    (withWindow (fun win =>
       mkWindow (mkVec2i x y) (m_mode win) (m_minimized win) (m_maximized win)
                (m_visible win) (m_fullscreen win) (m_focused win)
                (m_listeners win)) w).

Definition onResize (size : Vec2i) (w : World) : World :=
  notifyAll ResizeWindow
    (withWindow (fun win =>
       mkWindow (m_position win) (mkDisplayMode size (refresh (m_mode win)))
                (m_minimized win) (m_maximized win)
                (m_visible win) (m_fullscreen win) (m_focused win)
                (m_listeners win)) w).

Definition setMinMax (minimized maximized : bool) (win : Window) : Window :=
  mkWindow (m_position win) (m_mode win) minimized maximized
           (m_visible win) (m_fullscreen win) (m_focused win) (m_listeners win).

Definition onMinimize (w : World) : World :=
  notifyAll MinimizeWindow (withWindow (setMinMax true false) w).

Definition onMaximize (w : World) : World :=
  notifyAll MaximizeWindow (withWindow (setMinMax false true) w).

Definition onRestore (w : World) : World :=
  notifyAll RestoreWindow (withWindow (setMinMax false false) w).

Definition onShow (isVisible : bool) (w : World) : World :=
  withWindow (fun win =>
    mkWindow (m_position win) (m_mode win) (m_minimized win) (m_maximized win)
             isVisible (m_fullscreen win) (m_focused win) (m_listeners win)) w.

Definition onToggleFullscreen (fullscreen : bool) (w : World) : World :=
  notifyAll ToggleFullscreen
    (withWindow (fun win =>
       mkWindow (m_position win) (m_mode win) (m_minimized win) (m_maximized win)
                (m_visible win) fullscreen (m_focused win) (m_listeners win)) w).

Definition onFocus (hasFocus : bool) (w : World) : World :=
  notifyAll (if hasFocus then WindowGotFocus else WindowLostFocus)
    (withWindow (fun win =>
       mkWindow (m_position win) (m_mode win) (m_minimized win) (m_maximized win)
                (m_visible win) (m_fullscreen win) hasFocus (m_listeners win)) w).

Definition onPaint (w : World) : World := notifyAll PaintWindow w.

Definition onDroppedFile (path : string) (w : World) : World :=
  notifyAll (DroppedFile path) w.

(** The three mutators of the minimized and maximized flags. *)
Inductive Mutator : Type := Minimize | Maximize | Restore.

Definition mutate (m : Mutator) (w : World) : World :=
  match m with
  | Minimize => onMinimize w
  | Maximize => onMaximize w
  | Restore => onRestore w
  end.

Definition mutateAll (ms : list Mutator) (w : World) : World :=
  fold_left (fun acc m => mutate m acc) ms w.

(** ** graphics/opengl/OpenGLRenderer.cpp: the resize hooks *)

Variable platform : Platform.

(** Modelled from the spec: [Renderer::isInitialized], [onRendererInit] and
    [onRendererShutdown] (graphics/Renderer.cpp is not among the sources):
    "Uninitialized -> Initialized" at the end of [reinit], "Initialized ->
    Uninitialized" in [shutdown]. *)
Definition reinit (w : World) : World := withRenderer true w.

Definition shutdown (w : World) : World := withRenderer false w.

Definition beforeResize (wasOrIsFullscreen : bool) (w : World) : World :=
  let w1 := observe [Render (BeforeResize wasOrIsFullscreen)] w in
  match platform with
  | PlatformNoReinit => w1
  | PlatformWin32 =>
      if negb (rendererInitialized w1) then w1
      else if negb wasOrIsFullscreen then w1
      else shutdown w1
  | PlatformOther =>
      if negb (rendererInitialized w1) then w1 else shutdown w1
  end.

Definition afterResize (w : World) : World :=
  let w1 := observe [Render AfterResize] w in
  if negb (rendererInitialized w1) then reinit w1 else w1.

(** [m_renderer->SetViewport(Rect(m_mode.resolution.x, m_mode.resolution.y))]. *)
Definition setViewport (w : World) : World :=
  observe [Render (SetViewport (vx (resolution (m_mode (window w))))
                               (vy (resolution (m_mode (window w)))))] w.

(** ** src/window/SDL2Window.cpp *)

(** The condition of the SDL 2.0.10 work-around in the SHOWN case, which is
    compiled on neither Windows nor macOS: the runtime is 2.0.10 and the
    window system is X11. *)
Variable sdl_2_0_10_on_X11 : bool.

Definition setMode (mode : DisplayMode) (win : Window) : Window :=
  mkWindow (m_position win) mode (m_minimized win) (m_maximized win)
           (m_visible win) (m_fullscreen win) (m_focused win) (m_listeners win).

(** [SDL2Window::updateSize(force)]. *)
Definition updateSize (force : bool) (w : World) : World :=
  let oldMode := m_mode (window w) in
  let newMode :=
    mkDisplayMode (sdlWindowSize w)
                  (match sdlCurrentRefresh w with Some rate => rate | None => 0 end) in
  let w1 := withWindow (setMode newMode) w in
  let w2 :=
    if force || negb (Vec2i_eqb (resolution newMode) (resolution oldMode))
    then setViewport (afterResize w1)
    else w1 in
  if force || negb (DisplayMode_eqb newMode oldMode)
  then onResize (resolution newMode) w2
  else w2.

(** [SDL2Window::eventFilter]: 1 keeps the event, 0 drops it. *)
Definition eventFilter (event : Event) (w : World) : Z * World :=
  match event with
  | SDL_QUIT =>
      if s_mainWindow w then
        let '(shouldClose, w1) := onClose w in
        (if shouldClose then 1 else 0, w1)
      else (1, w)
  | _ => (1, w)
  end.

(** The contract of [SDL_SetEventFilter]: SDL runs the filter on an event
    before adding it to the queue and drops the event when the filter
    returns 0. *)
Definition postEvent (event : Event) (st : World * list Event) : World * list Event :=
  let '(w, queue) := st in
  let '(keep, w1) := eventFilter event w in
  if keep =? 0 then (w1, queue) else (w1, queue ++ [event]).

(** The inner [switch(event.window.event)]. *)
Definition dispatchWindowEvent (event : WindowEventID) (data1 data2 : Z) (w : World)
  : World :=
  match event with
  | SDL_WINDOWEVENT_SHOWN =>
      let w1 := onShow true w in
      if sdl_2_0_10_on_X11 && m_minimized (window w1) && negb (sdlMinimizedFlag w1)
      then onRestore w1
      else w1
  | SDL_WINDOWEVENT_HIDDEN => onShow false w
  | SDL_WINDOWEVENT_EXPOSED => onPaint w
  | SDL_WINDOWEVENT_MINIMIZED => onMinimize w
  | SDL_WINDOWEVENT_MAXIMIZED => onMaximize w
  | SDL_WINDOWEVENT_RESTORED => onRestore w
  | SDL_WINDOWEVENT_FOCUS_GAINED => onFocus true w
  | SDL_WINDOWEVENT_FOCUS_LOST => onFocus false w
  | SDL_WINDOWEVENT_MOVED =>
      let w1 := if negb (m_fullscreen (window w)) then updateSize false w else w in
      onMove data1 data2 w1
  | SDL_WINDOWEVENT_SIZE_CHANGED =>
      let newSize := mkVec2i data1 data2 in
      if negb (Vec2i_eqb newSize (resolution (m_mode (window w))))
         && negb (m_fullscreen (window w))
      then updateSize false (beforeResize false w)
      else w
  | SDL_WINDOWEVENT_CLOSE => w
  | SDL_WINDOWEVENT_other => w
  end.

(** [if(m_input) m_input->onEvent(event)]. *)
Definition forwardToInput (event : Event) (w : World) : World :=
  if m_input w then observe [InputOnEvent event] w else w.

(** The [while(ret)] loop of [processEvents] over the events that
    [SDL_WaitEvent] and [SDL_PollEvent] hand out, oldest first.  The result
    is the world, the events left in the queue, and whether the function
    returned from inside the loop. *)
Fixpoint eventLoop (events : list Event) (w : World) : World * list Event * bool :=
  match events with
  | [] => (w, [], false)
  | event :: rest =>
      match event with
      | SDL_WINDOWEVENT id data1 data2 =>
          eventLoop rest (forwardToInput event (dispatchWindowEvent id data1 data2 w))
      | SDL_QUIT => (onDestroy w, rest, true)
      | SDL_DROPFILE file => (onDroppedFile file w, rest, true)
      | SDL_other _ => eventLoop rest (forwardToInput event w)
      end
  end.

(** [SDL2Window::processEvents].  [waitForEvent] only decides whether the
    first fetch blocks, so it does not appear. *)
Definition processEvents (events : list Event) (w : World) : World * list Event :=
  let '(w1, remaining, returned) := eventLoop events w in
  if returned then (w1, remaining)
  else if negb (rendererInitialized w1)
  then (setViewport (afterResize (updateSize false w1)), remaining)
  else (w1, remaining).

(** A close request from the operating system: SDL posts [SDL_QUIT], the
    filter decides, and the next [processEvents] drains the queue. *)
Definition requestClose (w : World) : World * list Event :=
  let '(w1, queue) := postEvent SDL_QUIT (w, []) in
  processEvents queue w1.

(** ** Reading the trace *)

Definition isCloseOrDestroy (o : Obs) : bool :=
  match o with
  | Notify _ CloseWindow | Notify _ DestroyWindow => true
  | _ => false
  end.

Definition isResize (o : Obs) : bool :=
  match o with
  | Notify _ ResizeWindow => true
  | _ => false
  end.

(** The notifications of one kind sent to the given listeners, in order. *)
Definition notified (what : Notification) (listeners : list Listener) : list Obs :=
  map (fun l => Notify (lid l) what) listeners.

(** What stays fixed while events are dispatched to a fullscreen window:
    the cached mode, the fullscreen flag, the state of the renderer and the
    resize notifications sent so far. *)
Definition unchanged (w w' : World) : Prop :=
  m_mode (window w') = m_mode (window w)
  /\ m_fullscreen (window w') = m_fullscreen (window w)
  /\ rendererInitialized w' = rendererInitialized w
  /\ filter isResize (trace w') = filter isResize (trace w).

(** Every listener of the list, consulted in order from state [a], lets the
    window close; [a'] is the state they leave. *)
Inductive AllAccept : list Listener -> A -> A -> Prop :=
| AllAccept_nil : forall a, AllAccept [] a a
| AllAccept_cons : forall listener rest a a1 a',
    onCloseWindow listener a = (true, a1) ->
    AllAccept rest a1 a' ->
    AllAccept (listener :: rest) a a'.

(** ** More of Window.cpp: listener removal *)



Definition isInput (o : Obs) : bool :=
  match o with
  | InputOnEvent _ => true
  | _ => false
  end.

(** The events that end [processEvents] from inside its loop. *)
Definition endsLoop (event : Event) : bool :=
  match event with
  | SDL_QUIT | SDL_DROPFILE _ => true
  | _ => false
  end.

(** Nothing was handed to the input backend between two worlds, and the
    backend stayed attached. *)
Definition sameInput (w w' : World) : Prop :=
  m_input w' = m_input w
  /\ filter isInput (trace w') = filter isInput (trace w).

(** What SDL reports about the window was the same in both worlds. *)
Definition sameSDL (w w' : World) : Prop :=
  sdlWindowSize w' = sdlWindowSize w
  /\ sdlCurrentRefresh w' = sdlCurrentRefresh w.

(** ** More of SDL2Window.cpp: vsync, gamma and mode changes *)

(** A gamma value is a [float] that is only stored and handed to SDL; a
    gamma ramp is the three tables SDL reads and writes. *)
Variable Gamma : Type.
Variable Ramp : Type.

(** The ramp that [SDL_SetWindowBrightness] installs for a gamma value. *)
Variable brightnessRamp : Gamma -> Ramp.

(** The members of [SDL2Window] beyond those of [Window], and the gamma ramp
    of the display as SDL holds it. *)
Record Native : Type := mkNative {
  m_window : bool;            (* the native window exists *)
  m_vsync : Z;
  m_gamma : Gamma;
  m_gammaOverridden : bool;
  m_gammaRamp : Ramp;         (* m_gammaRed, m_gammaGreen, m_gammaBlue *)
  sdlRamp : Ramp
}.

(** [SDL2Window::setVSync].  [swapIntervalFails] tells for which intervals
    [SDL_GL_SetSwapInterval] returns non-zero.  The recursive call is made
    with 1 and cannot recurse again. *)
Definition setVSync (swapIntervalFails : Z -> bool) (vsync : Z) (n : Native)
  : bool * Native :=
  let store := fun v =>
    (true, mkNative (m_window n) v (m_gamma n) (m_gammaOverridden n)
                    (m_gammaRamp n) (sdlRamp n)) in
  if m_window n && swapIntervalFails vsync then
    if negb (vsync =? 0) && negb (vsync =? 1) then
      if m_window n && swapIntervalFails 1 then (false, n) else store 1
    else (false, n)
  else store vsync.

(** [SDL2Window::restoreGamma]; the result of [SDL_SetWindowGammaRamp] is
    not looked at. *)
Definition restoreGamma (setRampFails : bool) (n : Native) : Native :=
  if m_gammaOverridden n then
    mkNative (m_window n) (m_vsync n) (m_gamma n) false (m_gammaRamp n)
             (if setRampFails then sdlRamp n else m_gammaRamp n)
  else n.

(** [SDL2Window::setGamma]; [fullscreen] is [m_fullscreen].  A failed
    [SDL_GetWindowGammaRamp] is taken to leave the saved tables alone. *)
Definition setGamma (getRampFails setBrightnessFails : bool) (fullscreen : bool)
    (gamma : Gamma) (n : Native) : bool * Native :=
  if m_window n && fullscreen then
    let n1 :=
      if negb (m_gammaOverridden n) then
        if getRampFails then n
        else mkNative (m_window n) (m_vsync n) (m_gamma n) true (sdlRamp n) (sdlRamp n)
      else n in
    if setBrightnessFails then (false, n1)
    else (true, mkNative (m_window n1) (m_vsync n1) gamma (m_gammaOverridden n1)
                         (m_gammaRamp n1) (brightnessRamp gamma))
  else (true, mkNative (m_window n) (m_vsync n) gamma (m_gammaOverridden n)
                       (m_gammaRamp n) (sdlRamp n)).

(** One [setGamma] call of a sequence: the value asked for and whether
    [SDL_SetWindowBrightness] fails. *)
Fixpoint setGammas (fullscreen : bool) (calls : list (Gamma * bool)) (n : Native)
  : Native :=
  match calls with
  | [] => n
  | (gamma, setBrightnessFails) :: rest =>
      setGammas fullscreen rest (snd (setGamma false setBrightnessFails fullscreen gamma n))
  end.

(** The flags [getSDLFlagsForMode] computes. *)
Inductive FullscreenFlags : Type :=
| NoFullscreenFlag
| SDL_WINDOW_FULLSCREEN
| SDL_WINDOW_FULLSCREEN_DESKTOP.

Definition getSDLFlagsForMode (size : Vec2i) (fullscreen : bool) : FullscreenFlags :=
  if fullscreen then
    if Vec2i_eqb size (mkVec2i 0 0) then SDL_WINDOW_FULLSCREEN_DESKTOP
    else SDL_WINDOW_FULLSCREEN
  else NoFullscreenFlag.

(** What SDL answers during one [changeMode]: which calls fail, what size
    and refresh rate it reports from then on, and the events that the final
    [processEvents] finds. *)
Record SwitchAnswers : Type := mkSwitchAnswers {
  closestModeFound : bool;     (* SDL_GetClosestDisplayMode is not NULL *)
  desktopModeFails : bool;     (* SDL_GetDesktopDisplayMode is not 0 *)
  setDisplayModeFails : bool;  (* SDL_SetWindowDisplayMode < 0 *)
  setFullscreenFails : bool;   (* SDL_SetWindowFullscreen(flags) < 0 *)
  getRampFails : bool;
  setBrightnessFails : bool;
  setRampFails : bool;
  sizeAfter : Vec2i;
  refreshAfter : option Z;
  pending : list Event
}.

Definition sdlReports (size : Vec2i) (rate : option Z) (w : World) : World :=
  mkWorld (window w) (app w) (trace w) (rendererInitialized w)
          (s_mainWindow w) (m_input w) size rate (sdlMinimizedFlag w).

Definition cacheMode (mode : DisplayMode) (fullscreen : bool) (win : Window) : Window :=
  mkWindow (m_position win) mode (m_minimized win) (m_maximized win)
           (m_visible win) fullscreen (m_focused win) (m_listeners win).

(** [SDL2Window::changeMode].  The result is the window, its native members
    and the events left in the queue. *)
Definition changeMode (sdl : SwitchAnswers) (mode : DisplayMode) (fullscreen : bool)
    (st : World * Native) : (World * Native) * list Event :=
  let '(w, n) := st in
  if negb (m_window n) then
    ((withWindow (cacheMode mode fullscreen) w, n), pending sdl)
  else if Bool.eqb (m_fullscreen (window w)) fullscreen
          && DisplayMode_eqb (m_mode (window w)) mode then
    ((w, n), pending sdl)
  else
    let wasFullscreen := m_fullscreen (window w) in
    let w1 := beforeResize false (sdlReports (sizeAfter sdl) (refreshAfter sdl) w) in
    if fullscreen
       && negb (Vec2i_eqb (resolution mode) (mkVec2i 0 0))
       && ((negb (closestModeFound sdl) && desktopModeFails sdl)
           || setDisplayModeFails sdl)
    then ((w1, n), pending sdl)
    else if setFullscreenFails sdl then ((w1, n), pending sdl)
    else
      let n1 :=
        if negb fullscreen && wasFullscreen
        then restoreGamma (setRampFails sdl) n
        else n in
      let w2 :=
        if negb (Bool.eqb wasFullscreen fullscreen)
        then onToggleFullscreen fullscreen w1
        else w1 in
      let '(w3, n2) :=
        if fullscreen then
          (updateSize false w2,
           snd (setGamma (getRampFails sdl) (setBrightnessFails sdl)
                  (m_fullscreen (window w2)) (m_gamma n1) n1))
        else (w2, n1) in
      let '(w4, remaining) := processEvents (pending sdl) w3 in
      ((w4, n2), remaining).

Definition setFullscreenMode (sdl : SwitchAnswers) (mode : DisplayMode)
    (st : World * Native) : (World * Native) * list Event :=
  changeMode sdl mode true st.

(** [changeMode(size, false)]: the size becomes a display mode without a
    refresh rate. *)
Definition setWindowSize (sdl : SwitchAnswers) (size : Vec2i)
    (st : World * Native) : (World * Native) * list Event :=
  changeMode sdl (mkDisplayMode size 0) false st.

End Windows.

Unset Implicit Arguments.

(** ** SDL2Window::createWindowAndGLContext: the quality ladder *)

(** What one pass of the loop finds at a given MSAA level. *)
Record ContextAttempt : Type := mkContextAttempt {
  windowCreated : bool;   (* SDL_CreateWindow is not NULL *)
  contextCreated : bool;  (* SDL_GL_CreateContext is not NULL *)
  msaaEnabled : bool;     (* SDL_GL_MULTISAMPLEBUFFERS as read back *)
  msaaValue : Z;          (* SDL_GL_MULTISAMPLESAMPLES as read back *)
  texunits : Z            (* GL_MAX_TEXTURE_UNITS, 0 when it cannot be read *)
}.

Inductive ContextError : Type :=
| CouldNotCreateWindow
| CouldNotCreateContext
| NotEnoughTextureUnits (have need : Z).

(** The result: the sample count returned (0 for failure), whether
    [m_window] and [m_glcontext] are left set, and the errors logged. *)
Record ContextResult : Type := mkContextResult {
  samples : Z;
  windowLeft : bool;
  contextLeft : bool;
  errors : list ContextError
}.

(** The [for(int msaa = m_maxMSAALevel; true; msaa--)] loop (compiled
    without [__vita__]) from level [msaa] on; [fuel] bounds the number of
    passes. *)
Fixpoint tryFrom (fuel : nat) (sdl : Z -> ContextAttempt) (m_minTextureUnits : Z)
    (msaa : Z) : option ContextResult :=
  match fuel with
  | O => None
  | S fuel' =>
      let lastTry := msaa =? 0 in
      let a := sdl msaa in
      let continue := tryFrom fuel' sdl m_minTextureUnits (msaa - 1) in
      if negb (windowCreated a) then
        if lastTry then Some (mkContextResult 0 false false [CouldNotCreateWindow])
        else continue
      else if negb (contextCreated a) then
        if lastTry then Some (mkContextResult 0 true false [CouldNotCreateContext])
        else continue
      else if (1 <? msaa) && (negb (msaaEnabled a) || (msaaValue a <? msaa)) then
        continue
      else if texunits a <? m_minTextureUnits then
        if lastTry
        then Some (mkContextResult 0 true true
                     [NotEnoughTextureUnits (texunits a) m_minTextureUnits])
        else continue
      else Some (mkContextResult (Z.max msaa 1) true true [])
  end.

(** A level at which every check of the loop passes. *)
Definition levelPasses (sdl : Z -> ContextAttempt) (m_minTextureUnits : Z) (msaa : Z)
  : bool :=
  windowCreated (sdl msaa) && contextCreated (sdl msaa)
  && negb ((1 <? msaa) && (negb (msaaEnabled (sdl msaa)) || (msaaValue (sdl msaa) <? msaa)))
  && negb (texunits (sdl msaa) <? m_minTextureUnits).


(** ** SDL2Window: the settings a user can pin with an SDL hint *)

Inductive MinimizeSetting : Type :=
| Enabled
| Disabled
| AlwaysEnabled
| AlwaysDisabled.

Definition pinned (setting : MinimizeSetting) : bool :=
  match setting with
  | AlwaysEnabled | AlwaysDisabled => true
  | _ => false
  end.

(** [getInitialSDLSetting]; [hint] is what [SDL_GetHint] returns, [None]
    for a null pointer.  [*setting] of an empty string is the terminator,
    which is not ['0']. *)
Definition getInitialSDLSetting (hint : option string) (def : MinimizeSetting)
  : MinimizeSetting :=
  match hint with
  | None => def
  | Some setting =>
      match String.get 0 setting with
      | Some "0"%char => AlwaysDisabled
      | _ => AlwaysEnabled
      end
  end.

Inductive HintCall : Type :=
| SDL_SetHint_VIDEO_MINIMIZE_ON_FOCUS_LOSS (value : string)
| SDL_EnableScreenSaver
| SDL_DisableScreenSaver.

(** [setMinimizeOnFocusLost] on [m_minimizeOnFocusLost]. *)
Definition setMinimizeOnFocusLost (enabled : bool) (m_minimizeOnFocusLost : MinimizeSetting)
  : MinimizeSetting * list HintCall :=
  match m_minimizeOnFocusLost with
  | AlwaysDisabled | AlwaysEnabled => (m_minimizeOnFocusLost, [])
  | _ =>
      (if enabled then Enabled else Disabled,
       [SDL_SetHint_VIDEO_MINIMIZE_ON_FOCUS_LOSS (if enabled then "1" else "0")])
  end.

Definition MinimizeSetting_eqb (a b : MinimizeSetting) : bool :=
  match a, b with
  | Enabled, Enabled | Disabled, Disabled
  | AlwaysEnabled, AlwaysEnabled | AlwaysDisabled, AlwaysDisabled => true
  | _, _ => false
  end.

(** [allowScreensaver] on [m_allowScreensaver]. *)
Definition allowScreensaver (allowed : bool) (m_allowScreensaver : MinimizeSetting)
  : MinimizeSetting * list HintCall :=
  match m_allowScreensaver with
  | AlwaysDisabled | AlwaysEnabled => (m_allowScreensaver, [])
  | _ =>
      let setting := if allowed then Enabled else Disabled in
      if negb (MinimizeSetting_eqb m_allowScreensaver setting) then
        (setting, [if allowed then SDL_EnableScreenSaver else SDL_DisableScreenSaver])
      else (m_allowScreensaver, [])
  end.

(** The two members, and the requests a game makes over time. *)
Record Hints : Type := mkHints {
  m_minimizeOnFocusLost : MinimizeSetting;
  m_allowScreensaver : MinimizeSetting
}.

Inductive HintRequest : Type :=
| RequestMinimizeOnFocusLost (enabled : bool)
| RequestScreensaver (allowed : bool).

Definition request (q : HintRequest) (st : Hints * list HintCall) : Hints * list HintCall :=
  let '(h, calls) := st in
  match q with
  | RequestMinimizeOnFocusLost enabled =>
      let '(m, c) := setMinimizeOnFocusLost enabled (m_minimizeOnFocusLost h) in
      (mkHints m (m_allowScreensaver h), calls ++ c)
  | RequestScreensaver allowed =>
      let '(m, c) := allowScreensaver allowed (m_allowScreensaver h) in
      (mkHints (m_minimizeOnFocusLost h) m, calls ++ c)
  end.

Definition requests (qs : list HintRequest) (st : Hints * list HintCall)
  : Hints * list HintCall :=
  fold_left (fun acc q => request q acc) qs st.

(** The two assignments of [initializeFramework] (lines 164-165). *)
Definition initialHints (minimizeHint screensaverHint : option string) : Hints :=
  mkHints (getInitialSDLSetting minimizeHint Enabled)
          (getInitialSDLSetting screensaverHint Disabled).

(** Whether the screensaver may run, as the two SDL calls leave it. *)
Definition screensaverAfter (calls : list HintCall) (before : bool) : bool :=
  fold_left (fun acc call =>
               match call with
               | SDL_EnableScreenSaver => true
               | SDL_DisableScreenSaver => false
               | _ => acc
               end) calls before.

Definition isScreensaverCall (call : HintCall) : bool :=
  match call with
  | SDL_EnableScreenSaver | SDL_DisableScreenSaver => true
  | _ => false
  end.

(** The values asked for by the requests of one kind, in order. *)
Definition screensaverRequests (qs : list HintRequest) : list bool :=
  flat_map (fun q => match q with RequestScreensaver allowed => [allowed] | _ => [] end) qs.

Definition minimizeRequests (qs : list HintRequest) : list bool :=
  flat_map (fun q => match q with RequestMinimizeOnFocusLost enabled => [enabled] | _ => [] end) qs.

(** ** SDL2Window::initialize: the choice of the API (lines 432-510) *)

(** [gldebug::mode()]: the two values the function compares with, and the
    others. *)
Inductive DebugMode : Type :=
| gldebug_Enabled
| gldebug_NoError
| gldebug_other.

Inductive GLattr : Type :=
| SDL_GL_CONTEXT_FLAGS
| SDL_GL_CONTEXT_PROFILE_MASK
| SDL_GL_CONTEXT_MAJOR_VERSION
| SDL_GL_CONTEXT_MINOR_VERSION
| SDL_GL_CONTEXT_NO_ERROR.

Inductive AttrValue : Type :=
| Int (value : Z)
| SDL_GL_CONTEXT_DEBUG_FLAG
| SDL_GL_CONTEXT_PROFILE_COMPATIBILITY
| SDL_GL_CONTEXT_PROFILE_ES.

Inductive InitObs : Type :=
| SDL_GL_SetAttribute (attr : GLattr) (value : AttrValue)
| CreateWindowAndGLContext (profile : string)
| UnknownRenderer (name : string).

(** [samples], the number of [createWindowAndGLContext] calls made, and
    what happened so far. *)
Record Selection : Type := mkSelection {
  sel_samples : Z;
  sel_calls : nat;
  sel_log : list InitObs
}.

Section Initialize.

(** [config.video.renderer], [gldebug::mode()], whether the SDL headers are
    2.0.6 or later, whether libepoxy is used, and what the successive calls
    of [createWindowAndGLContext] return. *)
Variable renderer : string.
Variable debugMode : DebugMode.
Variable SDL_VERSION_ATLEAST_2_0_6 : bool.
Variable ARX_HAVE_EPOXY : bool.
Variable answers : nat -> Z.

Definition isEnabled : bool :=
  match debugMode with gldebug_Enabled => true | _ => false end.

Definition isNoError : bool :=
  match debugMode with gldebug_NoError => true | _ => false end.

Definition setAttributes (obs : list InitObs) (s : Selection) : Selection :=
  mkSelection (sel_samples s) (sel_calls s) (sel_log s ++ obs).

Definition create (profile : string) (s : Selection) : Selection :=
  mkSelection (answers (sel_calls s)) (S (sel_calls s))
              (sel_log s ++ [CreateWindowAndGLContext profile]).

Definition contextFlags (type : Z) : InitObs :=
  SDL_GL_SetAttribute SDL_GL_CONTEXT_FLAGS
    (if isEnabled && (type =? 0) then SDL_GL_CONTEXT_DEBUG_FLAG else Int 0).

(** The body of the inner loop for desktop OpenGL. *)
Definition desktopBody (type : Z) (s : Selection) : Selection :=
  let s1 := setAttributes [contextFlags type] s in
  let s2 :=
    if SDL_VERSION_ATLEAST_2_0_6 && isNoError then
      create "Desktop OpenGL"
        (setAttributes
           [SDL_GL_SetAttribute SDL_GL_CONTEXT_PROFILE_MASK
              SDL_GL_CONTEXT_PROFILE_COMPATIBILITY;
            SDL_GL_SetAttribute SDL_GL_CONTEXT_MAJOR_VERSION (Int 2);
            SDL_GL_SetAttribute SDL_GL_CONTEXT_MINOR_VERSION (Int 0);
            SDL_GL_SetAttribute SDL_GL_CONTEXT_NO_ERROR (Int 1)] s1)
    else s1 in
  if sel_samples s2 =? 0 then
    create "Desktop OpenGL"
      (setAttributes
         ([SDL_GL_SetAttribute SDL_GL_CONTEXT_PROFILE_MASK (Int 0);
           SDL_GL_SetAttribute SDL_GL_CONTEXT_MAJOR_VERSION (Int 1);
           SDL_GL_SetAttribute SDL_GL_CONTEXT_MINOR_VERSION (Int 5)]
          ++ (if SDL_VERSION_ATLEAST_2_0_6
              then [SDL_GL_SetAttribute SDL_GL_CONTEXT_NO_ERROR (Int 0)]
              else [])) s2)
  else s2.

(** The body of the inner loop for OpenGL ES. *)
Definition esBody (type : Z) (s : Selection) : Selection :=
  create "OpenGL ES"
    (setAttributes
       [contextFlags type;
        SDL_GL_SetAttribute SDL_GL_CONTEXT_PROFILE_MASK SDL_GL_CONTEXT_PROFILE_ES;
        SDL_GL_SetAttribute SDL_GL_CONTEXT_MAJOR_VERSION (Int 1);
        SDL_GL_SetAttribute SDL_GL_CONTEXT_MINOR_VERSION (Int 0)] s).

(** [for(int type = 0; type < (Enabled ? 2 : 1) && samples == 0; type++)]. *)
Definition typeLoop (body : Z -> Selection -> Selection) (s : Selection) : Selection :=
  let s1 := if sel_samples s =? 0 then body 0 s else s in
  if isEnabled && (sel_samples s1 =? 0) then body 1 s1 else s1.

(** One pass of the outer loop. *)
Definition apiPass (first : bool) (s : Selection) : Selection :=
  let autoRenderer := String.eqb renderer "auto" in
  let '(s1, matched1) :=
    if (sel_samples s =? 0)
       && Bool.eqb first (autoRenderer || String.eqb renderer "OpenGL")
    then (typeLoop desktopBody s, true)
    else (s, false) in
  let '(s2, matched2) :=
    if ARX_HAVE_EPOXY
       && (sel_samples s1 =? 0)
       && Bool.eqb first (autoRenderer || String.eqb renderer "OpenGL ES")
    then (typeLoop esBody s1, true)
    else (s1, matched1) in
  if first && negb matched2
  then setAttributes [UnknownRenderer renderer] s2
  else s2.

(** [for(int api = 0; api < 2 && samples == 0; api++)], from
    [samples = 0]. *)
Definition selectAPI : Selection :=
  let s0 := mkSelection 0 0 [] in
  let s1 := if sel_samples s0 =? 0 then apiPass true s0 else s0 in
  if sel_samples s1 =? 0 then apiPass false s1 else s1.

(** ** Reading the result *)

(** How often an API is tried when every try fails. *)
Definition desktopTries : nat :=
  if isEnabled then 2 else if SDL_VERSION_ATLEAST_2_0_6 && isNoError then 2 else 1.

Definition esTries : nat :=
  if ARX_HAVE_EPOXY then (if isEnabled then 2 else 1) else 0.

(** The profiles in the order in which they are tried when every try
    fails. *)
Definition plan : list string :=
  let autoRenderer := String.eqb renderer "auto" in
  let desktop := repeat "Desktop OpenGL" desktopTries in
  let es := repeat "OpenGL ES" esTries in
  if autoRenderer || String.eqb renderer "OpenGL" then desktop ++ es
  else if ARX_HAVE_EPOXY && String.eqb renderer "OpenGL ES" then es ++ desktop
  else desktop ++ es.

(** Going through a plan until a call returns samples. *)
Fixpoint tryPlan (k : nat) (profiles : list string) : Z * list string :=
  match profiles with
  | [] => (0, [])
  | profile :: rest =>
      if answers k =? 0 then
        let '(samples, tried) := tryPlan (S k) rest in
        (samples, profile :: tried)
      else (answers k, [profile])
  end.

Definition profilesTried (log : list InitObs) : list string :=
  flat_map (fun o =>
              match o with
              | CreateWindowAndGLContext profile => [profile]
              | _ => []
              end) log.

Definition unknownRendererLogged (log : list InitObs) : bool :=
  existsb (fun o => match o with UnknownRenderer _ => true | _ => false end) log.

(** What is kept of a selection when reading it: the samples, the number of
    calls and the profiles tried. *)
Definition summary (s : Selection) : Z * nat * list string :=
  (sel_samples s, sel_calls s, profilesTried (sel_log s)).

(** Going on with further profiles while there are no samples. *)
Definition tryMore (profiles : list string) (sigma : Z * nat * list string)
  : Z * nat * list string :=
  let '(samples, calls, tried) := sigma in
  if samples =? 0 then
    let '(samples1, tried1) := tryPlan calls profiles in
    (samples1, (calls + List.length tried1)%nat, tried ++ tried1)
  else sigma.

End Initialize.

End Win.

(* ===================================================================== *)
(** * ArxGame::doFrame: the frame-rate limiter *)
(* ===================================================================== *)

Module FramePacing.

(** What the limiter reads: [config.video.fpsLimit], [config.video.vsync],
    [benchmark::isEnabled()] and the refresh rate of the window's display
    mode.  Durations and instants are whole microseconds. *)
Record Settings : Type := mkSettings {
  fpsLimit : Z;
  vsync : Z;
  benchmarkEnabled : bool;
  displayRefresh : Z
}.

(** [m_frameStart] and [m_frameDelta]; both start at 0. *)
Record Timer : Type := mkTimer { m_frameStart : Z; m_frameDelta : Z }.

Definition Timer_new : Timer := mkTimer 0 0.

(** Modelled from the spec: [arx::clamp] (its header is not among the
    sources): the value "clamped to [-target, +target]", that is brought
    into the closed interval between the two bounds. *)
Definition clamp (v lo hi : Z) : Z :=
  if v <? lo then lo else if hi <? v then hi else v.

Definition targetFps (s : Settings) : Z :=
  if fpsLimit s <=? 0 then
    let fromRefresh := if displayRefresh s <=? 0 then 60 else displayRefresh s in
    if negb (vsync s =? 0) then fromRefresh + 1 else fromRefresh
  else fpsLimit s.

(** [std::chrono::microseconds(1s) / targetFps]: integer division. *)
Definition targetDuration (s : Settings) : Z := Z.quot 1000000 (targetFps s).

Definition limiterEnabled (s : Settings) : bool :=
  negb (fpsLimit s =? 0) && negb (benchmarkEnabled s).

(** The first block of [doFrame], run at instant [now]: the timer after it
    and the argument of [Thread::sleep] when it is called. *)
Definition limitFrameRate (s : Settings) (now : Z) (t : Timer) : Timer * option Z :=
  if limiterEnabled s then
    let lastDuration := now - m_frameStart t in
    let target := targetDuration s in
    let min := - target in
    let delta := clamp (m_frameDelta t + target - lastDuration) min target in
    (mkTimer now delta, if 0 <? delta then Some delta else None)
  else (t, None).

(** The time slept in a frame; no call, no sleep. *)
Definition slept (sleep : option Z) : Z :=
  match sleep with Some d => d | None => 0 end.

(** A frame that starts [duration] after the previous one. *)
Definition frameAfter (s : Settings) (duration : Z) (t : Timer) : Timer * option Z :=
  limitFrameRate s (m_frameStart t + duration) t.

(** Successive frames with the given actual durations: for each frame the
    delta after the update and the sleep issued. *)
Fixpoint runFrames (s : Settings) (durations : list Z) (t : Timer)
  : list (Z * option Z) :=
  match durations with
  | [] => []
  | duration :: rest =>
      let '(t1, sleep) := frameAfter s duration t in
      (m_frameDelta t1, sleep) :: runFrames s rest t1
  end.

(** [Thread::sleep] as compiled with [nanosleep] (src/unnamed/part_001,
    lines 404-411): the [timespec] built from a duration in microseconds.
    [/] and [%] truncate towards zero. *)
Definition Thread_sleep_timespec (us : Z) : Z * Z :=
  (Z.quot us 1000000, Z.rem us 1000000 * 1000).

(** The main loop around the limiter: the limiter sleeps and the rest of the
    frame works, so the duration a frame measures is the sleep issued in the
    previous frame plus the work done after it (the sleep taken as exact). *)
Definition frameWithWork (s : Settings) (work : Z) (previousSleep : option Z)
    (t : Timer) : Timer * option Z :=
  frameAfter s (work + slept previousSleep) t.

(** Successive passes of the loop: [works] gives, for each pass, the work
    done between the previous call of the limiter and this one. *)
Fixpoint runWork (s : Settings) (works : list Z) (previousSleep : option Z)
    (t : Timer) : list (Z * option Z) :=
  match works with
  | [] => []
  | work :: rest =>
      let '(t1, sleep) := frameWithWork s work previousSleep t in
      (m_frameDelta t1, sleep) :: runWork s rest sleep t1
  end.

End FramePacing.

(* ===================================================================== *)
(** * Properties of the capability queries and of override parsing *)
(* ===================================================================== *)

Section OpenGLInfoFacts.

Import Str OpenGLInfo.

Lemma substring_all (s : string) : String.substring 0 (String.length s) s = s.
Proof.
  induction s as [|c s IH]; simpl; [reflexivity|].
  now rewrite IH.
Qed.

Lemma substr_1_cons (c : ascii) (s : string) : substr 1 (String c s) = s.
Proof.
  unfold substr. simpl. rewrite Nat.sub_0_r. apply substring_all.
Qed.

Lemma scanOverrides_app (l1 l2 : list string) (ext : string) :
  scanOverrides (l1 ++ l2) ext =
  match scanOverrides l1 ext with
  | Some verdict => Some verdict
  | None => scanOverrides l2 ext
  end.
Proof.
  induction l1 as [|o l1 IH]; simpl; [reflexivity|].
  destruct (String.eqb (substr 1 o) ext); [|exact IH].
  destruct (front o); reflexivity.
Qed.

Lemma scanOverrides_none (l : list string) (ext : string) :
  Forall (fun o => substr 1 o <> ext) l -> scanOverrides l ext = None.
Proof.
  induction 1 as [|o l Ho _ IH]; simpl; [reflexivity|].
  destruct (String.eqb_spec (substr 1 o) ext) as [E|_]; [contradiction|exact IH].
Qed.

(** The scan finds the most recently registered entry for the extension. *)
Lemma scanOverrides_latest (pre post : list string) (sign : ascii) (ext : string) :
  Forall (fun o => substr 1 o <> ext) post ->
  scanOverrides (rev (pre ++ String sign ext :: post)) ext = Some (Ascii.eqb sign "+").
Proof.
  intros Hpost.
  rewrite rev_app_distr. simpl rev. rewrite <- app_assoc.
  rewrite scanOverrides_app, (scanOverrides_none (rev post)).
  - simpl. rewrite substr_1_cons, String.eqb_refl. reflexivity.
  - apply Forall_rev, Hpost.
Qed.

Lemma parseTokens_app (toInt : string -> option Z) (l1 l2 : list string)
    (st : t * bool) :
  parseTokens toInt (l1 ++ l2) st =
  let '(st1, log1) := parseTokens toInt l1 st in
  let '(st2, log2) := parseTokens toInt l2 st1 in
  (st2, log1 ++ log2).
Proof.
  revert st. induction l1 as [|tok l1 IH]; intros st; simpl.
  - destruct (parseTokens toInt l2 st). reflexivity.
  - destruct (parseToken toInt tok st) as [st1 log1].
    rewrite IH.
    destruct (parseTokens toInt l1 st1) as [st2 log2].
    destruct (parseTokens toInt l2 st2) as [st3 log3].
    now rewrite app_assoc.
Qed.

Lemma parseToken_m_version (toInt : string -> option Z) (tok : string)
    (st : t * bool) :
  m_version (fst (fst (parseToken toInt tok st))) = m_version (fst st).
Proof.
  destruct st as [gl first]. unfold parseToken.
  destruct (isExtensionToken tok); [reflexivity|].
  destruct (parseVersionToken toInt (m_version gl) tok); reflexivity.
Qed.

Lemma parseTokens_m_version (toInt : string -> option Z) (l : list string)
    (st : t * bool) :
  m_version (fst (fst (parseTokens toInt l st))) = m_version (fst st).
Proof.
  revert st. induction l as [|tok l IH]; intros st; simpl; [reflexivity|].
  pose proof (parseToken_m_version toInt tok st) as H1.
  destruct (parseToken toInt tok st) as [st1 log1].
  pose proof (IH st1) as H2.
  destruct (parseTokens toInt l st1) as [st2 log2].
  simpl in *. congruence.
Qed.

(** A malformed token: not an extension token, and the version branch
    throws. *)
Lemma parseToken_malformed (toInt : string -> option Z) (bad : string)
    (st : t * bool) :
  isExtensionToken bad = false ->
  parseVersionToken toInt (m_version (fst st)) bad = None ->
  parseToken toInt bad st = (st, [WarnInvalid bad]).
Proof.
  destruct st as [gl first]. simpl. intros Hext Hver.
  unfold parseToken. now rewrite Hext, Hver.
Qed.

End OpenGLInfoFacts.

(** C1, counterexample: an entry "+ext" does not make [has] true when
    the native version is below the requested one and the native extension
    query fails.  Here the native version is 2.1, version 4.0 is asked for,
    the driver reports no extension, and "+GL_ARB_sample_shading" is the only
    override. *)
Lemma C1_plus_override_does_not_beat_detection :
  OpenGLInfo.has
    (OpenGLInfo.mk 21 Str.s32_max ["+GL_ARB_sample_shading"])
    (fun _ => false) "GL_ARB_sample_shading" 40 = false.
Proof. reflexivity. Qed.

(** C1, amended: when the most recently registered override entry for
    [ext] is "-ext", [has ext v] is false whatever the native version and the
    native extension query say; when it is "+ext", [has ext v] is true exactly
    when the native version reaches [v] or the native query reports the
    extension, whatever the version override is. *)
Theorem C1_latest_override_decides_after_detection :
  forall (gl : OpenGLInfo.t) (supported : string -> bool) (ext : string) (v : Z)
         (pre post : list string) (sign : ascii),
    OpenGLInfo.m_extensionOverrides gl = pre ++ String sign ext :: post ->
    Forall (fun o => Str.substr 1 o <> ext) post ->
    OpenGLInfo.has gl supported ext v =
      (if Ascii.eqb sign "+"
       then (v <=? OpenGLInfo.m_version gl) || supported ext
       else false).
Proof.
  intros gl supported ext v pre post sign Hlist Hpost.
  unfold OpenGLInfo.has, OpenGLInfo.has_run.
  rewrite Hlist, scanOverrides_latest by exact Hpost.
  destruct (Z.ltb_spec (OpenGLInfo.m_version gl) v) as [Hlt|Hge];
    destruct (Z.leb_spec v (OpenGLInfo.m_version gl)) as [Hle|Hgt]; try lia;
    destruct (supported ext); destruct (Ascii.eqb sign "+"); reflexivity.
Qed.

Lemma C1_latest_override_decides_after_detection_witness :
  OpenGLInfo.has
    (OpenGLInfo.mk 21 Str.s32_max
       ["+GL_ARB_sample_shading"; "-GL_ARB_sample_shading"; "+GL_ARB_map_buffer_range"])
    (fun _ => true) "GL_ARB_sample_shading" 40 = false.
Proof.
  apply (C1_latest_override_decides_after_detection
           (OpenGLInfo.mk 21 Str.s32_max
              ["+GL_ARB_sample_shading"; "-GL_ARB_sample_shading";
               "+GL_ARB_map_buffer_range"])
           (fun _ => true) "GL_ARB_sample_shading" 40
           ["+GL_ARB_sample_shading"] ["+GL_ARB_map_buffer_range"] "-"%char).
  - reflexivity.
  - repeat constructor. vm_compute. discriminate.
Defined.

(** C3: in [parseOverrideConfig] an extension token ("+GL_..." or "-GL_...")
    only appends to the override list and leaves the version override alone,
    while every accepted version token (a version number, "+*" or "+", "-*"
    or "-") sets the version override and empties the whole list, whatever
    it held before the parse started.  Parsing "+GL_FOO -GL_BAR 4.2" leaves
    version override 42 and no extension override; parsing
    "+GL_FOO 4.2 -GL_BAR" leaves version override 42 and only "-GL_BAR". *)
Theorem C3_version_token_clears_extension_overrides :
  forall (toInt : string -> option Z) (gl : OpenGLInfo.t) (first : bool)
         (token : string),
    (OpenGLInfo.isExtensionToken token = true ->
       OpenGLInfo.parseToken toInt token (gl, first) =
         ((OpenGLInfo.mk (OpenGLInfo.m_version gl) (OpenGLInfo.m_versionOverride gl)
                         (OpenGLInfo.m_extensionOverrides gl ++ [token]), false), []))
    /\ (forall v : Z,
          OpenGLInfo.isExtensionToken token = false ->
          OpenGLInfo.parseVersionToken toInt (OpenGLInfo.m_version gl) token = Some v ->
          fst (OpenGLInfo.parseToken toInt token (gl, first)) =
            (OpenGLInfo.mk (OpenGLInfo.m_version gl) v [], false))
    /\ (token = "+*" \/ token = "+" ->
          fst (OpenGLInfo.parseToken toInt token (gl, first)) =
            (OpenGLInfo.mk (OpenGLInfo.m_version gl) Str.s32_max [], false))
    /\ (token = "-*" \/ token = "-" ->
          fst (OpenGLInfo.parseToken toInt token (gl, first)) =
            (OpenGLInfo.mk (OpenGLInfo.m_version gl) (OpenGLInfo.m_version gl) [], false))
    /\ fst (OpenGLInfo.parseOverrideConfig Str.toInt_dec gl "+GL_FOO -GL_BAR 4.2") =
         OpenGLInfo.mk (OpenGLInfo.m_version gl) 42 []
    /\ fst (OpenGLInfo.parseOverrideConfig Str.toInt_dec gl "+GL_FOO 4.2 -GL_BAR") =
         OpenGLInfo.mk (OpenGLInfo.m_version gl) 42 ["-GL_BAR"].
Proof.
  intros toInt gl first token.
  split; [|split; [|split; [|split; [|split]]]].
  - intros Hext. unfold OpenGLInfo.parseToken. now rewrite Hext.
  - intros v Hext Hver. unfold OpenGLInfo.parseToken. now rewrite Hext, Hver.
  - intros [-> | ->]; reflexivity.
  - intros [-> | ->]; reflexivity.
  - reflexivity.
  - reflexivity.
Qed.

Lemma C3_version_token_clears_extension_overrides_witness :
  fst (OpenGLInfo.parseToken Str.toInt_dec "GL3.1"
         (OpenGLInfo.mk 21 Str.s32_max ["-GL_ARB_texture_non_power_of_two"; "+GL_FOO"],
          false)) =
    (OpenGLInfo.mk 21 31 [], false)
  /\ OpenGLInfo.parseToken Str.toInt_dec "-GL_BAR"
       (OpenGLInfo.mk 21 31 ["+GL_FOO"], true) =
     ((OpenGLInfo.mk 21 31 ["+GL_FOO"; "-GL_BAR"], false), []).
Proof.
  split.
  - apply (proj1 (proj2 (C3_version_token_clears_extension_overrides
             Str.toInt_dec
             (OpenGLInfo.mk 21 Str.s32_max ["-GL_ARB_texture_non_power_of_two"; "+GL_FOO"])
             false "GL3.1")) 31); reflexivity.
  - apply (proj1 (C3_version_token_clears_extension_overrides
             Str.toInt_dec (OpenGLInfo.mk 21 31 ["+GL_FOO"]) true "-GL_BAR")).
    reflexivity.
Defined.

(** C9: wherever a malformed token stands in the override string, parsing
    logs it as invalid and leaves the version override, the override list
    and the loop's [first] flag as they were; the tokens after it are parsed
    from that unchanged state, so the result is the one of the string without
    the token, with one more log line. *)
Theorem C9_malformed_token_is_logged_and_skipped :
  forall (toInt : string -> option Z) (gl : OpenGLInfo.t) (s : string)
         (pre post : list string) (bad : string),
    Str.splitIgnoreEmpty s OpenGLInfo.separators = pre ++ bad :: post ->
    OpenGLInfo.isExtensionToken bad = false ->
    OpenGLInfo.parseVersionToken toInt (OpenGLInfo.m_version gl) bad = None ->
    let '(st1, log1) := OpenGLInfo.parseTokens toInt pre (gl, true) in
    let '(st2, log2) := OpenGLInfo.parseTokens toInt post st1 in
    OpenGLInfo.parseToken toInt bad st1 = (st1, [OpenGLInfo.WarnInvalid bad])
    /\ OpenGLInfo.parseOverrideConfig toInt gl s =
         (fst st2, log1 ++ OpenGLInfo.WarnInvalid bad :: log2)
    /\ OpenGLInfo.parseTokens toInt (pre ++ post) (gl, true) = (st2, log1 ++ log2).
Proof.
  intros toInt gl s pre post bad Hsplit Hext Hver.
  pose proof (parseTokens_m_version toInt pre (gl, true)) as Hv.
  pose proof (parseTokens_app toInt pre (bad :: post) (gl, true)) as Hfull.
  pose proof (parseTokens_app toInt pre post (gl, true)) as Hcut.
  unfold OpenGLInfo.parseOverrideConfig. rewrite Hsplit, Hfull.
  destruct (OpenGLInfo.parseTokens toInt pre (gl, true)) as [st1 log1].
  simpl in Hv. rewrite <- Hv in Hver.
  pose proof (parseToken_malformed toInt bad st1 Hext Hver) as Hbad.
  simpl OpenGLInfo.parseTokens. rewrite Hbad.
  simpl in Hcut. rewrite Hcut.
  destruct (OpenGLInfo.parseTokens toInt post st1) as [[gl2 first2] log2].
  repeat split.
Qed.

Lemma C9_malformed_token_is_logged_and_skipped_witness :
  OpenGLInfo.parseOverrideConfig Str.toInt_dec
    (OpenGLInfo.mk 21 Str.s32_max []) "+GL_FOO,4.11;GL3.1 -GL_BAR" =
    (OpenGLInfo.mk 21 31 ["-GL_BAR"],
     [OpenGLInfo.WarnInvalid "4.11"; OpenGLInfo.WarnIgnoringBefore "GL3.1"]).
Proof.
  apply (C9_malformed_token_is_logged_and_skipped Str.toInt_dec
           (OpenGLInfo.mk 21 Str.s32_max []) "+GL_FOO,4.11;GL3.1 -GL_BAR"
           ["+GL_FOO"] ["GL3.1"; "-GL_BAR"] "4.11");
    reflexivity.
Defined.

(* ===================================================================== *)
(** * Properties of [flushState] *)
(* ===================================================================== *)

Section RendererFacts.

Import Renderer.

Variable aa : AlphaCutoutAntialising.
Variables defSS defA2C : bool.

Lemma BlendingFactor_eqb_refl (f : BlendingFactor) : BlendingFactor_eqb f f = true.
Proof. destruct f; reflexivity. Qed.

Lemma GLenum_eqb_eq (a b : GLenum) : GLenum_eqb a b = true -> a = b.
Proof. destruct a, b; simpl; intros H; try reflexivity; discriminate H. Qed.

Lemma RenderState_eqb_refl (st : RenderState) : RenderState_eqb st st = true.
Proof.
  unfold RenderState_eqb.
  rewrite !Bool.eqb_reflx, !BlendingFactor_eqb_refl, Z.eqb_refl. reflexivity.
Qed.

Lemma changed_not_equal (gl st : RenderState) :
  blendOrCutoutChanged gl st = true -> RenderState_eqb gl st = false.
Proof.
  unfold blendOrCutoutChanged, RenderState_eqb.
  destruct (BlendingFactor_eqb (getBlendSrc gl) (getBlendSrc st));
    destruct (BlendingFactor_eqb (getBlendDst gl) (getBlendDst st));
    destruct (Bool.eqb (getAlphaCutout gl) (getAlphaCutout st));
    simpl; intros H; try discriminate H;
    rewrite ?andb_false_r; reflexivity.
Qed.

Lemma selectAlphaTest_cutout (ss a2c : bool) (st : RenderState) :
  getAlphaCutout st = true ->
  selectAlphaTest ss a2c st =
    (codeTestMode ss a2c (getBlendSrc st) (getBlendDst st),
     match getBlendSrc st, getBlendDst st with
     | BlendOne, BlendOne => BlendSrcAlpha
     | src, _ => src
     end).
Proof.
  intros Hcut. unfold selectAlphaTest. rewrite Hcut.
  destruct (getBlendSrc st), (getBlendDst st); reflexivity.
Qed.

(** What [flushBlend] leaves in the cache, in terms of the selected mode. *)
Lemma flushBlend_cache (r : t) :
  let '(mode, blendSrc) := selectAlphaTest (useSS aa r) (useA2C aa r) (m_state r) in
  let r1 := fst (flushBlend aa defSS defA2C r) in
  m_state r1 = m_state r
  /\ m_glstate r1 = m_glstate r
  /\ maxTextureStage r1 = maxTextureStage r
  /\ m_hasMSAA r1 = m_hasMSAA r
  /\ m_hasSampleShading r1 = m_hasSampleShading r
  /\ m_glsampleShading r1 = TestMode_eqb mode TestSS
  /\ m_glalphaToCoverage r1 = TestMode_eqb mode TestA2C
  /\ m_glalphaFunc r1 = alphaRefOf mode
  /\ m_glblendSrc r1 = arxToGlBlendFactor blendSrc
  /\ m_glblendDst r1 = arxToGlBlendFactor (getBlendDst (m_state r)).
Proof.
  unfold flushBlend.
  destruct (selectAlphaTest (useSS aa r) (useA2C aa r) (m_state r)) as [mode blendSrc].
  destruct (GLenum_eqb (m_glblendSrc r) (arxToGlBlendFactor blendSrc)) eqn:Es;
    destruct (GLenum_eqb (m_glblendDst r)
                (arxToGlBlendFactor (getBlendDst (m_state r)))) eqn:Ed;
    try apply GLenum_eqb_eq in Es; try apply GLenum_eqb_eq in Ed;
    destruct mode, (m_glsampleShading r), (m_glalphaToCoverage r), (m_glalphaFunc r);
    simpl; repeat split; auto.
Qed.

Lemma flushDiff_converges (r : t) :
  let r1 := fst (flushDiff aa defSS defA2C r) in
  m_state r1 = m_state r /\ m_glstate r1 = m_state r
  /\ maxTextureStage r1 = maxTextureStage r.
Proof.
  unfold flushDiff.
  pose proof (flushBlend_cache r) as Hb.
  destruct (selectAlphaTest (useSS aa r) (useA2C aa r) (m_state r)) as [mode bs].
  destruct (blendOrCutoutChanged (m_glstate r) (m_state r)).
  - destruct (flushBlend aa defSS defA2C r) as [r1 cb]. simpl in *.
    destruct Hb as (Hs & _ & Hm & _). now rewrite Hs, Hm.
  - simpl. auto.
Qed.

Lemma stateCalls_textureStages (r : t) : stateCalls (applyTextureStages r) = [].
Proof.
  unfold applyTextureStages, stateCalls.
  induction (seq 0 (S (maxTextureStage r))) as [|i l IH]; simpl; auto.
Qed.

Lemma flushState_equal (r : t) :
  m_glstate r = m_state r ->
  flushState aa defSS defA2C r = (r, applyTextureStages r).
Proof.
  intros H. unfold flushState. rewrite H, RenderState_eqb_refl. reflexivity.
Qed.

End RendererFacts.

(** C2, counterexample: with MSAA active and fuzzy alpha cutout
    antialiasing configured (so alpha-to-coverage is the mode the stated rule
    picks when sample shading is unavailable), a cutout drawn with the blend
    pair (Zero, InvSrcColor), which involves no source alpha, gets the strict
    alpha-threshold discard: alpha-to-coverage is neither selected nor
    enabled. *)
Lemma C2_blended_cutout_gets_strict_discard_not_alpha_to_coverage :
  Renderer.useSS Renderer.FuzzyAlphaCutoutAA (Renderer.afterReinit false) = false
  /\ Renderer.useA2C Renderer.FuzzyAlphaCutoutAA (Renderer.afterReinit false) = true
  /\ Renderer.cutoutBlendAssertion Renderer.BlendZero Renderer.BlendInvSrcColor = true
  /\ Renderer.incorporatesSrcAlpha Renderer.BlendZero Renderer.BlendInvSrcColor = false
  /\ Renderer.specTestMode false true Renderer.BlendZero Renderer.BlendInvSrcColor
     = Renderer.TestA2C
  /\ fst (Renderer.selectAlphaTest false true
            (Renderer.mkRenderState false false false true 0
               Renderer.BlendZero Renderer.BlendInvSrcColor true))
     = Renderer.TestStrict
  /\ snd (Renderer.flushState Renderer.FuzzyAlphaCutoutAA true true
            (Renderer.setDesired
               (Renderer.mkRenderState false false false true 0
                  Renderer.BlendZero Renderer.BlendInvSrcColor true)
               (Renderer.afterReinit false)))
     = [Renderer.glAlphaFunc Renderer.GL_GREATER Renderer.RefHalf;
        Renderer.glBlendFunc Renderer.GL_ZERO Renderer.GL_ONE_MINUS_SRC_COLOR;
        Renderer.TextureStage_apply 0].
Proof. repeat split. Qed.

(** C2, amended: in [flushState], when the desired state has alpha cutout
    enabled and a blend factor or the cutout flag changed, the test mode is:
    for the pair (One, Zero), sample shading if it is available with MSAA
    active and crisp antialiasing configured, else alpha-to-coverage if MSAA
    is active and fuzzy antialiasing is configured, else strict discard; for
    (One, One), conservative (and the source factor becomes SrcAlpha); for a
    pair with source SrcAlpha or destination InvSrcAlpha, conservative; for
    every other pair, sample shading under the same condition, else strict
    discard.  Alpha-to-coverage is selected for (One, Zero) only.  The cached
    toggles after the flush are those of the selected mode. *)
Theorem C2_alpha_test_mode_selection :
  forall (aa : Renderer.AlphaCutoutAntialising) (defSS defA2C : bool)
         (r : Renderer.t),
    Renderer.getAlphaCutout (Renderer.m_state r) = true ->
    Renderer.blendOrCutoutChanged (Renderer.m_glstate r) (Renderer.m_state r) = true ->
    let src := Renderer.getBlendSrc (Renderer.m_state r) in
    let dst := Renderer.getBlendDst (Renderer.m_state r) in
    let mode := Renderer.codeTestMode (Renderer.useSS aa r) (Renderer.useA2C aa r) src dst in
    let r1 := fst (Renderer.flushState aa defSS defA2C r) in
    fst (Renderer.selectAlphaTest (Renderer.useSS aa r) (Renderer.useA2C aa r)
           (Renderer.m_state r)) = mode
    /\ Renderer.m_glsampleShading r1 = Renderer.TestMode_eqb mode Renderer.TestSS
    /\ Renderer.m_glalphaToCoverage r1 = Renderer.TestMode_eqb mode Renderer.TestA2C
    /\ Renderer.m_glalphaFunc r1 = Renderer.alphaRefOf mode
    /\ Renderer.m_glblendSrc r1 =
         Renderer.arxToGlBlendFactor
           (match src, dst with
            | Renderer.BlendOne, Renderer.BlendOne => Renderer.BlendSrcAlpha
            | _, _ => src
            end)
    /\ Renderer.m_glblendDst r1 = Renderer.arxToGlBlendFactor dst
    /\ (mode = Renderer.TestA2C ->
        src = Renderer.BlendOne /\ dst = Renderer.BlendZero).
Proof.
  intros aa defSS defA2C r Hcut Hchg src dst mode r1.
  pose proof (selectAlphaTest_cutout (Renderer.useSS aa r) (Renderer.useA2C aa r)
                (Renderer.m_state r) Hcut) as Hsel.
  pose proof (flushBlend_cache aa defSS defA2C r) as Hb.
  rewrite Hsel in Hb. fold src dst mode in Hb.
  assert (Hr1 : r1 =
    let rb := fst (Renderer.flushBlend aa defSS defA2C r) in
    Renderer.mk (Renderer.m_state rb) (Renderer.m_state rb)
      (Renderer.m_glsampleShading rb) (Renderer.m_glalphaToCoverage rb)
      (Renderer.m_glalphaFunc rb) (Renderer.m_glblendSrc rb) (Renderer.m_glblendDst rb)
      (Renderer.m_hasMSAA rb) (Renderer.m_hasSampleShading rb)
      (Renderer.maxTextureStage rb)).
  { unfold r1, Renderer.flushState, Renderer.flushDiff.
    rewrite (changed_not_equal _ _ Hchg), Hchg. simpl.
    destruct (Renderer.flushBlend aa defSS defA2C r) as [rb cb]. reflexivity. }
  rewrite Hr1. simpl.
  destruct Hb as (_ & _ & _ & _ & _ & Hss & Ha2c & Haf & Hbs & Hbd).
  rewrite Hsel. simpl.
  repeat split; try assumption.
  - rewrite Hbs. destruct src, dst; reflexivity.
  - unfold mode in H. destruct src, dst; try reflexivity;
      simpl in H; destruct (Renderer.useSS aa r); try discriminate H;
      destruct (Renderer.useA2C aa r); discriminate H.
  - unfold mode in H. destruct src, dst; try reflexivity;
      simpl in H; destruct (Renderer.useSS aa r); try discriminate H;
      destruct (Renderer.useA2C aa r); discriminate H.
Qed.

Lemma C2_alpha_test_mode_selection_witness :
  Renderer.m_glalphaToCoverage
    (fst (Renderer.flushState Renderer.FuzzyAlphaCutoutAA true true
            (Renderer.setDesired
               (Renderer.mkRenderState false false false true 0
                  Renderer.BlendOne Renderer.BlendZero true)
               (Renderer.afterReinit false)))) = true.
Proof.
  apply (C2_alpha_test_mode_selection Renderer.FuzzyAlphaCutoutAA true true
           (Renderer.setDesired
              (Renderer.mkRenderState false false false true 0
                 Renderer.BlendOne Renderer.BlendZero true)
              (Renderer.afterReinit false)));
    reflexivity.
Defined.

(** C4: after any [flushState] the applied state equals the desired state,
    which the flush does not touch; a second [flushState] right after it
    changes nothing and issues only the per-stage texture applications, none
    of the calls derived from the state diff; and a flush that finds applied
    equal to desired issues none of them either. *)
Theorem C4_flushState_idempotent :
  forall (aa : Renderer.AlphaCutoutAntialising) (defSS defA2C : bool)
         (r : Renderer.t),
    let r1 := fst (Renderer.flushState aa defSS defA2C r) in
    Renderer.m_state r1 = Renderer.m_state r
    /\ Renderer.m_glstate r1 = Renderer.m_state r
    /\ Renderer.flushState aa defSS defA2C r1 = (r1, Renderer.applyTextureStages r1)
    /\ Renderer.stateCalls (snd (Renderer.flushState aa defSS defA2C r1)) = []
    /\ (Renderer.m_glstate r = Renderer.m_state r ->
        r1 = r
        /\ Renderer.stateCalls (snd (Renderer.flushState aa defSS defA2C r)) = []).
Proof.
  intros aa defSS defA2C r r1.
  assert (Hconv : Renderer.m_state r1 = Renderer.m_state r
                  /\ Renderer.m_glstate r1 = Renderer.m_state r).
  { unfold r1, Renderer.flushState.
    destruct (Renderer.RenderState_eqb (Renderer.m_glstate r) (Renderer.m_state r)) eqn:E.
    - simpl. split; [reflexivity|].
      clear r1. destruct r as [st gl ? ? ? ? ? ? ? ?]. simpl in *.
      unfold Renderer.RenderState_eqb in E.
      destruct st, gl; simpl in *.
      repeat (apply andb_prop in E; destruct E as [E ?]).
      repeat match goal with
             | H : Bool.eqb _ _ = true |- _ => apply Bool.eqb_prop in H
             | H : (_ =? _) = true |- _ => apply Z.eqb_eq in H
             end.
      subst.
      repeat match goal with
             | H : Renderer.BlendingFactor_eqb ?a ?b = true |- _ =>
                 destruct a, b; try discriminate H; clear H
             end; reflexivity.
    - simpl. pose proof (flushDiff_converges aa defSS defA2C r) as Hd.
      destruct (Renderer.flushDiff aa defSS defA2C r) as [rd cd]. simpl in *.
      tauto. }
  destruct Hconv as [Hs Hg].
  assert (Hsecond : Renderer.flushState aa defSS defA2C r1
                    = (r1, Renderer.applyTextureStages r1)).
  { apply flushState_equal. congruence. }
  repeat split; try assumption.
  - rewrite Hsecond. apply stateCalls_textureStages.
  - unfold r1. now rewrite flushState_equal.
  - rewrite flushState_equal by assumption. apply stateCalls_textureStages.
Qed.

Lemma C4_flushState_idempotent_witness :
  Renderer.stateCalls
    (snd (Renderer.flushState Renderer.CrispAlphaCutoutAA true true
            (Renderer.afterReinit true))) = [].
Proof.
  apply (C4_flushState_idempotent Renderer.CrispAlphaCutoutAA true true
           (Renderer.afterReinit true)).
  reflexivity.
Defined.

(* ===================================================================== *)
(** * Properties of the display mode order and of the mode list *)
(* ===================================================================== *)

Section DisplayModeFacts.

Import Win.

Lemma DisplayMode_lt_iff (a b : DisplayMode) :
  DisplayMode_lt a b = true <-> lexLess a b.
Proof.
  unfold DisplayMode_lt, lexLess.
  destruct (Z.eqb_spec (vx (resolution a)) (vx (resolution b)));
    destruct (Z.eqb_spec (vy (resolution a)) (vy (resolution b)));
    simpl; rewrite Z.ltb_lt; lia.
Qed.

Lemma DisplayMode_lt_false_iff (a b : DisplayMode) :
  DisplayMode_lt a b = false <-> ~ lexLess a b.
Proof.
  rewrite <- DisplayMode_lt_iff. destruct (DisplayMode_lt a b); split; intros H;
    try reflexivity; try discriminate; try (intros E; discriminate E).
  exfalso. now apply H.
Qed.

Lemma DisplayMode_eqb_eq (a b : DisplayMode) : DisplayMode_eqb a b = true <-> a = b.
Proof.
  destruct a as [[ax ay] ar], b as [[bx by_] br].
  unfold DisplayMode_eqb, Vec2i_eqb. simpl.
  rewrite !andb_true_iff, !Z.eqb_eq. split.
  - intros [[-> ->] ->]. reflexivity.
  - intros [= -> -> ->]. auto.
Qed.

Lemma DisplayMode_lt_irrefl (a : DisplayMode) : DisplayMode_lt a a = false.
Proof. apply DisplayMode_lt_false_iff. unfold lexLess. lia. Qed.

Lemma DisplayMode_lt_trans (a b c : DisplayMode) :
  DisplayMode_lt a b = true -> DisplayMode_lt b c = true -> DisplayMode_lt a c = true.
Proof. rewrite !DisplayMode_lt_iff. unfold lexLess. lia. Qed.

Lemma DisplayMode_lt_total (a b : DisplayMode) :
  a <> b -> DisplayMode_lt a b = true \/ DisplayMode_lt b a = true.
Proof.
  intros Hne. rewrite !DisplayMode_lt_iff. unfold lexLess.
  destruct a as [[ax ay] ar], b as [[bx by_] br]. simpl.
  assert (ax <> bx \/ ay <> by_ \/ ar <> br) as H.
  { destruct (Z.eq_dec ax bx) as [->|]; [|lia].
    destruct (Z.eq_dec ay by_) as [->|]; [|lia].
    destruct (Z.eq_dec ar br) as [->|]; [|lia].
    now elim Hne. }
  lia.
Qed.

Lemma notGreater_trans (a b c : DisplayMode) :
  notGreater a b -> notGreater b c -> notGreater a c.
Proof.
  unfold notGreater. rewrite !DisplayMode_lt_false_iff. unfold lexLess. lia.
Qed.

Lemma notGreater_neq_lt (a b : DisplayMode) :
  notGreater a b -> DisplayMode_eqb a b = false -> DisplayMode_lt a b = true.
Proof.
  unfold notGreater. intros Hle Hne.
  destruct (DisplayMode_lt_total a b) as [H|H]; [|exact H|congruence].
  intros ->. rewrite (proj2 (DisplayMode_eqb_eq b b) eq_refl) in Hne. discriminate.
Qed.

Lemma lt_notGreater (a b : DisplayMode) :
  DisplayMode_lt a b = true -> notGreater a b.
Proof.
  unfold notGreater. rewrite DisplayMode_lt_iff, DisplayMode_lt_false_iff.
  unfold lexLess. lia.
Qed.

Lemma sortedModes_strong (l : list DisplayMode) :
  sortedModes l -> StronglySorted notGreater l.
Proof.
  apply Sorted_StronglySorted. intros a b c. apply notGreater_trans.
Qed.

Lemma insertMode_perm (m : DisplayMode) (l : list DisplayMode) :
  Permutation (m :: l) (insertMode m l).
Proof.
  induction l as [|h rest IH]; simpl; [reflexivity|].
  destruct (DisplayMode_lt m h); [reflexivity|].
  rewrite perm_swap. now apply perm_skip.
Qed.

Lemma insertMode_sorted (m : DisplayMode) (l : list DisplayMode) :
  sortedModes l -> sortedModes (insertMode m l).
Proof.
  unfold sortedModes. induction l as [|h rest IH]; simpl; intros Hs.
  - repeat constructor.
  - destruct (DisplayMode_lt m h) eqn:E.
    + constructor; [exact Hs|]. constructor. now apply lt_notGreater.
    + inversion Hs as [|? ? Hrest Hhd]; subst.
      constructor; [now apply IH|].
      destruct rest as [|h2 rest2]; simpl.
      * constructor. exact E.
      * destruct (DisplayMode_lt m h2); constructor; [exact E|].
        now inversion Hhd.
Qed.

Lemma std_sort_perm (l : list DisplayMode) : Permutation l (std_sort l).
Proof.
  induction l as [|m l IH]; simpl; [reflexivity|].
  rewrite <- insertMode_perm. now apply perm_skip.
Qed.

Lemma std_sort_sorted (l : list DisplayMode) : sortedModes (std_sort l).
Proof.
  induction l as [|m l IH]; simpl; [constructor|].
  now apply insertMode_sorted.
Qed.

Lemma uniqueFrom_spec (l : list DisplayMode) :
  forall kept,
    StronglySorted notGreater (kept :: l) ->
    Forall (fun m => DisplayMode_lt kept m = true) (uniqueFrom kept l)
    /\ strictlyIncreasing (uniqueFrom kept l)
    /\ (forall m, In m (uniqueFrom kept l) -> In m l)
    /\ (forall m, In m l -> m = kept \/ In m (uniqueFrom kept l)).
Proof.
  unfold strictlyIncreasing.
  induction l as [|h rest IH]; intros kept Hs; simpl.
  - split; [constructor|]. split; [constructor|]. split; intros m [].
  - inversion Hs as [|? ? Htail Hall]; subst.
    inversion Hall as [|? ? Hkh Hkrest]; subst.
    inversion Htail as [|? ? Hrest Hhrest]; subst.
    destruct (DisplayMode_eqb kept h) eqn:E.
    + apply DisplayMode_eqb_eq in E. subst h.
      destruct (IH kept) as (H1 & H2 & H3 & H4); [constructor; assumption|].
      repeat split; auto.
      intros m [<-|Hin]; auto.
    + destruct (IH h Htail) as (H1 & H2 & H3 & H4).
      pose proof (notGreater_neq_lt kept h Hkh E) as Hlt.
      repeat split.
      * constructor; [exact Hlt|].
        eapply Forall_impl; [|exact H1].
        intros m Hm. simpl in Hm. eapply DisplayMode_lt_trans; eassumption.
      * constructor; assumption.
      * intros m [<-|Hin]; [now left|right; now apply H3].
      * intros m [<-|Hin]; [right; now left|].
        destruct (H4 m Hin) as [->|Hin']; right; [now left|now right].
Qed.

Lemma strictlyIncreasing_NoDup (l : list DisplayMode) :
  strictlyIncreasing l -> NoDup l.
Proof.
  unfold strictlyIncreasing. induction 1 as [|a l Hs IH Hall]; constructor; auto.
  intros Hin. rewrite Forall_forall in Hall.
  pose proof (Hall a Hin) as H. rewrite DisplayMode_lt_irrefl in H. discriminate.
Qed.

Lemma std_unique_spec (l : list DisplayMode) :
  sortedModes l ->
  strictlyIncreasing (std_unique l)
  /\ NoDup (std_unique l)
  /\ (forall m, In m (std_unique l) <-> In m l).
Proof.
  intros Hs. apply sortedModes_strong in Hs.
  assert (Hinc : strictlyIncreasing (std_unique l)
                 /\ (forall m, In m (std_unique l) <-> In m l)).
  { destruct l as [|k rest]; simpl.
    - split; [constructor|tauto].
    - destruct (uniqueFrom_spec rest k Hs) as (H1 & H2 & H3 & H4).
      split; [constructor; assumption|].
      intros m; split.
      + intros [<-|Hin]; [now left|right; now apply H3].
      + intros [<-|Hin]; [now left|].
        destruct (H4 m Hin) as [->|Hin']; [now left|now right]. }
  destruct Hinc as [Hinc Hmem].
  repeat split; try assumption; try apply Hmem.
  now apply strictlyIncreasing_NoDup.
Qed.

End DisplayModeFacts.

(** C7: [DisplayMode::operator<] is irreflexive, transitive and total on
    distinct values; and whatever sorted permutation [std::sort] produces of
    the collected modes, removing adjacent equal elements leaves a strictly
    increasing list without duplicates that holds exactly the collected
    modes, also when several displays reported the same mode. *)
Theorem C7_display_mode_order_and_list :
  (forall a, Win.DisplayMode_lt a a = false)
  /\ (forall a b c,
        Win.DisplayMode_lt a b = true -> Win.DisplayMode_lt b c = true ->
        Win.DisplayMode_lt a c = true)
  /\ (forall a b, a <> b -> Win.DisplayMode_lt a b = true \/ Win.DisplayMode_lt b a = true)
  /\ (forall raw sorted,
        Permutation raw sorted -> Win.sortedModes sorted ->
        Win.strictlyIncreasing (Win.std_unique sorted)
        /\ NoDup (Win.std_unique sorted)
        /\ (forall m, In m (Win.std_unique sorted) <-> In m raw))
  /\ (forall displays,
        Win.strictlyIncreasing (Win.displayModes displays)
        /\ NoDup (Win.displayModes displays)
        /\ (forall m, In m (Win.displayModes displays) <-> In m (Win.collectModes displays))).
Proof.
  assert (Hany : forall raw sorted,
        Permutation raw sorted -> Win.sortedModes sorted ->
        Win.strictlyIncreasing (Win.std_unique sorted)
        /\ NoDup (Win.std_unique sorted)
        /\ (forall m, In m (Win.std_unique sorted) <-> In m raw)).
  { intros raw sorted Hperm Hsorted.
    destruct (std_unique_spec sorted Hsorted) as (H1 & H2 & H3).
    repeat split; try assumption.
    - intros Hin. apply H3 in Hin.
      eapply Permutation_in; [symmetry; exact Hperm|exact Hin].
    - intros Hin. apply H3. eapply Permutation_in; eassumption. }
  split; [exact DisplayMode_lt_irrefl|].
  split; [exact DisplayMode_lt_trans|].
  split; [exact DisplayMode_lt_total|].
  split; [exact Hany|].
  intros displays. unfold Win.displayModes.
  apply Hany; [apply std_sort_perm|apply std_sort_sorted].
Qed.

Lemma C7_display_mode_order_and_list_witness :
  NoDup (Win.std_unique
           [Win.mkDisplayMode (Win.mkVec2i 640 480) 60;
            Win.mkDisplayMode (Win.mkVec2i 960 544) 60;
            Win.mkDisplayMode (Win.mkVec2i 960 544) 60]).
Proof.
  apply (proj1 (proj2 (proj2 (proj2 C7_display_mode_order_and_list)))
           [Win.mkDisplayMode (Win.mkVec2i 960 544) 60;
            Win.mkDisplayMode (Win.mkVec2i 640 480) 60;
            Win.mkDisplayMode (Win.mkVec2i 960 544) 60]).
  - apply perm_swap.
  - repeat constructor.
Defined.

(* ===================================================================== *)
(** * Properties of the window: close veto, resize suppression, flags *)
(* ===================================================================== *)

Section WindowFacts.

Import Win.

Variable A : Type.
Variable platform : Platform.
Variable quirk : bool.

Lemma filter_notified (keep : Obs -> bool) (what : Notification)
    (listeners : list (Listener A)) :
  (forall l, keep (Notify l what) = false) ->
  filter keep (notified what listeners) = [].
Proof.
  intros H. unfold notified.
  induction listeners as [|l ls IH]; simpl; [reflexivity|].
  now rewrite H.
Qed.

Lemma filter_notified_all (keep : Obs -> bool) (what : Notification)
    (listeners : list (Listener A)) :
  (forall l, keep (Notify l what) = true) ->
  filter keep (notified what listeners) = notified what listeners.
Proof.
  intros H. unfold notified.
  induction listeners as [|l ls IH]; simpl; [reflexivity|].
  now rewrite H, IH.
Qed.

Lemma notified_app (what : Notification) (l1 l2 : list (Listener A)) :
  notified what (l1 ++ l2) = notified what l1 ++ notified what l2.
Proof. unfold notified. apply map_app. Qed.

Lemma closeLoop_veto (pre post : list (Listener A)) (l : Listener A) (a a1 a2 : A) :
  AllAccept pre a a1 ->
  onCloseWindow l a1 = (false, a2) ->
  closeLoop (pre ++ l :: post) a = (false, a2, notified CloseWindow (pre ++ [l])).
Proof.
  intros Hpre Hveto. induction Hpre as [a|l0 rest a a0 a' Hl0 _ IH]; simpl.
  - now rewrite Hveto.
  - rewrite Hl0. simpl. now rewrite (IH Hveto).
Qed.

Lemma closeLoop_accept (ls : list (Listener A)) (a a' : A) :
  AllAccept ls a a' ->
  closeLoop ls a = (true, a', notified CloseWindow ls).
Proof.
  induction 1 as [a|l0 rest a a0 a' Hl0 _ IH]; simpl; [reflexivity|].
  rewrite Hl0. simpl. now rewrite IH.
Qed.

(** The observations of [updateSize]: renderer calls, then one resize
    notification per listener when the mode changed. *)
Lemma updateSize_trace (force : bool) (w : World A) :
  exists calls : list RendererCall,
    trace (updateSize force w) =
      trace w ++ map Render calls
              ++ (if force
                     || negb (DisplayMode_eqb
                                (mkDisplayMode (sdlWindowSize w)
                                   match sdlCurrentRefresh w with
                                   | Some rate => rate
                                   | None => 0
                                   end)
                                (m_mode (window w)))
                  then notified ResizeWindow (m_listeners (window w))
                  else []).
Proof.
  unfold updateSize.
  set (newMode := mkDisplayMode _ _).
  destruct (force || negb (Vec2i_eqb (resolution newMode) (resolution (m_mode (window w)))));
    destruct (force || negb (DisplayMode_eqb newMode (m_mode (window w)))).
  - eexists [AfterResize; SetViewport _ _].
    unfold onResize, notifyAll, setViewport, afterResize, observe, withWindow, reinit,
      withRenderer. simpl.
    destruct (negb (rendererInitialized w)); simpl;
      rewrite <- !app_assoc; reflexivity.
  - eexists [AfterResize; SetViewport _ _].
    unfold setViewport, afterResize, observe, withWindow, reinit, withRenderer. simpl.
    destruct (negb (rendererInitialized w)); simpl;
      rewrite <- !app_assoc; reflexivity.
  - exists []. reflexivity.
  - exists []. simpl. now rewrite app_nil_r.
Qed.

Lemma updateSize_app (force : bool) (w : World A) :
  app (updateSize force w) = app w.
Proof.
  unfold updateSize.
  destruct (force || negb (Vec2i_eqb _ _)); destruct (force || negb (DisplayMode_eqb _ _));
    unfold onResize, notifyAll, setViewport, afterResize, observe, withWindow, reinit,
      withRenderer; simpl;
    try destruct (negb (rendererInitialized w)); reflexivity.
Qed.

Lemma updateSize_resolution (force : bool) (w : World A) :
  resolution (m_mode (window (updateSize force w))) = sdlWindowSize w.
Proof.
  unfold updateSize.
  destruct (force || negb (Vec2i_eqb _ _)); destruct (force || negb (DisplayMode_eqb _ _));
    unfold onResize, notifyAll, setViewport, afterResize, observe, withWindow, reinit,
      withRenderer; simpl;
    try destruct (negb (rendererInitialized w)); reflexivity.
Qed.

Lemma filter_render (keep : Obs -> bool) (calls : list RendererCall) :
  (forall c, keep (Render c) = false) ->
  filter keep (map Render calls) = [].
Proof.
  intros H. induction calls as [|c cs IH]; simpl; [reflexivity|]. now rewrite H.
Qed.

(** The block that ends [processEvents] when the renderer is not
    initialized sends neither close nor destroy notifications and leaves the
    listeners' state alone. *)
Lemma tail_block_quiet (w : World A) :
  filter isCloseOrDestroy (trace (setViewport (afterResize (updateSize false w))))
    = filter isCloseOrDestroy (trace w)
  /\ app (setViewport (afterResize (updateSize false w))) = app w.
Proof.
  pose proof (updateSize_app false w) as Happ.
  destruct (updateSize_trace false w) as [calls Htr].
  set (u := updateSize false w) in *.
  split.
  - unfold setViewport, afterResize, observe, reinit, withRenderer. simpl.
    destruct (negb (rendererInitialized u)); simpl;
      rewrite Htr, !filter_app, (filter_render isCloseOrDestroy calls) by reflexivity;
      simpl;
      (destruct (negb (DisplayMode_eqb _ _));
       [rewrite filter_notified by reflexivity|]; simpl; now rewrite !app_nil_r).
  - unfold setViewport, afterResize, observe, reinit, withRenderer. simpl.
    destruct (negb (rendererInitialized u)); simpl; exact Happ.
Qed.

End WindowFacts.

(** C5: on a close request the close handlers are consulted in registration
    order.  When the listeners before some listener all accept and that
    listener vetoes, exactly those listeners and the vetoing one are
    consulted, the handlers of the later listeners are not invoked (neither
    their notification nor their effect on the listeners' state appears), the
    quit event is dropped before it reaches the queue, and the following
    [processEvents] sends no destroy notification: the window persists.  When
    all listeners accept, all are consulted in order, the quit event is
    queued and [processEvents] sends the destroy notification to every
    listener. *)
Theorem C5_close_veto_short_circuits :
  forall (A : Type) (platform : Win.Platform) (quirk : bool) (w : Win.World A),
    Win.s_mainWindow w = true ->
    (forall (pre post : list (Win.Listener A)) (l : Win.Listener A) (a1 a2 : A),
       Win.m_listeners (Win.window w) = pre ++ l :: post ->
       Win.AllAccept pre (Win.app w) a1 ->
       Win.onCloseWindow l a1 = (false, a2) ->
       Win.onClose w =
         (false, Win.observe (Win.notified Win.CloseWindow (pre ++ [l])) (Win.withApp a2 w))
       /\ (forall queue,
             snd (Win.postEvent Win.SDL_QUIT (w, queue)) = queue)
       /\ filter Win.isCloseOrDestroy (Win.trace (fst (Win.requestClose platform quirk w)))
          = filter Win.isCloseOrDestroy (Win.trace w)
              ++ Win.notified Win.CloseWindow (pre ++ [l])
       /\ Win.app (fst (Win.requestClose platform quirk w)) = a2)
    /\ (forall a' : A,
          Win.AllAccept (Win.m_listeners (Win.window w)) (Win.app w) a' ->
          Win.onClose w =
            (true, Win.observe (Win.notified Win.CloseWindow (Win.m_listeners (Win.window w)))
                     (Win.withApp a' w))
          /\ (forall queue,
                snd (Win.postEvent Win.SDL_QUIT (w, queue)) = queue ++ [Win.SDL_QUIT])
          /\ Win.trace (fst (Win.requestClose platform quirk w))
             = Win.trace w
                 ++ Win.notified Win.CloseWindow (Win.m_listeners (Win.window w))
                 ++ Win.notified Win.DestroyWindow (Win.m_listeners (Win.window w))).
Proof.
  intros A platform quirk w Hmain. split.
  - intros pre post l a1 a2 Hlist Hpre Hveto.
    assert (Hclose : Win.onClose w =
      (false, Win.observe (Win.notified Win.CloseWindow (pre ++ [l])) (Win.withApp a2 w))).
    { unfold Win.onClose. rewrite Hlist, (closeLoop_veto A pre post l _ _ _ Hpre Hveto).
      reflexivity. }
    split; [exact Hclose|].
    split.
    { intros queue. unfold Win.postEvent, Win.eventFilter.
      rewrite Hmain, Hclose. reflexivity. }
    unfold Win.requestClose, Win.postEvent, Win.eventFilter.
    rewrite Hmain, Hclose. simpl Z.eqb. cbv iota.
    unfold Win.processEvents. simpl Win.eventLoop. cbv iota beta.
    set (w1 := Win.observe _ (Win.withApp a2 w)).
    assert (Hw1 : filter Win.isCloseOrDestroy (Win.trace w1)
                  = filter Win.isCloseOrDestroy (Win.trace w)
                      ++ Win.notified Win.CloseWindow (pre ++ [l])
                  /\ Win.app w1 = a2).
    { unfold w1. simpl. rewrite filter_app, filter_notified_all by reflexivity.
      split; reflexivity. }
    destruct Hw1 as [Htr Happ].
    destruct (negb (Win.rendererInitialized w1)); simpl fst.
    + destruct (tail_block_quiet A w1) as [Ht Ha]. now rewrite Ht, Ha.
    + split; assumption.
  - intros a' Hall.
    assert (Hclose : Win.onClose w =
      (true, Win.observe (Win.notified Win.CloseWindow (Win.m_listeners (Win.window w)))
               (Win.withApp a' w))).
    { unfold Win.onClose. rewrite (closeLoop_accept A _ _ _ Hall). reflexivity. }
    split; [exact Hclose|].
    split.
    { intros queue. unfold Win.postEvent, Win.eventFilter.
      rewrite Hmain, Hclose. reflexivity. }
    unfold Win.requestClose, Win.postEvent, Win.eventFilter.
    rewrite Hmain, Hclose. simpl. now rewrite <- app_assoc.
Qed.

Lemma C5_close_veto_short_circuits_witness :
  filter Win.isCloseOrDestroy
    (Win.trace
       (fst (Win.requestClose Win.PlatformNoReinit false
               (Win.mkWorld
                  (Win.mkWindow (Win.mkVec2i 0 0)
                     (Win.mkDisplayMode (Win.mkVec2i 960 544) 60)
                     false false true true true
                     [Win.mkListener 1 (fun n : nat => (true, S n));
                      Win.mkListener 2 (fun n : nat => (false, S n));
                      Win.mkListener 3 (fun n : nat => (true, S n))])
                  O [] true true false (Win.mkVec2i 960 544) (Some 60) false))))
  = [Win.Notify 1 Win.CloseWindow; Win.Notify 2 Win.CloseWindow].
Proof.
  apply (proj1 (C5_close_veto_short_circuits nat Win.PlatformNoReinit false
           (Win.mkWorld
              (Win.mkWindow (Win.mkVec2i 0 0)
                 (Win.mkDisplayMode (Win.mkVec2i 960 544) 60)
                 false false true true true
                 [Win.mkListener 1 (fun n : nat => (true, S n));
                  Win.mkListener 2 (fun n : nat => (false, S n));
                  Win.mkListener 3 (fun n : nat => (true, S n))])
              O [] true true false (Win.mkVec2i 960 544) (Some 60) false)
           eq_refl)
           [Win.mkListener 1 (fun n : nat => (true, S n))]
           [Win.mkListener 3 (fun n : nat => (true, S n))]
           (Win.mkListener 2 (fun n : nat => (false, S n)))
           1%nat 2%nat).
  - reflexivity.
  - eapply Win.AllAccept_cons; [reflexivity|]. apply Win.AllAccept_nil.
  - reflexivity.
Defined.

(** The same request in both orders of an accepting and a vetoing listener:
    with the vetoing one first the other is not consulted; nothing is
    destroyed either way. *)
Example close_veto_both_orders :
  Win.trace
    (fst (Win.requestClose Win.PlatformNoReinit false
            (Win.mkWorld
               (Win.mkWindow (Win.mkVec2i 0 0)
                  (Win.mkDisplayMode (Win.mkVec2i 960 544) 60)
                  false false true true true
                  [Win.mkListener 1 (fun n : nat => (false, S n));
                   Win.mkListener 2 (fun n : nat => (true, S n))])
               O [] true true false (Win.mkVec2i 960 544) (Some 60) false)))
  = [Win.Notify 1 Win.CloseWindow]
  /\ Win.trace
    (fst (Win.requestClose Win.PlatformNoReinit false
            (Win.mkWorld
               (Win.mkWindow (Win.mkVec2i 0 0)
                  (Win.mkDisplayMode (Win.mkVec2i 960 544) 60)
                  false false true true true
                  [Win.mkListener 2 (fun n : nat => (true, S n));
                   Win.mkListener 1 (fun n : nat => (false, S n))])
               O [] true true false (Win.mkVec2i 960 544) (Some 60) false)))
  = [Win.Notify 2 Win.CloseWindow; Win.Notify 1 Win.CloseWindow].
Proof. split; reflexivity. Qed.

Section ResizeFacts.

Import Win.

Variable A : Type.
Variable platform : Platform.
Variable quirk : bool.

Lemma notifyAll_unchanged (what : Notification) (f : Window A -> Window A)
    (w : World A) :
  (forall l, isResize (Notify l what) = false) ->
  m_mode (f (window w)) = m_mode (window w) ->
  m_fullscreen (f (window w)) = m_fullscreen (window w) ->
  unchanged w (notifyAll what (withWindow f w)).
Proof.
  intros Hwhat Hmode Hfs.
  unfold unchanged, notifyAll, observe, withWindow. simpl.
  repeat split; try assumption.
  rewrite filter_app.
  change (map (fun l => Notify (lid l) what) (m_listeners (f (window w))))
    with (notified what (m_listeners (f (window w)))).
  rewrite (filter_notified A isResize what _ Hwhat). apply app_nil_r.
Qed.

Lemma notifyAll_only_unchanged (what : Notification) (w : World A) :
  (forall l, isResize (Notify l what) = false) ->
  unchanged w (notifyAll what w).
Proof.
  intros Hwhat.
  apply (notifyAll_unchanged what (fun win => win) w Hwhat); reflexivity.
Qed.

Lemma unchanged_refl (w : World A) : unchanged w w.
Proof. unfold unchanged. repeat split. Qed.

Lemma unchanged_trans (w1 w2 w3 : World A) :
  unchanged w1 w2 -> unchanged w2 w3 -> unchanged w1 w3.
Proof.
  unfold unchanged. intros (H1 & H2 & H3 & H4) (G1 & G2 & G3 & G4).
  repeat split; congruence.
Qed.

Lemma forwardToInput_unchanged (event : Event) (w : World A) :
  unchanged w (forwardToInput event w).
Proof.
  unfold unchanged, forwardToInput, observe.
  destruct (m_input w); simpl; repeat split.
  rewrite filter_app. simpl. apply app_nil_r.
Qed.

Lemma onShow_unchanged (isVisible : bool) (w : World A) :
  unchanged w (onShow isVisible w).
Proof. unfold unchanged. repeat split. Qed.

Lemma dispatchWindowEvent_fullscreen (id : WindowEventID) (d1 d2 : Z) (w : World A) :
  m_fullscreen (window w) = true ->
  unchanged w (dispatchWindowEvent platform quirk id d1 d2 w).
Proof.
  intros Hfs. destruct id; simpl.
  - destruct (quirk && m_minimized (window w) && negb (sdlMinimizedFlag w)).
    + eapply unchanged_trans; [apply (onShow_unchanged true)|].
      apply notifyAll_unchanged; reflexivity.
    + apply onShow_unchanged.
  - apply onShow_unchanged.
  - apply notifyAll_only_unchanged; reflexivity.
  - apply notifyAll_unchanged; reflexivity.
  - apply notifyAll_unchanged; reflexivity.
  - apply notifyAll_unchanged; reflexivity.
  - apply notifyAll_unchanged; reflexivity.
  - apply notifyAll_unchanged; reflexivity.
  - rewrite Hfs. simpl. apply notifyAll_unchanged; reflexivity.
  - rewrite Hfs, andb_false_r. apply unchanged_refl.
  - apply unchanged_refl.
  - apply unchanged_refl.
Qed.

Lemma eventLoop_fullscreen (events : list Event) :
  forall w : World A,
    m_fullscreen (window w) = true ->
    unchanged w (fst (fst (eventLoop platform quirk events w))).
Proof.
  induction events as [|event rest IH]; intros w Hfs; simpl.
  - apply unchanged_refl.
  - destruct event as [id d1 d2| |file|code]; simpl.
    + pose proof (dispatchWindowEvent_fullscreen id d1 d2 w Hfs) as H1.
      set (w1 := dispatchWindowEvent platform quirk id d1 d2 w) in *.
      pose proof (forwardToInput_unchanged (SDL_WINDOWEVENT id d1 d2) w1) as H2.
      set (w2 := forwardToInput (SDL_WINDOWEVENT id d1 d2) w1) in *.
      pose proof (unchanged_trans _ _ _ H1 H2) as H12.
      eapply unchanged_trans; [exact H12|]. apply IH.
      destruct H12 as (_ & -> & _). exact Hfs.
    + apply notifyAll_only_unchanged; reflexivity.
    + apply notifyAll_only_unchanged; reflexivity.
    + pose proof (forwardToInput_unchanged (SDL_other code) w) as H2.
      set (w2 := forwardToInput (SDL_other code) w) in *.
      eapply unchanged_trans; [exact H2|]. apply IH.
      destruct H2 as (_ & -> & _). exact Hfs.
Qed.

Lemma updateSize_notifies (w : World A) :
  Vec2i_eqb (sdlWindowSize w) (resolution (m_mode (window w))) = false ->
  filter isResize (trace (updateSize false w))
    = filter isResize (trace w) ++ notified ResizeWindow (m_listeners (window w)).
Proof.
  intros Hne. destruct (updateSize_trace A false w) as [calls ->].
  unfold DisplayMode_eqb. simpl resolution. rewrite Hne. simpl.
  rewrite !filter_app, (filter_render isResize calls) by reflexivity.
  rewrite filter_notified_all by reflexivity. reflexivity.
Qed.

End ResizeFacts.

(** C8: while the window is fullscreen, a size-changed event does nothing at
    all, whatever size it carries; no event that [processEvents] dispatches
    changes the cached mode or sends a resize notification (the renderer
    being initialized, so that the function does not end with its own
    [updateSize]); and [updateSize] is what brings the cached size to the
    actual one, notifying every listener when it differs. *)
Theorem C8_resize_suppressed_while_fullscreen :
  forall (A : Type) (platform : Win.Platform) (quirk : bool) (w : Win.World A),
    Win.m_fullscreen (Win.window w) = true ->
    (forall data1 data2,
       Win.dispatchWindowEvent platform quirk Win.SDL_WINDOWEVENT_SIZE_CHANGED
         data1 data2 w = w)
    /\ (forall events,
          Win.rendererInitialized w = true ->
          Win.m_mode (Win.window (fst (Win.processEvents platform quirk events w)))
            = Win.m_mode (Win.window w)
          /\ filter Win.isResize
               (Win.trace (fst (Win.processEvents platform quirk events w)))
             = filter Win.isResize (Win.trace w))
    /\ Win.resolution (Win.m_mode (Win.window (Win.updateSize false w)))
       = Win.sdlWindowSize w
    /\ (Win.Vec2i_eqb (Win.sdlWindowSize w)
          (Win.resolution (Win.m_mode (Win.window w))) = false ->
        filter Win.isResize (Win.trace (Win.updateSize false w))
          = filter Win.isResize (Win.trace w)
              ++ Win.notified Win.ResizeWindow (Win.m_listeners (Win.window w))).
Proof.
  intros A platform quirk w Hfs.
  split; [|split; [|split]].
  - intros data1 data2. simpl. rewrite Hfs, andb_false_r. reflexivity.
  - intros events Hinit.
    pose proof (eventLoop_fullscreen A platform quirk events w Hfs) as Hloop.
    unfold Win.unchanged in Hloop. destruct Hloop as (H1 & H2 & H3 & H4).
    unfold Win.processEvents.
    destruct (Win.eventLoop platform quirk events w) as [[w1 remaining] returned].
    simpl in *. rewrite Hinit in H3.
    destruct returned; [split; assumption|].
    rewrite H3. simpl. split; assumption.
  - apply updateSize_resolution.
  - apply updateSize_notifies.
Qed.

Lemma C8_resize_suppressed_while_fullscreen_witness :
  Win.processEvents Win.PlatformOther false
    [Win.SDL_WINDOWEVENT Win.SDL_WINDOWEVENT_MINIMIZED 0 0;
     Win.SDL_WINDOWEVENT Win.SDL_WINDOWEVENT_SIZE_CHANGED 0 0]
    (Win.mkWorld
       (Win.mkWindow (Win.mkVec2i 0 0)
          (Win.mkDisplayMode (Win.mkVec2i 960 544) 60)
          false false true true true
          [Win.mkListener 1 (fun n : nat => (true, n))])
       O [] true true false (Win.mkVec2i 0 0) (Some 60) true)
  = (Win.mkWorld
       (Win.mkWindow (Win.mkVec2i 0 0)
          (Win.mkDisplayMode (Win.mkVec2i 960 544) 60)
          true false true true true
          [Win.mkListener 1 (fun n : nat => (true, n))])
       O [Win.Notify 1 Win.MinimizeWindow] true true false
       (Win.mkVec2i 0 0) (Some 60) true, [])
  /\ Win.dispatchWindowEvent Win.PlatformOther false
       Win.SDL_WINDOWEVENT_SIZE_CHANGED 0 0
       (Win.mkWorld
          (Win.mkWindow (Win.mkVec2i 0 0)
             (Win.mkDisplayMode (Win.mkVec2i 960 544) 60)
             true false true true true
             [Win.mkListener 1 (fun n : nat => (true, n))])
          O [Win.Notify 1 Win.MinimizeWindow] true true false
          (Win.mkVec2i 0 0) (Some 60) true)
     = Win.mkWorld
          (Win.mkWindow (Win.mkVec2i 0 0)
             (Win.mkDisplayMode (Win.mkVec2i 960 544) 60)
             true false true true true
             [Win.mkListener 1 (fun n : nat => (true, n))])
          O [Win.Notify 1 Win.MinimizeWindow] true true false
          (Win.mkVec2i 0 0) (Some 60) true.
Proof.
  split; [reflexivity|].
  apply (proj1 (C8_resize_suppressed_while_fullscreen nat Win.PlatformOther false
           (Win.mkWorld
              (Win.mkWindow (Win.mkVec2i 0 0)
                 (Win.mkDisplayMode (Win.mkVec2i 960 544) 60)
                 true false true true true
                 [Win.mkListener 1 (fun n : nat => (true, n))])
              O [Win.Notify 1 Win.MinimizeWindow] true true false
              (Win.mkVec2i 0 0) (Some 60) true)
           eq_refl)).
Defined.

Section FlagFacts.

Import Win.

Variable A : Type.

Lemma mutate_exclusive (m : Mutator) (w : World A) :
  m_minimized (window (mutate m w)) && m_maximized (window (mutate m w)) = false.
Proof. destruct m; reflexivity. Qed.

Lemma mutateAll_snoc (ms : list Mutator) (m : Mutator) (w : World A) :
  mutateAll (ms ++ [m]) w = mutate m (mutateAll ms w).
Proof. unfold mutateAll. now rewrite fold_left_app. Qed.

End FlagFacts.

(** C10: a new window is neither minimized nor maximized; [onMinimize] sets
    minimized and clears maximized, [onMaximize] sets maximized and clears
    minimized, [onRestore] clears both; so from a state in which the two
    flags are not both set, no sequence of the three mutators reaches a state
    in which they are. *)
Theorem C10_minimized_and_maximized_exclusive :
  forall (A : Type) (w : Win.World A) (ms : list Win.Mutator),
    Win.m_minimized (Win.window w) && Win.m_maximized (Win.window w) = false ->
    (forall vita,
       Win.m_minimized (Win.Window_new A vita) = false
       /\ Win.m_maximized (Win.Window_new A vita) = false)
    /\ (Win.m_minimized (Win.window (Win.onMinimize w)) = true
        /\ Win.m_maximized (Win.window (Win.onMinimize w)) = false)
    /\ (Win.m_minimized (Win.window (Win.onMaximize w)) = false
        /\ Win.m_maximized (Win.window (Win.onMaximize w)) = true)
    /\ (Win.m_minimized (Win.window (Win.onRestore w)) = false
        /\ Win.m_maximized (Win.window (Win.onRestore w)) = false)
    /\ Win.m_minimized (Win.window (Win.mutateAll ms w))
       && Win.m_maximized (Win.window (Win.mutateAll ms w)) = false.
Proof.
  intros A w ms Hinit.
  repeat split.
  induction ms as [|m ms' _] using rev_ind.
  - exact Hinit.
  - rewrite mutateAll_snoc. apply mutate_exclusive.
Qed.

Lemma C10_minimized_and_maximized_exclusive_witness :
  Win.m_minimized
    (Win.window
       (Win.mutateAll [Win.Maximize; Win.Minimize]
          (Win.mkWorld (Win.Window_new nat true) O [] true true false
             (Win.mkVec2i 960 544) (Some 60) false)))
  && Win.m_maximized
    (Win.window
       (Win.mutateAll [Win.Maximize; Win.Minimize]
          (Win.mkWorld (Win.Window_new nat true) O [] true true false
             (Win.mkVec2i 960 544) (Some 60) false))) = false.
Proof.
  apply (C10_minimized_and_maximized_exclusive nat
           (Win.mkWorld (Win.Window_new nat true) O [] true true false
              (Win.mkVec2i 960 544) (Some 60) false)
           [Win.Maximize; Win.Minimize]).
  reflexivity.
Defined.

(* ===================================================================== *)
(** * Properties of the frame-rate limiter *)
(* ===================================================================== *)

Section FramePacingFacts.

Import FramePacing.

Lemma targetFps_pos (s : Settings) : limiterEnabled s = true -> 0 < targetFps s.
Proof.
  unfold limiterEnabled, targetFps. intros H.
  apply andb_prop in H. destruct H as [H _].
  apply negb_true_iff, Z.eqb_neq in H.
  destruct (Z.leb_spec (fpsLimit s) 0); [|lia].
  destruct (Z.leb_spec (displayRefresh s) 0); destruct (negb (vsync s =? 0)); lia.
Qed.

Lemma targetDuration_nonneg (s : Settings) :
  limiterEnabled s = true -> 0 <= targetDuration s.
Proof.
  intros H. unfold targetDuration.
  apply Z.quot_pos; [lia|now apply targetFps_pos].
Qed.

Lemma clamp_spec (v lo hi : Z) :
  lo <= hi -> clamp v lo hi = Z.max lo (Z.min hi v) /\ lo <= clamp v lo hi <= hi.
Proof.
  intros H. unfold clamp.
  destruct (Z.ltb_spec v lo); destruct (Z.ltb_spec hi v); lia.
Qed.

Lemma frameAfter_spec (s : Settings) (duration : Z) (t : Timer) :
  limiterEnabled s = true ->
  let T := targetDuration s in
  let delta := Z.max (- T) (Z.min T (m_frameDelta t + T - duration)) in
  frameAfter s duration t =
    (mkTimer (m_frameStart t + duration) delta,
     if 0 <? delta then Some delta else None)
  /\ - T <= delta <= T.
Proof.
  intros Hen T delta.
  pose proof (targetDuration_nonneg s Hen) as HT. fold T in HT.
  unfold frameAfter, limitFrameRate. rewrite Hen. cbv zeta.
  replace (m_frameStart t + duration - m_frameStart t) with duration by lia.
  fold T.
  destruct (clamp_spec (m_frameDelta t + T - duration) (- T) T) as [Hc Hr]; [lia|].
  rewrite Hc. fold delta. split; [reflexivity|]. unfold delta. lia.
Qed.

End FramePacingFacts.

(** C6: with the limiter enabled and target frame duration T, every frame
    updates the delta to clamp(delta + T - actualDuration, -T, T), so that
    it stays within [-T, T], and sleeps for max(0, delta) of the updated
    delta (no sleep call when that is 0), for every sequence of actual frame
    durations and every starting timer. *)
Theorem C6_frame_delta_clamped_and_slept :
  forall (s : FramePacing.Settings),
    FramePacing.limiterEnabled s = true ->
    let T := FramePacing.targetDuration s in
    0 <= T
    /\ (forall (duration : Z) (t : FramePacing.Timer),
          let delta := FramePacing.m_frameDelta (fst (FramePacing.frameAfter s duration t)) in
          let sleep := snd (FramePacing.frameAfter s duration t) in
          delta = Z.max (- T) (Z.min T (FramePacing.m_frameDelta t + T - duration))
          /\ - T <= delta <= T
          /\ FramePacing.slept sleep = Z.max 0 delta
          /\ (sleep = None <-> delta <= 0))
    /\ (forall (durations : list Z) (t : FramePacing.Timer),
          List.length (FramePacing.runFrames s durations t) = List.length durations
          /\ Forall (fun frame : Z * option Z =>
                       - T <= fst frame <= T
                       /\ FramePacing.slept (snd frame) = Z.max 0 (fst frame))
                    (FramePacing.runFrames s durations t)).
Proof.
  intros s Hen T.
  assert (Hstep : forall (duration : Z) (t : FramePacing.Timer),
          let delta := FramePacing.m_frameDelta (fst (FramePacing.frameAfter s duration t)) in
          let sleep := snd (FramePacing.frameAfter s duration t) in
          delta = Z.max (- T) (Z.min T (FramePacing.m_frameDelta t + T - duration))
          /\ - T <= delta <= T
          /\ FramePacing.slept sleep = Z.max 0 delta
          /\ (sleep = None <-> delta <= 0)).
  { intros duration t.
    destruct (frameAfter_spec s duration t Hen) as [Heq Hrange]. fold T in Heq, Hrange.
    rewrite Heq. simpl.
    set (d := Z.max (- T) (Z.min T (FramePacing.m_frameDelta t + T - duration))) in *.
    split; [reflexivity|]. split; [exact Hrange|].
    destruct (Z.ltb_spec 0 d); simpl; split; try lia.
    - split; [discriminate|lia].
    - split; [lia|reflexivity]. }
  split; [now apply targetDuration_nonneg|].
  split; [exact Hstep|].
  intros durations. induction durations as [|duration rest IH]; intros t; simpl.
  - split; [reflexivity|constructor].
  - pose proof (Hstep duration t) as Hs. simpl in Hs.
    destruct (FramePacing.frameAfter s duration t) as [t1 sleep]. simpl in Hs.
    destruct (IH t1) as [Hlen Hall]. simpl. split; [now rewrite Hlen|].
    constructor; [simpl; tauto|exact Hall].
Qed.

Lemma C6_frame_delta_clamped_and_slept_witness :
  FramePacing.runFrames (FramePacing.mkSettings 60 0 false 60)
    [10000; 30000; 40000; 1000] FramePacing.Timer_new
  = [(6666, Some 6666); (-6668, None); (-16666, None); (-1000, None)]
  /\ 0 <= FramePacing.targetDuration (FramePacing.mkSettings 60 0 false 60).
Proof.
  split; [reflexivity|].
  apply (C6_frame_delta_clamped_and_slept (FramePacing.mkSettings 60 0 false 60)).
  reflexivity.
Defined.

(* ===================================================================== *)
(** * Further properties of [OpenGLInfo] *)
(* ===================================================================== *)

Section OpenGLInfoMore.

Import Str OpenGLInfo.

Variable toInt : string -> option Z.

(** The object that a token leaves does not depend on the [first] flag,
    which only decides about a warning. *)
Lemma parseToken_first_irrelevant (tok : string) (gl : t) (f1 f2 : bool) :
  fst (fst (parseToken toInt tok (gl, f1))) = fst (fst (parseToken toInt tok (gl, f2))).
Proof.
  unfold parseToken. destruct (isExtensionToken tok); [reflexivity|].
  destruct (parseVersionToken toInt (m_version gl) tok); reflexivity.
Qed.

Lemma parseTokens_cons (tok : string) (rest : list string) (st : t * bool) :
  parseTokens toInt (tok :: rest) st =
  let '(st1, log1) := parseToken toInt tok st in
  let '(st2, log2) := parseTokens toInt rest st1 in
  (st2, log1 ++ log2).
Proof. reflexivity. Qed.

Lemma parseTokens_first_irrelevant (tokens : list string) :
  forall (gl : t) (f1 f2 : bool),
    fst (fst (parseTokens toInt tokens (gl, f1)))
    = fst (fst (parseTokens toInt tokens (gl, f2))).
Proof.
  induction tokens as [|tok rest IH]; intros gl f1 f2; [reflexivity|].
  rewrite !parseTokens_cons.
  pose proof (parseToken_first_irrelevant tok gl f1 f2) as Hobj.
  destruct (parseToken toInt tok (gl, f1)) as [[g1 b1] l1].
  destruct (parseToken toInt tok (gl, f2)) as [[g2 b2] l2].
  simpl in Hobj. subst g2.
  pose proof (IH g1 b1 b2) as Hrest.
  destruct (parseTokens toInt rest (g1, b1)) as [[g3 b3] l3].
  destruct (parseTokens toInt rest (g1, b2)) as [[g4 b4] l4].
  exact Hrest.
Qed.

(** Tokens that are extension tokens or malformed only append. *)
Lemma parseTokens_no_version (tokens : list string) :
  forall (gl : t) (first : bool),
    Forall (fun tok => isExtensionToken tok = true
                       \/ parseVersionToken toInt (m_version gl) tok = None) tokens ->
    fst (fst (parseTokens toInt tokens (gl, first)))
    = mk (m_version gl) (m_versionOverride gl)
         (m_extensionOverrides gl ++ filter isExtensionToken tokens).
Proof.
  induction tokens as [|tok rest IH]; intros gl first Hall.
  - simpl. rewrite app_nil_r. destruct gl; reflexivity.
  - inversion Hall as [|? ? Htok Hrest]; subst.
    rewrite parseTokens_cons. unfold parseToken. simpl filter.
    destruct (isExtensionToken tok) eqn:Eext.
    + specialize (IH (mk (m_version gl) (m_versionOverride gl)
                         (m_extensionOverrides gl ++ [tok])) false Hrest).
      destruct (parseTokens toInt rest _) as [[g b] l]. simpl in *.
      rewrite IH, <- app_assoc. reflexivity.
    + destruct Htok as [Hx|Hnone]; [discriminate|]. rewrite Hnone.
      specialize (IH gl first Hrest).
      destruct (parseTokens toInt rest (gl, first)) as [[g b] l]. exact IH.
Qed.

End OpenGLInfoMore.

(** X1: when no override entry names the extension, [has] is true exactly
    when the extension is detected (the native version reaches the requested
    one, or the native query reports it) and the requested version does not
    exceed the version override. *)
Theorem X1_has_without_override :
  forall (gl : OpenGLInfo.t) (supported : string -> bool) (ext : string) (v : Z),
    Forall (fun o => Str.substr 1 o <> ext) (OpenGLInfo.m_extensionOverrides gl) ->
    OpenGLInfo.has gl supported ext v =
      ((v <=? OpenGLInfo.m_version gl) || supported ext)
      && (v <=? OpenGLInfo.m_versionOverride gl).
Proof.
  intros gl supported ext v Hnone.
  unfold OpenGLInfo.has, OpenGLInfo.has_run.
  rewrite (scanOverrides_none (rev (OpenGLInfo.m_extensionOverrides gl)) ext)
    by (apply Forall_rev, Hnone).
  destruct (Z.ltb_spec (OpenGLInfo.m_version gl) v);
    destruct (Z.leb_spec v (OpenGLInfo.m_version gl)); try lia;
    destruct (supported ext); simpl;
    destruct (v <=? OpenGLInfo.m_versionOverride gl); reflexivity.
Qed.

Lemma X1_has_without_override_witness :
  OpenGLInfo.has (OpenGLInfo.mk 21 30 ["-GL_ARB_sample_shading"])
    (fun _ => true) "GL_ARB_buffer_storage" 44 = false.
Proof.
  apply (X1_has_without_override
           (OpenGLInfo.mk 21 30 ["-GL_ARB_sample_shading"])
           (fun _ => true) "GL_ARB_buffer_storage" 44).
  repeat constructor. vm_compute. discriminate.
Defined.

(** X2: the last accepted version token of a token stream decides: the
    version override is its value and the override list holds exactly the
    extension tokens that follow it, in order; everything before it,
    including the entries the object held before the parse, is gone. *)
Theorem X2_last_version_token_decides :
  forall (toInt : string -> option Z) (gl : OpenGLInfo.t) (first : bool)
         (pre post : list string) (vt : string) (v : Z),
    OpenGLInfo.isExtensionToken vt = false ->
    OpenGLInfo.parseVersionToken toInt (OpenGLInfo.m_version gl) vt = Some v ->
    Forall (fun tok => OpenGLInfo.isExtensionToken tok = true
                       \/ OpenGLInfo.parseVersionToken toInt (OpenGLInfo.m_version gl) tok
                          = None) post ->
    fst (fst (OpenGLInfo.parseTokens toInt (pre ++ vt :: post) (gl, first)))
    = OpenGLInfo.mk (OpenGLInfo.m_version gl) v
        (filter OpenGLInfo.isExtensionToken post).
Proof.
  intros toInt gl first pre post vt v Hext Hver Hpost.
  rewrite parseTokens_app.
  pose proof (parseTokens_m_version toInt pre (gl, first)) as Hv.
  destruct (OpenGLInfo.parseTokens toInt pre (gl, first)) as [[g1 b1] l1].
  simpl in Hv. rewrite parseTokens_cons.
  unfold OpenGLInfo.parseToken. rewrite Hext, Hv, Hver.
  pose proof (parseTokens_no_version toInt post
                (OpenGLInfo.mk (OpenGLInfo.m_version gl) v []) false Hpost) as Hrest.
  destruct (OpenGLInfo.parseTokens toInt post _) as [[g2 b2] l2].
  simpl in *. exact Hrest.
Qed.

Lemma X2_last_version_token_decides_witness :
  fst (fst (OpenGLInfo.parseTokens Str.toInt_dec
              ["-GL_A"; "3.0"; "+GL_B"; "GL4.2"; "+GL_C"; "x"; "-GL_D"]
              (OpenGLInfo.mk 21 Str.s32_max ["-GL_ARB_sample_shading"], true)))
  = OpenGLInfo.mk 21 42 ["+GL_C"; "-GL_D"].
Proof.
  apply (X2_last_version_token_decides Str.toInt_dec
           (OpenGLInfo.mk 21 Str.s32_max ["-GL_ARB_sample_shading"]) true
           ["-GL_A"; "3.0"; "+GL_B"] ["+GL_C"; "x"; "-GL_D"] "GL4.2" 42).
  - reflexivity.
  - reflexivity.
  - repeat constructor; (left; reflexivity) || (right; reflexivity).
Defined.

(** X3: a token stream without an accepted version token keeps the version
    override and every entry the object already held, and appends its
    extension tokens in order; malformed tokens add nothing. *)
Theorem X3_extension_tokens_accumulate :
  forall (toInt : string -> option Z) (gl : OpenGLInfo.t) (first : bool)
         (tokens : list string),
    Forall (fun tok => OpenGLInfo.isExtensionToken tok = true
                       \/ OpenGLInfo.parseVersionToken toInt (OpenGLInfo.m_version gl) tok
                          = None) tokens ->
    fst (fst (OpenGLInfo.parseTokens toInt tokens (gl, first)))
    = OpenGLInfo.mk (OpenGLInfo.m_version gl) (OpenGLInfo.m_versionOverride gl)
        (OpenGLInfo.m_extensionOverrides gl ++ filter OpenGLInfo.isExtensionToken tokens).
Proof.
  intros toInt gl first tokens H. now apply parseTokens_no_version.
Qed.

Lemma X3_extension_tokens_accumulate_witness :
  fst (fst (OpenGLInfo.parseTokens Str.toInt_dec ["+GL_B"; "4.x"; "-GL_D"]
              (OpenGLInfo.mk 21 30 ["-GL_ARB_sample_shading"], true)))
  = OpenGLInfo.mk 21 30 ["-GL_ARB_sample_shading"; "+GL_B"; "-GL_D"].
Proof.
  apply (X3_extension_tokens_accumulate Str.toInt_dec
           (OpenGLInfo.mk 21 30 ["-GL_ARB_sample_shading"]) true
           ["+GL_B"; "4.x"; "-GL_D"]).
  repeat constructor; (left; reflexivity) || (right; reflexivity).
Defined.

(** X4: the two parses of the constructor compose: parsing one string and
    then another leaves the object that a single parse of the first string's
    tokens followed by the second's would leave (only the warnings can
    differ, since the [first] flag starts afresh). *)
Theorem X4_successive_parses_compose :
  forall (toInt : string -> option Z) (gl : OpenGLInfo.t) (s1 s2 : string),
    fst (OpenGLInfo.parseOverrideConfig toInt
           (fst (OpenGLInfo.parseOverrideConfig toInt gl s1)) s2)
    = fst (fst (OpenGLInfo.parseTokens toInt
                  (Str.splitIgnoreEmpty s1 OpenGLInfo.separators
                   ++ Str.splitIgnoreEmpty s2 OpenGLInfo.separators)
                  (gl, true))).
Proof.
  intros toInt gl s1 s2. unfold OpenGLInfo.parseOverrideConfig.
  rewrite parseTokens_app.
  destruct (OpenGLInfo.parseTokens toInt
              (Str.splitIgnoreEmpty s1 OpenGLInfo.separators) (gl, true))
    as [[g1 b1] l1]. simpl.
  pose proof (parseTokens_first_irrelevant toInt
                (Str.splitIgnoreEmpty s2 OpenGLInfo.separators) g1 true b1) as H.
  destruct (OpenGLInfo.parseTokens toInt _ (g1, true)) as [[g2 b2] l2].
  destruct (OpenGLInfo.parseTokens toInt _ (g1, b1)) as [[g3 b3] l3].
  exact H.
Qed.

(** X5: the override "-*" (or "-") pins the version override to the native
    version and drops every extension override, so that afterwards [has]
    answers by the native version alone: an extension the driver reports is
    still refused when it needs a newer version. *)
Theorem X5_minus_star_pins_to_native_version :
  forall (toInt : string -> option Z) (gl : OpenGLInfo.t)
         (supported : string -> bool) (ext : string) (v : Z),
    OpenGLInfo.has (fst (OpenGLInfo.parseOverrideConfig toInt gl "-*")) supported ext v
      = (v <=? OpenGLInfo.m_version gl)
    /\ OpenGLInfo.has (fst (OpenGLInfo.parseOverrideConfig toInt gl "-")) supported ext v
      = (v <=? OpenGLInfo.m_version gl).
Proof.
  intros toInt gl supported ext v.
  split; unfold OpenGLInfo.has, OpenGLInfo.has_run; simpl;
    destruct (Z.ltb_spec (OpenGLInfo.m_version gl) v);
    destruct (Z.leb_spec v (OpenGLInfo.m_version gl)); try lia;
    destruct (supported ext); reflexivity.
Qed.

(* ===================================================================== *)
(** * Further properties of the renderer *)
(* ===================================================================== *)

Section RendererMore.

Import Renderer.

Variable aa : AlphaCutoutAntialising.
Variables defSS defA2C : bool.

Lemma BlendingFactor_eqb_eq (a b : BlendingFactor) :
  BlendingFactor_eqb a b = true -> a = b.
Proof. destruct a, b; simpl; intros H; try reflexivity; discriminate H. Qed.

Lemma execAll_app (c1 c2 : list GLCall) (g : GLState) :
  execAll (c1 ++ c2) g = execAll c2 (execAll c1 g).
Proof. unfold execAll. apply fold_left_app. Qed.

Lemma execAll_textureStages (r : t) (g : GLState) :
  execAll (applyTextureStages r) g = g.
Proof.
  unfold applyTextureStages, execAll.
  induction (seq 0 (S (maxTextureStage r))) as [|i l IH]; simpl; auto.
Qed.

(** The selection reads the blend pair and the cutout flag only. *)
Lemma selectAlphaTest_ext (ss a2c : bool) (s1 s2 : RenderState) :
  blendOrCutoutChanged s1 s2 = false ->
  selectAlphaTest ss a2c s2 = selectAlphaTest ss a2c s1.
Proof.
  unfold blendOrCutoutChanged. intros H.
  apply orb_false_elim in H. destruct H as [H Hc].
  apply orb_false_elim in H. destruct H as [Hs Hd].
  apply negb_false_iff in Hs, Hd, Hc.
  apply BlendingFactor_eqb_eq in Hs, Hd. apply Bool.eqb_prop in Hc.
  unfold selectAlphaTest. now rewrite Hs, Hd, Hc.
Qed.

Lemma flushState_toggles (r : t) :
  togglesMatch aa r -> togglesMatch aa (fst (flushState aa defSS defA2C r)).
Proof.
  intros Hinv. unfold flushState.
  destruct (RenderState_eqb (m_glstate r) (m_state r)); simpl; [exact Hinv|].
  unfold flushDiff.
  destruct (blendOrCutoutChanged (m_glstate r) (m_state r)) eqn:Echg.
  - pose proof (flushBlend_cache aa defSS defA2C r) as Hb.
    destruct (selectAlphaTest (useSS aa r) (useA2C aa r) (m_state r)) as [mode bs] eqn:Esel.
    destruct (flushBlend aa defSS defA2C r) as [rb cb]. simpl in *.
    destruct Hb as (Hs & _ & _ & Hm & Hh & Hss & Ha & Hf & _).
    unfold togglesMatch, useSS, useA2C, hasSampleShading. simpl.
    rewrite Hm, Hh, Hs.
    unfold useSS, useA2C, hasSampleShading in Esel. rewrite Esel. simpl.
    repeat split; assumption.
  - simpl. unfold togglesMatch in *. simpl.
    change (useSS aa (mk (m_state r) (m_state r) (m_glsampleShading r)
                         (m_glalphaToCoverage r) (m_glalphaFunc r) (m_glblendSrc r)
                         (m_glblendDst r) (m_hasMSAA r) (m_hasSampleShading r)
                         (maxTextureStage r))) with (useSS aa r).
    change (useA2C aa (mk (m_state r) (m_state r) (m_glsampleShading r)
                          (m_glalphaToCoverage r) (m_glalphaFunc r) (m_glblendSrc r)
                          (m_glblendDst r) (m_hasMSAA r) (m_hasSampleShading r)
                          (maxTextureStage r))) with (useA2C aa r).
    rewrite (selectAlphaTest_ext _ _ _ _ Echg). exact Hinv.
Qed.

Lemma flushState_m_state (r : t) :
  m_state (fst (flushState aa defSS defA2C r)) = m_state r.
Proof.
  unfold flushState.
  destruct (RenderState_eqb (m_glstate r) (m_state r)); simpl; [reflexivity|].
  pose proof (flushDiff_converges aa defSS defA2C r) as H.
  destruct (flushDiff aa defSS defA2C r). simpl in *. tauto.
Qed.

Lemma RenderState_eqb_eq (a b : RenderState) : RenderState_eqb a b = true -> a = b.
Proof.
  unfold RenderState_eqb. destruct a, b; simpl. intros E.
  repeat (apply andb_prop in E; destruct E as [E ?]).
  repeat match goal with
         | H : Bool.eqb _ _ = true |- _ => apply Bool.eqb_prop in H
         | H : (_ =? _) = true |- _ => apply Z.eqb_eq in H
         | H : BlendingFactor_eqb _ _ = true |- _ => apply BlendingFactor_eqb_eq in H
         end.
  subst. reflexivity.
Qed.

Lemma flushState_glstate (r : t) :
  m_glstate (fst (flushState aa defSS defA2C r)) = m_state r.
Proof.
  unfold flushState.
  destruct (RenderState_eqb (m_glstate r) (m_state r)) eqn:E; simpl.
  - now apply RenderState_eqb_eq.
  - pose proof (flushDiff_converges aa defSS defA2C r) as H.
    destruct (flushDiff aa defSS defA2C r). simpl in *. tauto.
Qed.

Lemma flushState_caps (r : t) :
  m_hasMSAA (fst (flushState aa defSS defA2C r)) = m_hasMSAA r
  /\ m_hasSampleShading (fst (flushState aa defSS defA2C r)) = m_hasSampleShading r
  /\ maxTextureStage (fst (flushState aa defSS defA2C r)) = maxTextureStage r.
Proof.
  unfold flushState.
  destruct (RenderState_eqb (m_glstate r) (m_state r)); simpl; [auto|].
  unfold flushDiff.
  destruct (blendOrCutoutChanged (m_glstate r) (m_state r)); simpl; [|auto].
  pose proof (flushBlend_cache aa defSS defA2C r) as Hb.
  destruct (selectAlphaTest (useSS aa r) (useA2C aa r) (m_state r)) as [mode bs].
  destruct (flushBlend aa defSS defA2C r) as [rb cb]. simpl in *. tauto.
Qed.

End RendererMore.

Section AntialiasingFacts.

Import Renderer.

Variable aa : AlphaCutoutAntialising.
Variables defSS defA2C defMS : bool.
Variable level : Z.
Variable antialiasing : bool.

Lemma setAlphaCutout_restore (st : RenderState) :
  setAlphaCutout (getAlphaCutout st) (setAlphaCutout false st) = st.
Proof. destruct st; reflexivity. Qed.

Lemma SetAntialiasing_toggles (enable : bool) (r : t) :
  togglesMatch aa r ->
  togglesMatch aa (fst (SetAntialiasing aa defSS defA2C defMS level antialiasing enable r)).
Proof.
  intros Hinv. unfold SetAntialiasing.
  destruct (level <=? 0); [exact Hinv|].
  destruct (enable && negb antialiasing); [exact Hinv|].
  destruct (Bool.eqb enable (m_hasMSAA r)); [exact Hinv|].
  destruct (getAlphaCutout (m_glstate r)) eqn:Ecut.
  - set (r0 := setDesired (setAlphaCutout false (m_state r)) r).
    assert (H0 : togglesMatch aa r0) by exact Hinv.
    pose proof (flushState_toggles aa defSS defA2C r0 H0) as Hf.
    pose proof (flushState_glstate aa defSS defA2C r0) as Hg.
    destruct (flushState aa defSS defA2C r0) as [rf cf]. simpl in *.
    unfold togglesMatch in *. simpl in *.
    unfold selectAlphaTest in *. rewrite Hg in *. simpl in *.
    exact Hf.
  - simpl. unfold togglesMatch in *. simpl in *.
    unfold selectAlphaTest in *. rewrite Ecut in *. simpl in *.
    exact Hinv.
Qed.

Lemma SetAntialiasing_m_state (enable : bool) (r : t) :
  m_state (fst (SetAntialiasing aa defSS defA2C defMS level antialiasing enable r))
  = m_state r.
Proof.
  unfold SetAntialiasing.
  destruct (level <=? 0); [reflexivity|].
  destruct (enable && negb antialiasing); [reflexivity|].
  destruct (Bool.eqb enable (m_hasMSAA r)); [reflexivity|].
  destruct (getAlphaCutout (m_glstate r)); [|reflexivity].
  set (r0 := setDesired (setAlphaCutout false (m_state r)) r).
  pose proof (flushState_m_state aa defSS defA2C r0) as Hs.
  destruct (flushState aa defSS defA2C r0) as [rf cf]. simpl in *.
  rewrite Hs. apply setAlphaCutout_restore.
Qed.

Lemma SetAntialiasing_hasMSAA (enable : bool) (r : t) :
  let r1 := fst (SetAntialiasing aa defSS defA2C defMS level antialiasing enable r) in
  (m_hasMSAA r1 = enable /\ m_hasSampleShading r1 = m_hasSampleShading r) \/ r1 = r.
Proof.
  unfold SetAntialiasing.
  destruct (level <=? 0); [now right|].
  destruct (enable && negb antialiasing); [now right|].
  destruct (Bool.eqb enable (m_hasMSAA r)); [now right|].
  left. destruct (getAlphaCutout (m_glstate r)); [|split; reflexivity].
  set (r0 := setDesired (setAlphaCutout false (m_state r)) r).
  pose proof (flushState_caps aa defSS defA2C r0) as Hc.
  destruct (flushState aa defSS defA2C r0) as [rf cf]. simpl in *.
  split; [reflexivity|tauto].
Qed.

End AntialiasingFacts.

(** X6: from [reinit] on, the cached sample-shading, alpha-to-coverage and
    alpha-function toggles are always those that the applied state selects
    under the current MSAA setting: [reinit] establishes this, and
    [flushState] and [SetAntialiasing] keep it. *)
Theorem X6_derived_toggles_follow_applied_state :
  forall (aa : Renderer.AlphaCutoutAntialising) (defSS defA2C defMS : bool)
         (level : Z) (antialiasing enable : bool) (r : Renderer.t),
    Renderer.togglesMatch aa (Renderer.reinitCache r)
    /\ (Renderer.togglesMatch aa r ->
        Renderer.togglesMatch aa (fst (Renderer.flushState aa defSS defA2C r))
        /\ Renderer.togglesMatch aa
             (fst (Renderer.SetAntialiasing aa defSS defA2C defMS level antialiasing
                     enable r))).
Proof.
  intros aa defSS defA2C defMS level antialiasing enable r.
  split; [unfold Renderer.togglesMatch; simpl; auto|].
  intros Hinv. split; [now apply flushState_toggles|].
  now apply SetAntialiasing_toggles.
Qed.

Lemma X6_derived_toggles_follow_applied_state_witness :
  Renderer.togglesMatch Renderer.CrispAlphaCutoutAA
    (fst (Renderer.SetAntialiasing Renderer.CrispAlphaCutoutAA true true true 4 true
            true
            (fst (Renderer.flushState Renderer.CrispAlphaCutoutAA true true
                    (Renderer.setDesired
                       (Renderer.mkRenderState false false false true 0
                          Renderer.BlendOne Renderer.BlendZero true)
                       (Renderer.reinitCache (Renderer.afterReinit true))))))).
Proof.
  refine (proj2 (proj2 (X6_derived_toggles_follow_applied_state
                         Renderer.CrispAlphaCutoutAA true true true 4 true true
                         (fst (Renderer.flushState Renderer.CrispAlphaCutoutAA true true
                                 (Renderer.setDesired
                                    (Renderer.mkRenderState false false false true 0
                                       Renderer.BlendOne Renderer.BlendZero true)
                                    (Renderer.reinitCache (Renderer.afterReinit true))))))
                   _)).
  vm_compute. repeat split.
Defined.

(** X7: [SetAntialiasing] never changes the desired state; it either leaves
    the renderer as it is or ends with MSAA set as asked; and the flush that
    follows it leaves the toggles that the desired state selects under the
    new MSAA setting, also when only the MSAA setting changed. *)
Theorem X7_SetAntialiasing_rederives_alpha_test :
  forall (aa : Renderer.AlphaCutoutAntialising) (defSS defA2C defMS : bool)
         (level : Z) (antialiasing enable : bool) (r : Renderer.t),
    let r1 := fst (Renderer.SetAntialiasing aa defSS defA2C defMS level antialiasing
                     enable r) in
    let r2 := fst (Renderer.flushState aa defSS defA2C r1) in
    Renderer.m_state r1 = Renderer.m_state r
    /\ (Renderer.m_hasMSAA r1 = enable \/ r1 = r)
    /\ (Renderer.togglesMatch aa r ->
        let mode := fst (Renderer.selectAlphaTest (Renderer.useSS aa r1)
                           (Renderer.useA2C aa r1) (Renderer.m_state r)) in
        Renderer.m_glsampleShading r2 = Renderer.TestMode_eqb mode Renderer.TestSS
        /\ Renderer.m_glalphaToCoverage r2 = Renderer.TestMode_eqb mode Renderer.TestA2C
        /\ Renderer.m_glalphaFunc r2 = Renderer.alphaRefOf mode).
Proof.
  intros aa defSS defA2C defMS level antialiasing enable r r1 r2.
  pose proof (SetAntialiasing_m_state aa defSS defA2C defMS level antialiasing enable r)
    as Hs. fold r1 in Hs.
  split; [exact Hs|]. split.
  - destruct (SetAntialiasing_hasMSAA aa defSS defA2C defMS level antialiasing enable r)
      as [[H _]|H]; [left|right]; exact H.
  - intros Hinv.
    pose proof (SetAntialiasing_toggles aa defSS defA2C defMS level antialiasing
                  enable r Hinv) as H1. fold r1 in H1.
    pose proof (flushState_toggles aa defSS defA2C r1 H1) as H2. fold r2 in H2.
    pose proof (flushState_glstate aa defSS defA2C r1) as Hg. fold r2 in Hg.
    destruct (flushState_caps aa defSS defA2C r1) as (Hm & Hh & _).
    fold r2 in Hm, Hh.
    unfold Renderer.togglesMatch in H2.
    unfold Renderer.useSS, Renderer.useA2C, Renderer.hasSampleShading in *.
    rewrite Hg, Hm, Hh, Hs in H2. exact H2.
Qed.

Lemma X7_SetAntialiasing_rederives_alpha_test_witness :
  Renderer.m_glalphaToCoverage
    (fst (Renderer.flushState Renderer.FuzzyAlphaCutoutAA true true
            (fst (Renderer.SetAntialiasing Renderer.FuzzyAlphaCutoutAA true true true
                    4 true true
                    (fst (Renderer.flushState Renderer.FuzzyAlphaCutoutAA true true
                            (Renderer.setDesired
                               (Renderer.mkRenderState false false false true 0
                                  Renderer.BlendOne Renderer.BlendZero true)
                               (Renderer.reinitCache (Renderer.afterReinit false)))))))))
  = true.
Proof.
  refine (proj1 (proj2 (proj2 (proj2
            (X7_SetAntialiasing_rederives_alpha_test Renderer.FuzzyAlphaCutoutAA
               true true true 4 true true
               (fst (Renderer.flushState Renderer.FuzzyAlphaCutoutAA true true
                       (Renderer.setDesired
                          (Renderer.mkRenderState false false false true 0
                             Renderer.BlendOne Renderer.BlendZero true)
                          (Renderer.reinitCache (Renderer.afterReinit false)))))))
            _))).
  vm_compute. repeat split.
Defined.

Section CoherenceFacts.

Import Renderer.

Variable aa : AlphaCutoutAntialising.

(** The blend block brings the four pieces of context state it drives to
    the values it caches and touches nothing else. *)
Lemma flushBlend_exec (r : t) (g : GLState) :
  gl_sampleShading g = m_glsampleShading r ->
  gl_alphaToCoverage g = m_glalphaToCoverage r ->
  gl_alphaFunc g = alphaFuncOf (m_glalphaFunc r) ->
  gl_blendFunc g = (m_glblendSrc r, m_glblendDst r) ->
  let rb := fst (flushBlend aa true true r) in
  execAll (snd (flushBlend aa true true r)) g
  = mkGLState (gl_cull g) (gl_fog g) (m_glsampleShading rb) (m_glalphaToCoverage rb)
      (alphaFuncOf (m_glalphaFunc rb)) (m_glblendSrc rb, m_glblendDst rb)
      (gl_depthFunc g) (gl_depthMask g) (gl_polygonOffset g).
Proof.
  destruct g as [gc gf gs ga gaf gb gdf gdm gpo]. simpl.
  intros -> -> -> ->. unfold flushBlend.
  destruct (selectAlphaTest (useSS aa r) (useA2C aa r) (m_state r)) as [mode bs].
  destruct (GLenum_eqb (m_glblendSrc r) (arxToGlBlendFactor bs));
    destruct (GLenum_eqb (m_glblendDst r)
                (arxToGlBlendFactor (getBlendDst (m_state r))));
    destruct mode, (m_glsampleShading r), (m_glalphaToCoverage r), (m_glalphaFunc r);
    reflexivity.
Qed.

Lemma flushDiff_exec (r : t) (g : GLState) :
  coherent r g ->
  coherent (fst (flushDiff aa true true r)) (execAll (snd (flushDiff aa true true r)) g).
Proof.
  intros (Hc & Hf & Hss & Ha2c & Haf & Hb & Hdf & Hdm & Hpo).
  unfold flushDiff.
  set (gl := m_glstate r) in *. set (st := m_state r) in *.
  set (cCull := if negb (Bool.eqb (getCull gl) (getCull st))
                then [if getCull st then glEnable GL_CULL_FACE
                      else glDisable GL_CULL_FACE] else []).
  set (cFog := if negb (Bool.eqb (getFog gl) (getFog st))
               then [if getFog st then glEnable GL_FOG else glDisable GL_FOG] else []).
  set (cDT := if negb (Bool.eqb (getDepthTest gl) (getDepthTest st))
              then [glDepthFunc (if getDepthTest st then GL_LEQUAL else GL_ALWAYS)]
              else []).
  set (cDW := if negb (Bool.eqb (getDepthWrite gl) (getDepthWrite st))
              then [glDepthMask (getDepthWrite st)] else []).
  set (cDO := if negb (getDepthOffset gl =? getDepthOffset st)
              then [glPolygonOffset (- getDepthOffset st) (- getDepthOffset st)]
              else []).
  assert (Hfront : execAll (cCull ++ cFog) g
                   = mkGLState (getCull st) (getFog st) (gl_sampleShading g)
                       (gl_alphaToCoverage g) (gl_alphaFunc g) (gl_blendFunc g)
                       (gl_depthFunc g) (gl_depthMask g) (gl_polygonOffset g)).
  { unfold cCull, cFog. destruct g as [gc gf gs ga gaf gb gdf gdm gpo]. simpl in *.
    subst gc gf.
    destruct (Bool.eqb (getCull gl) (getCull st)) eqn:E1;
      destruct (Bool.eqb (getFog gl) (getFog st)) eqn:E2;
      try apply Bool.eqb_prop in E1; try apply Bool.eqb_prop in E2;
      rewrite ?E1, ?E2; simpl;
      destruct (getCull st); destruct (getFog st); reflexivity. }
  assert (Hback : forall g0,
            execAll (cDT ++ cDW ++ cDO) g0
            = mkGLState (gl_cull g0) (gl_fog g0) (gl_sampleShading g0)
                (gl_alphaToCoverage g0) (gl_alphaFunc g0) (gl_blendFunc g0)
                (if negb (Bool.eqb (getDepthTest gl) (getDepthTest st))
                 then (if getDepthTest st then GL_LEQUAL else GL_ALWAYS)
                 else gl_depthFunc g0)
                (if negb (Bool.eqb (getDepthWrite gl) (getDepthWrite st))
                 then getDepthWrite st else gl_depthMask g0)
                (if negb (getDepthOffset gl =? getDepthOffset st)
                 then (- getDepthOffset st, - getDepthOffset st)
                 else gl_polygonOffset g0)).
  { intros g0. unfold cDT, cDW, cDO. destruct g0. simpl.
    destruct (Bool.eqb (getDepthTest gl) (getDepthTest st));
      destruct (Bool.eqb (getDepthWrite gl) (getDepthWrite st));
      destruct (getDepthOffset gl =? getDepthOffset st); reflexivity. }
  assert (Hdepth :
            (if negb (Bool.eqb (getDepthTest gl) (getDepthTest st))
             then (if getDepthTest st then GL_LEQUAL else GL_ALWAYS)
             else gl_depthFunc g)
            = (if getDepthTest st then GL_LEQUAL else GL_ALWAYS)
            /\ (if negb (Bool.eqb (getDepthWrite gl) (getDepthWrite st))
                then getDepthWrite st else gl_depthMask g) = getDepthWrite st
            /\ (if negb (getDepthOffset gl =? getDepthOffset st)
                then (- getDepthOffset st, - getDepthOffset st)
                else gl_polygonOffset g)
               = (- getDepthOffset st, - getDepthOffset st)).
  { rewrite Hdf, Hdm, Hpo.
    destruct (Bool.eqb (getDepthTest gl) (getDepthTest st)) eqn:E1;
      destruct (Bool.eqb (getDepthWrite gl) (getDepthWrite st)) eqn:E2;
      destruct (Z.eqb_spec (getDepthOffset gl) (getDepthOffset st)) as [E3|E3];
      try apply Bool.eqb_prop in E1; try apply Bool.eqb_prop in E2;
      rewrite ?E1, ?E2, ?E3; simpl; auto. }
  destruct Hdepth as (Hd1 & Hd2 & Hd3).
  destruct (blendOrCutoutChanged gl st).
  - pose proof (flushBlend_exec r
                  (mkGLState (getCull st) (getFog st) (gl_sampleShading g)
                     (gl_alphaToCoverage g) (gl_alphaFunc g) (gl_blendFunc g)
                     (gl_depthFunc g) (gl_depthMask g) (gl_polygonOffset g))
                  Hss Ha2c Haf Hb) as Hblend.
    pose proof (flushBlend_cache aa true true r) as Hcache.
    destruct (selectAlphaTest (useSS aa r) (useA2C aa r) (m_state r)) as [mode bs].
    destruct (flushBlend aa true true r) as [rb cb]. simpl fst in *. simpl snd in *.
    cbv zeta in Hblend.
    replace (cCull ++ cFog ++ cb ++ cDT ++ cDW ++ cDO)
      with ((cCull ++ cFog) ++ cb ++ (cDT ++ cDW ++ cDO))
      by (now rewrite <- !app_assoc).
    rewrite (execAll_app (cCull ++ cFog)), Hfront, (execAll_app cb), Hblend, Hback.
    simpl.
    destruct Hcache as (Hs & _).
    unfold coherent. simpl. rewrite Hs. fold st.
    repeat split; assumption.
  - simpl fst. simpl snd.
    replace (cCull ++ cFog ++ cDT ++ cDW ++ cDO)
      with ((cCull ++ cFog) ++ (cDT ++ cDW ++ cDO))
      by (now rewrite <- !app_assoc).
    rewrite (execAll_app (cCull ++ cFog)), Hfront, Hback. simpl.
    unfold coherent. simpl. fold st.
    repeat split; assumption.
Qed.

End CoherenceFacts.

(** X8: [flushState] keeps the cache in step with the context.  If every
    cached member is the value the context holds before the flush (and the
    two multisample macros are defined, so that no toggle is compiled out),
    then after the calls the flush issues every cached member is again the
    value the context holds; with the applied state then equal to the
    desired one, the context's cull, fog and depth settings are the desired
    ones. *)
Theorem X8_flushState_keeps_cache_and_context_coherent :
  forall (aa : Renderer.AlphaCutoutAntialising) (r : Renderer.t)
         (g : Renderer.GLState),
    Renderer.coherent r g ->
    let r1 := fst (Renderer.flushState aa true true r) in
    let g1 := Renderer.execAll (snd (Renderer.flushState aa true true r)) g in
    Renderer.coherent r1 g1
    /\ Renderer.gl_cull g1 = Renderer.getCull (Renderer.m_state r)
    /\ Renderer.gl_fog g1 = Renderer.getFog (Renderer.m_state r)
    /\ Renderer.gl_depthMask g1 = Renderer.getDepthWrite (Renderer.m_state r)
    /\ Renderer.gl_depthFunc g1
       = (if Renderer.getDepthTest (Renderer.m_state r)
          then Renderer.GL_LEQUAL else Renderer.GL_ALWAYS)
    /\ Renderer.gl_polygonOffset g1
       = (- Renderer.getDepthOffset (Renderer.m_state r),
          - Renderer.getDepthOffset (Renderer.m_state r)).
Proof.
  intros aa r g Hco r1 g1.
  assert (H1 : Renderer.coherent r1 g1).
  { unfold r1, g1, Renderer.flushState.
    destruct (Renderer.RenderState_eqb (Renderer.m_glstate r) (Renderer.m_state r)).
    - cbn [negb fst snd app]. rewrite execAll_textureStages. exact Hco.
    - pose proof (flushDiff_exec aa r g Hco) as Hd.
      destruct (Renderer.flushDiff aa true true r) as [rd cd]. cbn [negb fst snd] in *.
      rewrite execAll_app, execAll_textureStages. exact Hd. }
  split; [exact H1|].
  pose proof (flushState_glstate aa true true r) as Hg. fold r1 in Hg.
  destruct H1 as (Hc & Hf & _ & _ & _ & _ & Hdf & Hdm & Hpo).
  rewrite Hg in *. repeat split; assumption.
Qed.

Lemma X8_flushState_keeps_cache_and_context_coherent_witness :
  Renderer.gl_cull
    (Renderer.execAll
       (snd (Renderer.flushState Renderer.NoAlphaCutoutAA true true
               (Renderer.setDesired
                  (Renderer.mkRenderState true false true true 2
                     Renderer.BlendSrcAlpha Renderer.BlendInvSrcAlpha false)
                  (Renderer.reinitCache (Renderer.afterReinit false)))))
       (Renderer.mkGLState false false false false
          (Renderer.GL_ALWAYS, Renderer.RefZero) (Renderer.GL_ONE, Renderer.GL_ZERO)
          Renderer.GL_ALWAYS true (0, 0)))
  = true.
Proof.
  refine (proj1 (proj2
            (X8_flushState_keeps_cache_and_context_coherent Renderer.NoAlphaCutoutAA
               (Renderer.setDesired
                  (Renderer.mkRenderState true false true true 2
                     Renderer.BlendSrcAlpha Renderer.BlendInvSrcAlpha false)
                  (Renderer.reinitCache (Renderer.afterReinit false)))
               (Renderer.mkGLState false false false false
                  (Renderer.GL_ALWAYS, Renderer.RefZero)
                  (Renderer.GL_ONE, Renderer.GL_ZERO)
                  Renderer.GL_ALWAYS true (0, 0))
               _))).
  vm_compute. repeat split.
Defined.

Section BufferFacts.

Import Renderer.

Variable def : bool.
Variable caps : BufferCaps.
Variable usage : BufferUsage.

Lemma selectVertexBuffer_empty :
  fst (selectVertexBuffer def caps usage "") = Some (defaultBuffer def caps usage).
Proof.
  unfold selectVertexBuffer, selectPersistent, defaultBuffer.
  destruct caps as [mr bs mb]. simpl.
  destruct mr, def, bs, mb, usage; reflexivity.
Qed.

Lemma createVertexBufferImpl_empty (fuel : nat) (warned : bool) :
  createVertexBufferImpl (S fuel) def caps usage "" warned
  = Some (defaultBuffer def caps usage, warned, []).
Proof.
  simpl. pose proof selectVertexBuffer_empty as H.
  destruct (selectVertexBuffer def caps usage "") as [[k|] m]; simpl in H.
  - now inversion H.
  - discriminate H.
Qed.

Lemma createVertexBufferImpl_unfold (fuel : nat) (setting : string) (warned : bool) :
  createVertexBufferImpl (S (S fuel)) def caps usage setting warned
  = match selectVertexBuffer def caps usage setting with
    | (Some kind, _) => Some (kind, warned, [])
    | (None, matched) =>
        Some (defaultBuffer def caps usage,
              (if negb matched && negb warned then true else warned),
              (if negb matched && negb warned then [setting] else []))
    end.
Proof.
  change (createVertexBufferImpl (S (S fuel)) def caps usage setting warned)
    with (match selectVertexBuffer def caps usage setting with
          | (Some kind, _) => Some (kind, warned, [])
          | (None, matched) =>
              match createVertexBufferImpl (S fuel) def caps usage ""
                      (if negb matched && negb warned then true else warned) with
              | Some (kind, warned', log) =>
                  Some (kind, warned',
                        (if negb matched && negb warned then [setting] else []) ++ log)
              | None => None
              end
          end).
  destruct (selectVertexBuffer def caps usage setting) as [[k|] m]; [reflexivity|].
  rewrite createVertexBufferImpl_empty. now rewrite app_nil_r.
Qed.

End BufferFacts.

(** X9: [createVertexBufferImpl] always returns a buffer, after at most one
    recursive call; a setting that selects nothing (unknown, or naming a
    strategy the capabilities or the usage rule out) yields exactly the
    buffer of the empty setting, which follows the preference order
    persistent orphaning (never for static buffers), range mapping, mapping,
    shadow copy. *)
Theorem X9_vertex_buffer_fallback_is_default :
  forall (def : bool) (caps : Renderer.BufferCaps) (usage : Renderer.BufferUsage)
         (setting : string) (warned : bool) (fuel : nat),
    fst (Renderer.selectVertexBuffer def caps usage "")
      = Some (Renderer.defaultBuffer def caps usage)
    /\ exists kind warned' log,
         Renderer.createVertexBufferImpl (S (S fuel)) def caps usage setting warned
           = Some (kind, warned', log)
         /\ (fst (Renderer.selectVertexBuffer def caps usage setting) = None ->
             kind = Renderer.defaultBuffer def caps usage)
         /\ (forall k, fst (Renderer.selectVertexBuffer def caps usage setting) = Some k ->
             kind = k /\ warned' = warned /\ log = []).
Proof.
  intros def caps usage setting warned fuel.
  split; [apply selectVertexBuffer_empty|].
  rewrite createVertexBufferImpl_unfold.
  destruct (Renderer.selectVertexBuffer def caps usage setting) as [[k|] m]; simpl.
  - exists k, warned, []. split; [reflexivity|]. split; [discriminate|].
    intros k1 Hk. inversion Hk. auto.
  - eexists _, _, _. split; [reflexivity|]. split; [reflexivity|discriminate].
Qed.

Section BufferGating.

Import Renderer.

Lemma selectPersistent_spec (usage : BufferUsage) (setting : string)
    (k : VertexBufferKind) (m : bool) :
  selectPersistent usage setting = (Some k, m) ->
  match k with
  | GLPersistentOrphanVertexBuffer => usage <> Static
  | GLPersistentFenceVertexBuffer count =>
      usage = Stream
      /\ ((count = 3%nat /\ setting = "persistent-x3")
          \/ (count = 2%nat /\ setting = "persistent-x2"))
  | GLPersistentUnsynchronizedVertexBuffer =>
      usage <> Static /\ setting = "persistent-nosync"
  | _ => False
  end.
Proof.
  unfold selectPersistent.
  destruct (String.eqb_spec setting "") as [->|_];
    [|destruct (String.eqb_spec setting "persistent-orphan") as [->|_];
      [|destruct (String.eqb_spec setting "persistent-x3") as [->|_];
        [|destruct (String.eqb_spec setting "persistent-x2") as [->|_];
          [|destruct (String.eqb_spec setting "persistent-nosync") as [->|_]]]]];
    destruct usage; simpl; intros [= <- <-]; repeat split; auto; discriminate.
Qed.

Lemma defaultBuffer_spec (def : bool) (caps : BufferCaps) (usage : BufferUsage) :
  match defaultBuffer def caps usage with
  | GLPersistentOrphanVertexBuffer =>
      def = true /\ hasBufferStorage caps = true
      /\ hasMapBufferRange caps = true /\ usage <> Static
  | GLMapRangeVertexBuffer => hasMapBufferRange caps = true
  | GLMapVertexBuffer => hasMapBuffer caps = true
  | GLShadowVertexBuffer => True
  | _ => False
  end.
Proof.
  unfold defaultBuffer. destruct caps as [mr bs mb]. simpl.
  destruct mr, def, bs, mb, usage; simpl; repeat split; auto; discriminate.
Qed.

End BufferGating.

(** X10: the buffer returned is one the capabilities allow: a persistent
    buffer only with buffer storage and range mapping (and never for static
    usage), a fence buffer only for stream usage and only when its setting
    asks for it by name, a range-mapped buffer only with range mapping, a
    mapped buffer only with mapping. *)
Theorem X10_vertex_buffer_respects_capabilities :
  forall (def : bool) (caps : Renderer.BufferCaps) (usage : Renderer.BufferUsage)
         (setting : string) (warned : bool) (fuel : nat)
         (kind : Renderer.VertexBufferKind) (warned' : bool) (log : list string),
    Renderer.createVertexBufferImpl (S (S fuel)) def caps usage setting warned
      = Some (kind, warned', log) ->
    match kind with
    | Renderer.GLPersistentOrphanVertexBuffer =>
        def = true /\ Renderer.hasBufferStorage caps = true
        /\ Renderer.hasMapBufferRange caps = true /\ usage <> Renderer.Static
    | Renderer.GLPersistentFenceVertexBuffer count =>
        def = true /\ Renderer.hasBufferStorage caps = true
        /\ Renderer.hasMapBufferRange caps = true /\ usage = Renderer.Stream
        /\ ((count = 3%nat /\ setting = "persistent-x3")
            \/ (count = 2%nat /\ setting = "persistent-x2"))
    | Renderer.GLPersistentUnsynchronizedVertexBuffer =>
        def = true /\ Renderer.hasBufferStorage caps = true
        /\ Renderer.hasMapBufferRange caps = true /\ usage <> Renderer.Static
        /\ setting = "persistent-nosync"
    | Renderer.GLMapRangeVertexBuffer => Renderer.hasMapBufferRange caps = true
    | Renderer.GLMapVertexBuffer => Renderer.hasMapBuffer caps = true
    | Renderer.GLShadowVertexBuffer => True
    end.
Proof.
  intros def caps usage setting warned fuel kind warned' log.
  rewrite createVertexBufferImpl_unfold.
  pose proof (defaultBuffer_spec def caps usage) as Hdef.
  pose proof (selectPersistent_spec usage setting) as Hper.
  unfold Renderer.selectVertexBuffer.
  destruct (Renderer.selectPersistent usage setting) as [[k|] m].
  - specialize (Hper k m eq_refl).
    destruct (Renderer.hasMapBufferRange caps) eqn:Emr;
      destruct def; destruct (Renderer.hasBufferStorage caps) eqn:Ebs;
      destruct (Renderer.hasMapBuffer caps) eqn:Emb; cbn [andb];
      repeat match goal with
             | |- context [if ?b then _ else _] => destruct b
             end;
      intros [= <- <- <-]; try exact I; try reflexivity;
      try (revert Hdef; destruct (Renderer.defaultBuffer _ caps usage);
           intros; intuition; fail);
      destruct k; try contradiction; intuition.
  - clear Hper.
    destruct (Renderer.hasMapBufferRange caps) eqn:Emr;
      destruct def; destruct (Renderer.hasBufferStorage caps) eqn:Ebs;
      destruct (Renderer.hasMapBuffer caps) eqn:Emb; cbn [andb];
      repeat match goal with
             | |- context [if ?b then _ else _] => destruct b
             end;
      intros [= <- <- <-]; try exact I; try reflexivity;
      revert Hdef; destruct (Renderer.defaultBuffer _ caps usage);
      intros; intuition.
Qed.

Lemma X10_vertex_buffer_respects_capabilities_witness :
  Renderer.hasMapBuffer (Renderer.mkBufferCaps false true true) = true.
Proof.
  apply (X10_vertex_buffer_respects_capabilities true
           (Renderer.mkBufferCaps false true true) Renderer.Stream
           "persistent-x3" false 0 Renderer.GLMapVertexBuffer true ["persistent-x3"]).
  reflexivity.
Defined.



(* ===================================================================== *)
(** * Further properties of the window *)
(* ===================================================================== *)

Section ListenerFacts.

Import Win.

Variable A : Type.




End ListenerFacts.



Section PumpFacts.

Import Win.

Variable A : Type.
Variable platform : Platform.
Variable quirk : bool.

Lemma sameInput_refl (w : World A) : sameInput w w.
Proof. split; reflexivity. Qed.

Lemma sameInput_trans (w1 w2 w3 : World A) :
  sameInput w1 w2 -> sameInput w2 w3 -> sameInput w1 w3.
Proof. unfold sameInput. intros [H1 H2] [G1 G2]. split; congruence. Qed.

Lemma sameInput_withWindow (f : Window A -> Window A) (w : World A) :
  sameInput w (withWindow f w).
Proof. split; reflexivity. Qed.

Lemma sameInput_withRenderer (b : bool) (w : World A) :
  sameInput w (withRenderer b w).
Proof. split; reflexivity. Qed.

Lemma sameInput_observe (obs : list Obs) (w : World A) :
  filter isInput obs = [] -> sameInput w (observe obs w).
Proof.
  intros H. split; [reflexivity|]. unfold observe. simpl.
  now rewrite filter_app, H, app_nil_r.
Qed.

Lemma sameInput_notifyAll (what : Notification) (w : World A) :
  sameInput w (notifyAll what w).
Proof.
  apply sameInput_observe.
  apply (filter_notified A isInput what _ (fun _ => eq_refl)).
Qed.

Lemma sameInput_notify_with (what : Notification) (f : Window A -> Window A)
    (w : World A) :
  sameInput w (notifyAll what (withWindow f w)).
Proof.
  eapply sameInput_trans; [apply sameInput_withWindow|apply sameInput_notifyAll].
Qed.

Lemma sameInput_afterResize (w : World A) : sameInput w (afterResize w).
Proof.
  unfold afterResize.
  assert (H : sameInput w (observe [Render AfterResize] w))
    by (apply sameInput_observe; reflexivity).
  destruct (negb (rendererInitialized (observe [Render AfterResize] w))); [|exact H].
  eapply sameInput_trans; [exact H|apply sameInput_withRenderer].
Qed.

Lemma sameInput_setViewport (w : World A) : sameInput w (setViewport w).
Proof. apply sameInput_observe; reflexivity. Qed.

Lemma sameInput_beforeResize (b : bool) (w : World A) :
  sameInput w (beforeResize platform b w).
Proof.
  unfold beforeResize.
  assert (H : sameInput w (observe [Render (BeforeResize b)] w))
    by (apply sameInput_observe; reflexivity).
  destruct platform; [exact H| |].
  - destruct (negb (rendererInitialized _)); [exact H|].
    destruct (negb b); [exact H|].
    eapply sameInput_trans; [exact H|apply sameInput_withRenderer].
  - destruct (negb (rendererInitialized _)); [exact H|].
    eapply sameInput_trans; [exact H|apply sameInput_withRenderer].
Qed.

Lemma sameInput_updateSize (force : bool) (w : World A) :
  sameInput w (updateSize force w).
Proof.
  unfold updateSize.
  set (w1 := withWindow _ w).
  assert (H1 : sameInput w w1) by apply sameInput_withWindow.
  assert (H2 : sameInput w (setViewport (afterResize w1))).
  { eapply sameInput_trans; [exact H1|].
    eapply sameInput_trans; [apply sameInput_afterResize|apply sameInput_setViewport]. }
  destruct (force || negb (Vec2i_eqb _ _)); destruct (force || negb (DisplayMode_eqb _ _)).
  - eapply sameInput_trans; [exact H2|apply sameInput_notify_with].
  - exact H2.
  - eapply sameInput_trans; [exact H1|apply sameInput_notify_with].
  - exact H1.
Qed.

(** Dispatching a window event hands nothing to the input backend and keeps
    the backend attached. *)
Lemma dispatchWindowEvent_input (id : WindowEventID) (d1 d2 : Z) (w : World A) :
  sameInput w (dispatchWindowEvent platform quirk id d1 d2 w).
Proof.
  destruct id; simpl;
    try apply sameInput_refl;
    try apply sameInput_withWindow;
    try apply sameInput_notifyAll;
    try apply sameInput_notify_with.
  - destruct (quirk && _ && _).
    + apply (sameInput_trans w (onShow true w));
        [apply sameInput_withWindow|apply sameInput_notify_with].
    + apply sameInput_withWindow.
  - destruct (negb (m_fullscreen (window w))).
    + eapply sameInput_trans; [apply sameInput_updateSize|apply sameInput_notify_with].
    + apply sameInput_notify_with.
  - destruct (negb (Vec2i_eqb _ _) && negb (m_fullscreen (window w)));
      [|apply sameInput_refl].
    eapply sameInput_trans; [apply sameInput_beforeResize|apply sameInput_updateSize].
Qed.

Lemma eventLoop_app (pre rest : list Event) :
  forall w : World A,
    Forall (fun e => endsLoop e = false) pre ->
    eventLoop platform quirk (pre ++ rest) w
    = eventLoop platform quirk rest (fst (fst (eventLoop platform quirk pre w))).
Proof.
  induction pre as [|e pre IH]; intros w Hpre; [reflexivity|].
  inversion Hpre as [|? ? He Hrest]; subst.
  destruct e as [id d1 d2| |file|code]; try discriminate He; simpl.
  - rewrite IH by assumption. reflexivity.
  - rewrite IH by assumption. reflexivity.
Qed.

Lemma eventLoop_runs_out (events : list Event) :
  forall w : World A,
    Forall (fun e => endsLoop e = false) events ->
    snd (fst (eventLoop platform quirk events w)) = []
    /\ snd (eventLoop platform quirk events w) = false.
Proof.
  induction events as [|e rest IH]; intros w Hall; [split; reflexivity|].
  inversion Hall as [|? ? He Hrest]; subst.
  destruct e as [id d1 d2| |file|code]; try discriminate He; simpl; now apply IH.
Qed.

(** While the loop runs, every event goes to the input backend, once and in
    order, provided one is attached. *)
Lemma eventLoop_input (events : list Event) :
  forall w : World A,
    Forall (fun e => endsLoop e = false) events ->
    m_input (fst (fst (eventLoop platform quirk events w))) = m_input w
    /\ filter isInput (trace (fst (fst (eventLoop platform quirk events w))))
       = filter isInput (trace w)
           ++ (if m_input w then map InputOnEvent events else []).
Proof.
  induction events as [|e rest IH]; intros w Hall.
  - simpl. split; [reflexivity|]. destruct (m_input w); now rewrite app_nil_r.
  - inversion Hall as [|? ? He Hrest]; subst.
    destruct e as [id d1 d2| |file|code]; try discriminate He; simpl.
    + destruct (dispatchWindowEvent_input id d1 d2 w) as [Hi Ht].
      set (w1 := dispatchWindowEvent platform quirk id d1 d2 w) in *.
      destruct (IH (forwardToInput (SDL_WINDOWEVENT id d1 d2) w1) Hrest) as [Ji Jt].
      rewrite Ji, Jt. unfold forwardToInput, observe.
      destruct (m_input w1) eqn:E; simpl; rewrite <- Hi; rewrite ?E; simpl.
      * split; [reflexivity|]. rewrite filter_app, Ht. simpl.
        now rewrite <- app_assoc.
      * split; [reflexivity|]. now rewrite Ht.
    + destruct (IH (forwardToInput (SDL_other code) w) Hrest) as [Ji Jt].
      rewrite Ji, Jt. unfold forwardToInput, observe.
      destruct (m_input w) eqn:E; simpl; rewrite ?E.
      * split; [reflexivity|]. rewrite filter_app. simpl. now rewrite <- app_assoc.
      * split; reflexivity.
Qed.

Lemma tail_block_initialized (w : World A) :
  rendererInitialized (setViewport (afterResize (updateSize false w))) = true.
Proof.
  unfold setViewport, afterResize, observe, reinit, withRenderer. simpl.
  destruct (rendererInitialized (updateSize false w)) eqn:E; simpl; auto.
Qed.

Lemma tail_block_input (w : World A) :
  filter isInput (trace (setViewport (afterResize (updateSize false w))))
  = filter isInput (trace w).
Proof.
  assert (H : sameInput w (setViewport (afterResize (updateSize false w)))).
  { eapply sameInput_trans; [apply sameInput_updateSize|].
    eapply sameInput_trans; [apply sameInput_afterResize|apply sameInput_setViewport]. }
  exact (proj2 H).
Qed.

Lemma processEvents_normal (events : list Event) (w : World A) :
  Forall (fun e => endsLoop e = false) events ->
  rendererInitialized (fst (processEvents platform quirk events w)) = true
  /\ snd (processEvents platform quirk events w) = []
  /\ filter isInput (trace (fst (processEvents platform quirk events w)))
     = filter isInput (trace w) ++ (if m_input w then map InputOnEvent events else []).
Proof.
  intros Hall.
  destruct (eventLoop_runs_out events w Hall) as [Hrem Hret].
  destruct (eventLoop_input events w Hall) as [_ Hin].
  unfold processEvents.
  destruct (eventLoop platform quirk events w) as [[w1 remaining] returned].
  simpl in *. subst remaining returned.
  destruct (rendererInitialized w1) eqn:E; cbn [negb fst snd].
  - repeat split; assumption.
  - split; [apply tail_block_initialized|]. split; [reflexivity|].
    now rewrite tail_block_input.
Qed.

Lemma processEvents_ended (pre post : list Event) (e : Event) (w : World A) :
  Forall (fun x => endsLoop x = false) pre ->
  endsLoop e = true ->
  processEvents platform quirk (pre ++ e :: post) w
  = (match e with
     | SDL_DROPFILE file => onDroppedFile file (fst (fst (eventLoop platform quirk pre w)))
     | _ => onDestroy (fst (fst (eventLoop platform quirk pre w)))
     end, post).
Proof.
  intros Hpre He. unfold processEvents. rewrite eventLoop_app by assumption.
  destruct e as [id d1 d2| |file|code]; try discriminate He; reflexivity.
Qed.

End PumpFacts.

(** X13: a [processEvents] call whose events include neither a quit nor a
    dropped file drains the queue, hands every event to the attached input
    backend exactly once and in order, and returns with the renderer
    initialized, whatever a resize did to it on the way. *)
Theorem X13_processEvents_drains_and_reinitializes :
  forall (A : Type) (platform : Win.Platform) (quirk : bool)
         (events : list Win.Event) (w : Win.World A),
    Forall (fun e => Win.endsLoop e = false) events ->
    Win.rendererInitialized (fst (Win.processEvents platform quirk events w)) = true
    /\ snd (Win.processEvents platform quirk events w) = []
    /\ filter Win.isInput (Win.trace (fst (Win.processEvents platform quirk events w)))
       = filter Win.isInput (Win.trace w)
           ++ (if Win.m_input w then map Win.InputOnEvent events else []).
Proof.
  intros A platform quirk events w Hall. now apply processEvents_normal.
Qed.

Lemma X13_processEvents_drains_and_reinitializes_witness :
  Win.rendererInitialized
    (fst (Win.processEvents Win.PlatformOther false
            [Win.SDL_WINDOWEVENT Win.SDL_WINDOWEVENT_SIZE_CHANGED 800 600]
            (Win.mkWorld
               (Win.mkWindow (Win.mkVec2i 0 0)
                  (Win.mkDisplayMode (Win.mkVec2i 640 480) 60)
                  false false true false true
                  [Win.mkListener 1 (fun n : nat => (true, n))])
               O [] true true true (Win.mkVec2i 640 480) (Some 60) false)))
  = true.
Proof.
  apply (X13_processEvents_drains_and_reinitializes nat Win.PlatformOther false
           [Win.SDL_WINDOWEVENT Win.SDL_WINDOWEVENT_SIZE_CHANGED 800 600]).
  repeat constructor.
Defined.

(** X14: a quit event or a dropped file ends [processEvents] on the spot:
    the events before it are dispatched as usual, the listeners get the
    destroy (or dropped file) notification, the events after it stay in the
    queue untouched, and neither it nor they reach the input backend. *)
Theorem X14_quit_and_drop_end_the_pump :
  forall (A : Type) (platform : Win.Platform) (quirk : bool)
         (pre post : list Win.Event) (e : Win.Event) (w : Win.World A),
    Forall (fun x => Win.endsLoop x = false) pre ->
    Win.endsLoop e = true ->
    let w1 := fst (fst (Win.eventLoop platform quirk pre w)) in
    let w2 := fst (Win.processEvents platform quirk (pre ++ e :: post) w) in
    snd (Win.processEvents platform quirk (pre ++ e :: post) w) = post
    /\ Win.trace w2
       = Win.trace w1
           ++ Win.notified
                (match e with
                 | Win.SDL_DROPFILE file => Win.DroppedFile file
                 | _ => Win.DestroyWindow
                 end) (Win.m_listeners (Win.window w1))
    /\ filter Win.isInput (Win.trace w2)
       = filter Win.isInput (Win.trace w)
           ++ (if Win.m_input w then map Win.InputOnEvent pre else []).
Proof.
  intros A platform quirk pre post e w Hpre He w1 w2.
  unfold w2. rewrite (processEvents_ended A platform quirk pre post e w Hpre He).
  fold w1. simpl snd. simpl fst.
  destruct (eventLoop_input A platform quirk pre w Hpre) as [_ Hin]. fold w1 in Hin.
  split; [reflexivity|].
  destruct e as [id d1 d2| |file|code]; try discriminate He;
    (split; [reflexivity|]); rewrite <- Hin.
  - exact (proj2 (sameInput_notifyAll A Win.DestroyWindow w1)).
  - exact (proj2 (sameInput_notifyAll A (Win.DroppedFile file) w1)).
Qed.

Lemma X14_quit_and_drop_end_the_pump_witness :
  snd (Win.processEvents Win.PlatformNoReinit false
         ([Win.SDL_other 1024] ++ Win.SDL_QUIT :: [Win.SDL_other 1025])
         (Win.mkWorld
            (Win.mkWindow (Win.mkVec2i 0 0)
               (Win.mkDisplayMode (Win.mkVec2i 640 480) 60)
               false false true false true
               [Win.mkListener 1 (fun n : nat => (true, n))])
            O [] true true true (Win.mkVec2i 640 480) (Some 60) false))
  = [Win.SDL_other 1025].
Proof.
  apply (X14_quit_and_drop_end_the_pump nat Win.PlatformNoReinit false
           [Win.SDL_other 1024] [Win.SDL_other 1025] Win.SDL_QUIT).
  - repeat constructor.
  - reflexivity.
Defined.

Section SizeFacts.

Import Win.

Variable A : Type.

Lemma Vec2i_eqb_refl (v : Vec2i) : Vec2i_eqb v v = true.
Proof. unfold Vec2i_eqb. now rewrite !Z.eqb_refl. Qed.

Lemma DisplayMode_eqb_refl (m : DisplayMode) : DisplayMode_eqb m m = true.
Proof. unfold DisplayMode_eqb. now rewrite Vec2i_eqb_refl, Z.eqb_refl. Qed.

Lemma resize_tail_fields (x : World A) :
  window (setViewport (afterResize x)) = window x
  /\ sdlWindowSize (setViewport (afterResize x)) = sdlWindowSize x
  /\ sdlCurrentRefresh (setViewport (afterResize x)) = sdlCurrentRefresh x.
Proof.
  unfold setViewport, afterResize, observe, reinit, withRenderer.
  destruct (negb _); repeat split.
Qed.

Lemma onResize_fields (size : Vec2i) (x : World A) :
  m_mode (window (onResize size x)) = mkDisplayMode size (refresh (m_mode (window x)))
  /\ m_fullscreen (window (onResize size x)) = m_fullscreen (window x)
  /\ sdlWindowSize (onResize size x) = sdlWindowSize x
  /\ sdlCurrentRefresh (onResize size x) = sdlCurrentRefresh x.
Proof. repeat split. Qed.

(** What SDL reports as the mode of the window. *)
Lemma updateSize_mode (force : bool) (w : World A) :
  m_mode (window (updateSize force w))
  = mkDisplayMode (sdlWindowSize w)
      (match sdlCurrentRefresh w with Some rate => rate | None => 0 end)
  /\ sdlWindowSize (updateSize force w) = sdlWindowSize w
  /\ sdlCurrentRefresh (updateSize force w) = sdlCurrentRefresh w
  /\ m_fullscreen (window (updateSize force w)) = m_fullscreen (window w).
Proof.
  unfold updateSize.
  set (newMode := mkDisplayMode (sdlWindowSize w) _).
  set (w1 := withWindow (setMode newMode) w).
  destruct (resize_tail_fields w1) as (Tw & Ts & Tr).
  destruct (force || negb (Vec2i_eqb _ _)); destruct (force || negb (DisplayMode_eqb _ _)).
  - destruct (onResize_fields (resolution newMode) (setViewport (afterResize w1)))
      as (Om & Of & Os & Or).
    rewrite Om, Of, Os, Or, Tw, Ts, Tr. repeat split.
  - rewrite Tw, Ts, Tr. repeat split.
  - destruct (onResize_fields (resolution newMode) w1) as (Om & Of & Os & Or).
    rewrite Om, Of, Os, Or. repeat split.
  - repeat split.
Qed.

Lemma updateSize_settled (w : World A) :
  m_mode (window w)
  = mkDisplayMode (sdlWindowSize w)
      (match sdlCurrentRefresh w with Some rate => rate | None => 0 end) ->
  updateSize false w = w.
Proof.
  intros Hmode. unfold updateSize. rewrite <- Hmode.
  rewrite Vec2i_eqb_refl, DisplayMode_eqb_refl. simpl.
  destruct w as [[pos mode mi ma vi fs fo ls] a tr ri mw inp sz rf mf]. reflexivity.
Qed.

End SizeFacts.

(** X15: [updateSize] is idempotent: once it has brought the cached mode to
    what SDL reports, a second call with the same answers changes nothing,
    calls neither the renderer nor any listener, and this also holds after a
    forced update. *)
Theorem X15_updateSize_idempotent :
  forall (A : Type) (force : bool) (w : Win.World A),
    Win.updateSize false (Win.updateSize force w) = Win.updateSize force w.
Proof.
  intros A force w. apply updateSize_settled.
  destruct (updateSize_mode A force w) as (Hm & Hs & Hr & _).
  now rewrite Hm, Hs, Hr.
Qed.


(* ===================================================================== *)
(** * Vertical sync, gamma and mode changes *)
(* ===================================================================== *)

(** X16: [setVSync] reports success exactly when it stored an interval: on
    failure every member is as before; on success the stored interval is the
    one asked for, or 1 when an interval other than 0 and 1 was refused; with
    a native window the stored interval is one that SDL accepted, and without
    one the request is only cached. *)
Theorem X16_setVSync_stores_accepted_interval :
  forall (Gamma Ramp : Type) (fails : Z -> bool) (vsync : Z)
         (n : Win.Native Gamma Ramp),
    let ok := fst (Win.setVSync fails vsync n) in
    let n1 := snd (Win.setVSync fails vsync n) in
    (ok = false -> n1 = n)
    /\ (ok = true ->
        (Win.m_vsync n1 = vsync
         \/ (Win.m_vsync n1 = 1 /\ vsync <> 0 /\ vsync <> 1 /\ fails vsync = true))
        /\ (Win.m_window n = true -> fails (Win.m_vsync n1) = false)
        /\ Win.m_window n1 = Win.m_window n
        /\ Win.m_gamma n1 = Win.m_gamma n
        /\ Win.m_gammaOverridden n1 = Win.m_gammaOverridden n
        /\ Win.sdlRamp n1 = Win.sdlRamp n)
    /\ (Win.m_window n = false -> ok = true /\ Win.m_vsync n1 = vsync).
Proof.
  intros Gamma Ramp fails vsync n. unfold Win.setVSync.
  destruct (Win.m_window n) eqn:Ew; simpl.
  - destruct (fails vsync) eqn:Ef; simpl.
    + destruct (Z.eqb_spec vsync 0); destruct (Z.eqb_spec vsync 1); simpl;
        try (repeat split; intros; try discriminate; auto; fail).
      destruct (fails 1) eqn:E1; simpl.
      * repeat split; intros; try discriminate; auto.
      * repeat split; intros; try discriminate; auto.
    + repeat split; intros; try discriminate; auto.
  - repeat split; intros; try discriminate; auto.
Qed.

Lemma X16_setVSync_stores_accepted_interval_witness :
  Win.m_vsync
    (snd (Win.setVSync (fun v => v <? 0) (-1)
            (Win.mkNative true 0 tt false tt tt)))
  = 1.
Proof.
  destruct (proj1 (proj1 (proj2 (X16_setVSync_stores_accepted_interval unit unit
                                   (fun v => v <? 0) (-1)
                                   (Win.mkNative true 0 tt false tt tt)))
                     eq_refl)) as [H|[H _]].
  - discriminate H.
  - exact H.
Defined.

Section GammaFacts.

Import Win.

Variables Gamma Ramp : Type.
Variable brightnessRamp : Gamma -> Ramp.

(** While the window is fullscreen, the ramp to go back to is either still
    installed or saved. *)
Lemma setGammas_keeps_original (orig : Ramp) (calls : list (Gamma * bool)) :
  forall n : Native Gamma Ramp,
    m_window n = true ->
    (if m_gammaOverridden n then m_gammaRamp n = orig else sdlRamp n = orig) ->
    let n1 := setGammas brightnessRamp true calls n in
    m_window n1 = true
    /\ (if m_gammaOverridden n1 then m_gammaRamp n1 = orig else sdlRamp n1 = orig).
Proof.
  induction calls as [|[gamma bf] rest IH]; intros n Hw Hinv; simpl; [auto|].
  apply IH.
  - unfold setGamma. rewrite Hw. simpl.
    destruct (m_gammaOverridden n) eqn:E; destruct bf; simpl; rewrite ?E; auto.
  - unfold setGamma. rewrite Hw. simpl.
    destruct (m_gammaOverridden n) eqn:E; destruct bf; simpl; rewrite ?E; auto.
Qed.

Lemma last_nonempty (l : list Gamma) (x d1 d2 : Gamma) :
  last (x :: l) d1 = last (x :: l) d2.
Proof.
  revert x. induction l as [|y l IH]; intros x; [reflexivity|].
  change (last (x :: y :: l) d1) with (last (y :: l) d1).
  change (last (x :: y :: l) d2) with (last (y :: l) d2).
  apply IH.
Qed.

Lemma setGammas_windowed (calls : list (Gamma * bool)) :
  forall n : Native Gamma Ramp,
    let n1 := setGammas brightnessRamp false calls n in
    sdlRamp n1 = sdlRamp n
    /\ m_gammaOverridden n1 = m_gammaOverridden n
    /\ m_gammaRamp n1 = m_gammaRamp n
    /\ m_gamma n1 = last (map fst calls) (m_gamma n).
Proof.
  induction calls as [|[gamma bf] rest IH]; intros n; [simpl; auto|].
  assert (Hstep : snd (setGamma brightnessRamp false bf false gamma n)
                  = mkNative (m_window n) (m_vsync n) gamma (m_gammaOverridden n)
                      (m_gammaRamp n) (sdlRamp n)).
  { unfold setGamma. rewrite andb_false_r. reflexivity. }
  cbn [setGammas]. rewrite Hstep.
  destruct (IH (mkNative (m_window n) (m_vsync n) gamma (m_gammaOverridden n)
                  (m_gammaRamp n) (sdlRamp n))) as (H1 & H2 & H3 & H4).
  cbv zeta in *. rewrite H1, H2, H3, H4. simpl.
  repeat split. destruct rest as [|p rest]; [reflexivity|].
  simpl map. apply last_nonempty.
Qed.

End GammaFacts.

(** X17: the gamma ramp is saved once and restored faithfully.  Starting
    without an override, after any sequence of [setGamma] calls on a
    fullscreen window (whatever values are set and whichever brightness
    calls fail, SDL being able to read the ramp), [restoreGamma] brings back
    the ramp that was installed before the first call and clears the
    override.  On a window that is not fullscreen the same calls never touch
    the ramp: they only cache the last value. *)
Theorem X17_gamma_ramp_saved_once_and_restored :
  forall (Gamma Ramp : Type) (brightnessRamp : Gamma -> Ramp)
         (calls : list (Gamma * bool)) (n : Win.Native Gamma Ramp),
    Win.m_window n = true ->
    Win.m_gammaOverridden n = false ->
    (let n1 := Win.restoreGamma false (Win.setGammas brightnessRamp true calls n) in
     Win.sdlRamp n1 = Win.sdlRamp n /\ Win.m_gammaOverridden n1 = false)
    /\ (let n2 := Win.setGammas brightnessRamp false calls n in
        Win.sdlRamp n2 = Win.sdlRamp n
        /\ Win.m_gammaOverridden n2 = false
        /\ Win.m_gamma n2 = last (map fst calls) (Win.m_gamma n)).
Proof.
  intros Gamma Ramp brightnessRamp calls n Hw Hov. split.
  - destruct (setGammas_keeps_original Gamma Ramp brightnessRamp (Win.sdlRamp n)
                calls n Hw) as [_ Hinv].
    { rewrite Hov. reflexivity. }
    cbv zeta in *. unfold Win.restoreGamma.
    destruct (Win.m_gammaOverridden (Win.setGammas brightnessRamp true calls n)) eqn:E;
      simpl; [split; [exact Hinv|reflexivity]|].
    split; [exact Hinv|exact E].
  - destruct (setGammas_windowed Gamma Ramp brightnessRamp calls n)
      as (H1 & H2 & _ & H4).
    cbv zeta in *. rewrite H2, Hov. repeat split; assumption.
Qed.

Lemma X17_gamma_ramp_saved_once_and_restored_witness :
  Win.sdlRamp
    (Win.restoreGamma false
       (Win.setGammas (fun g : Z => g * 2) true [(3, false); (5, true); (7, false)]
          (Win.mkNative true 0 1 false 0 100)))
  = 100.
Proof.
  apply (X17_gamma_ramp_saved_once_and_restored Z Z (fun g : Z => g * 2)
           [(3, false); (5, true); (7, false)]
           (Win.mkNative true 0 1 false 0 100));
    reflexivity.
Defined.

Section ModeFacts.

Import Win.

Variable A : Type.
Variable platform : Platform.
Variable quirk : bool.

Lemma sameSDL_refl (w : World A) : sameSDL w w.
Proof. split; reflexivity. Qed.

Lemma sameSDL_trans (w1 w2 w3 : World A) :
  sameSDL w1 w2 -> sameSDL w2 w3 -> sameSDL w1 w3.
Proof. unfold sameSDL. intros [H1 H2] [G1 G2]. split; congruence. Qed.

Lemma sameSDL_notify_with (what : Notification) (f : Window A -> Window A)
    (w : World A) :
  sameSDL w (notifyAll what (withWindow f w)).
Proof. split; reflexivity. Qed.

Lemma sameSDL_beforeResize (b : bool) (w : World A) :
  sameSDL w (beforeResize platform b w).
Proof.
  unfold beforeResize. destruct platform; [split; reflexivity| |].
  - destruct (negb (rendererInitialized _)); [split; reflexivity|].
    destruct (negb b); split; reflexivity.
  - destruct (negb (rendererInitialized _)); split; reflexivity.
Qed.

Lemma sameSDL_updateSize (force : bool) (w : World A) :
  sameSDL w (updateSize force w).
Proof.
  destruct (updateSize_mode A force w) as (_ & Hs & Hr & _). split; assumption.
Qed.

Lemma sameSDL_forwardToInput (event : Event) (w : World A) :
  sameSDL w (forwardToInput event w).
Proof. unfold forwardToInput. destruct (m_input w); split; reflexivity. Qed.

Lemma dispatchWindowEvent_sdl (id : WindowEventID) (d1 d2 : Z) (w : World A) :
  sameSDL w (dispatchWindowEvent platform quirk id d1 d2 w).
Proof.
  destruct id; simpl;
    try apply sameSDL_refl;
    try (split; reflexivity).
  - destruct (quirk && _ && _); split; reflexivity.
  - destruct (negb (m_fullscreen (window w))).
    + eapply sameSDL_trans; [apply sameSDL_updateSize|apply sameSDL_notify_with].
    + apply sameSDL_notify_with.
  - destruct (negb (Vec2i_eqb _ _) && negb (m_fullscreen (window w)));
      [|apply sameSDL_refl].
    eapply sameSDL_trans; [apply sameSDL_beforeResize|apply sameSDL_updateSize].
Qed.

Lemma eventLoop_sdl (events : list Event) :
  forall w : World A, sameSDL w (fst (fst (eventLoop platform quirk events w))).
Proof.
  induction events as [|event rest IH]; intros w; simpl; [apply sameSDL_refl|].
  destruct event as [id d1 d2| |file|code]; simpl.
  - eapply sameSDL_trans; [|apply IH].
    eapply sameSDL_trans; [apply dispatchWindowEvent_sdl|apply sameSDL_forwardToInput].
  - split; reflexivity.
  - split; reflexivity.
  - eapply sameSDL_trans; [apply sameSDL_forwardToInput|apply IH].
Qed.

(** The renderer after [beforeResize(false)]. *)
Lemma beforeResize_false (w : World A) :
  window (beforeResize platform false w) = window w
  /\ app (beforeResize platform false w) = app w
  /\ trace (beforeResize platform false w) = trace w ++ [Render (BeforeResize false)]
  /\ rendererInitialized (beforeResize platform false w)
     = match platform with
       | PlatformOther => false
       | _ => rendererInitialized w
       end.
Proof.
  unfold beforeResize. destruct platform; simpl.
  - repeat split.
  - destruct (rendererInitialized w) eqn:E; simpl; repeat split; auto.
  - destruct (rendererInitialized w) eqn:E; simpl; repeat split; auto.
Qed.

(** [processEvents] on a fullscreen window whose cached mode is what SDL
    reports keeps both, whatever events are pending. *)
Lemma processEvents_fullscreen_mode (events : list Event) (w : World A) :
  m_fullscreen (window w) = true ->
  m_mode (window w)
  = mkDisplayMode (sdlWindowSize w)
      (match sdlCurrentRefresh w with Some rate => rate | None => 0 end) ->
  m_fullscreen (window (fst (processEvents platform quirk events w))) = true
  /\ m_mode (window (fst (processEvents platform quirk events w))) = m_mode (window w).
Proof.
  intros Hfs Hmode.
  destruct (eventLoop_fullscreen A platform quirk events w Hfs) as (Um & Uf & _ & _).
  destruct (eventLoop_sdl events w) as [Ss Sr].
  unfold processEvents.
  destruct (eventLoop platform quirk events w) as [[w1 remaining] returned].
  simpl in Um, Uf, Ss, Sr.
  destruct returned; cbn [fst].
  - rewrite Uf, Um. auto.
  - destruct (negb (rendererInitialized w1)); cbn [fst].
    + rewrite updateSize_settled by (rewrite Um, Ss, Sr; exact Hmode).
      destruct (resize_tail_fields A w1) as (Tw & _ & _).
      rewrite Tw, Uf, Um. auto.
    + rewrite Uf, Um. auto.
Qed.

End ModeFacts.



(** X19: after a successful switch to fullscreen the cached mode is the one
    SDL reports, not the one asked for, and the window is flagged
    fullscreen, whatever events were pending and whichever of the gamma
    calls fail; the stored gamma value is the one from before. *)
Theorem X19_fullscreen_switch_caches_reported_mode :
  forall (A Gamma Ramp : Type) (platform : Win.Platform) (quirk : bool)
         (brightnessRamp : Gamma -> Ramp) (sdl : Win.SwitchAnswers)
         (mode : Win.DisplayMode) (w : Win.World A) (n : Win.Native Gamma Ramp),
    Win.m_window n = true ->
    Bool.eqb (Win.m_fullscreen (Win.window w)) true
      && Win.DisplayMode_eqb (Win.m_mode (Win.window w)) mode = false ->
    (Win.Vec2i_eqb (Win.resolution mode) (Win.mkVec2i 0 0) = true
     \/ ((Win.closestModeFound sdl = true \/ Win.desktopModeFails sdl = false)
         /\ Win.setDisplayModeFails sdl = false)) ->
    Win.setFullscreenFails sdl = false ->
    let r := Win.setFullscreenMode platform quirk brightnessRamp sdl mode (w, n) in
    Win.m_fullscreen (Win.window (fst (fst r))) = true
    /\ Win.m_mode (Win.window (fst (fst r)))
       = Win.mkDisplayMode (Win.sizeAfter sdl)
           (match Win.refreshAfter sdl with Some rate => rate | None => 0 end)
    /\ Win.m_gamma (snd (fst r)) = Win.m_gamma n
    /\ Win.m_window (snd (fst r)) = true.
Proof.
  intros A Gamma Ramp platform quirk brightnessRamp sdl mode w n
         Hw Hdiff Hmode Hfs r.
  unfold r, Win.setFullscreenMode, Win.changeMode.
  rewrite Hw, Hdiff, Hfs. cbn [negb andb].
  replace (negb (Win.Vec2i_eqb (Win.resolution mode) (Win.mkVec2i 0 0))
           && (negb (Win.closestModeFound sdl) && Win.desktopModeFails sdl
               || Win.setDisplayModeFails sdl)) with false.
  2:{ destruct Hmode as [-> | [[-> | ->] ->]]; cbn [negb andb orb];
        rewrite ?andb_false_r, ?andb_false_l; reflexivity. }
  set (w0 := Win.sdlReports (Win.sizeAfter sdl) (Win.refreshAfter sdl) w).
  set (w1 := Win.beforeResize platform false w0).
  destruct (beforeResize_false A platform w0) as (Bw & _).
  destruct (sameSDL_beforeResize A platform false w0) as [Bs Br].
  fold w1 in Bw, Bs, Br.
  set (w2 := if negb (Bool.eqb (Win.m_fullscreen (Win.window w)) true)
             then Win.onToggleFullscreen true w1 else w1).
  assert (H2 : Win.m_fullscreen (Win.window w2) = true
               /\ Win.sdlWindowSize w2 = Win.sizeAfter sdl
               /\ Win.sdlCurrentRefresh w2 = Win.refreshAfter sdl).
  { unfold w2. destruct (Win.m_fullscreen (Win.window w)) eqn:E; cbn [Bool.eqb negb].
    - rewrite Bw. unfold w0 at 1. simpl Win.window. rewrite E, Bs, Br. repeat split.
    - repeat split; [exact Bs|exact Br]. }
  destruct H2 as (F2 & S2 & R2).
  destruct (updateSize_mode A false w2) as (Um & Us & Ur & Uf).
  rewrite S2, R2 in Um. rewrite F2 in Uf.
  destruct (processEvents_fullscreen_mode A platform quirk (Win.pending sdl)
              (Win.updateSize false w2) Uf) as [Pf Pm].
  { rewrite Um, Us, Ur, S2, R2. reflexivity. }
  destruct (Win.processEvents platform quirk (Win.pending sdl)
              (Win.updateSize false w2)) as [w4 remaining].
  cbn [fst snd] in *. rewrite Pf, Pm, Um.
  split; [reflexivity|]. split; [reflexivity|].
  unfold Win.setGamma. rewrite Hw, F2. cbn [andb].
  destruct (Win.m_gammaOverridden n); destruct (Win.getRampFails sdl);
    destruct (Win.setBrightnessFails sdl); cbn; auto.
Qed.

Lemma X19_fullscreen_switch_caches_reported_mode_witness :
  Win.m_mode
    (Win.window
       (fst (fst (Win.setFullscreenMode Win.PlatformOther false (fun g : Z => g)
                    (Win.mkSwitchAnswers true false false false false false false
                       (Win.mkVec2i 1920 1080) (Some 59)
                       [Win.SDL_WINDOWEVENT Win.SDL_WINDOWEVENT_SIZE_CHANGED 1280 720;
                        Win.SDL_QUIT])
                    (Win.mkDisplayMode (Win.mkVec2i 1920 1200) 60)
                    (Win.mkWorld
                       (Win.mkWindow (Win.mkVec2i 0 0)
                          (Win.mkDisplayMode (Win.mkVec2i 640 480) 60)
                          false false true false true
                          [Win.mkListener 1 (fun a : nat => (true, a))])
                       O [] true true true (Win.mkVec2i 640 480) (Some 60) false,
                     Win.mkNative true 0 1 false 0 0)))))
  = Win.mkDisplayMode (Win.mkVec2i 1920 1080) 59.
Proof.
  refine (proj1 (proj2
    (X19_fullscreen_switch_caches_reported_mode nat Z Z Win.PlatformOther false
       (fun g : Z => g)
       (Win.mkSwitchAnswers true false false false false false false
          (Win.mkVec2i 1920 1080) (Some 59)
          [Win.SDL_WINDOWEVENT Win.SDL_WINDOWEVENT_SIZE_CHANGED 1280 720;
           Win.SDL_QUIT])
       (Win.mkDisplayMode (Win.mkVec2i 1920 1200) 60)
       (Win.mkWorld
          (Win.mkWindow (Win.mkVec2i 0 0)
             (Win.mkDisplayMode (Win.mkVec2i 640 480) 60)
             false false true false true
             [Win.mkListener 1 (fun a : nat => (true, a))])
          O [] true true true (Win.mkVec2i 640 480) (Some 60) false)
       (Win.mkNative true 0 1 false 0 0) _ _ _ _))).
  - reflexivity.
  - reflexivity.
  - right. split; [left|]; reflexivity.
  - reflexivity.
Defined.

(* ===================================================================== *)
(** * The quality ladder of [createWindowAndGLContext] *)
(* ===================================================================== *)

Section LadderFacts.

Import Win.

Variable sdl : Z -> ContextAttempt.
Variable m_minTextureUnits : Z.

(** The error that the last try logs. *)
Lemma tryFrom_step (fuel : nat) (msaa : Z) :
  tryFrom (S fuel) sdl m_minTextureUnits msaa
  = if levelPasses sdl m_minTextureUnits msaa
    then Some (mkContextResult (Z.max msaa 1) true true [])
    else if msaa =? 0
    then Some (mkContextResult 0 (windowCreated (sdl 0))
                 (windowCreated (sdl 0) && contextCreated (sdl 0))
                 [if negb (windowCreated (sdl 0)) then CouldNotCreateWindow
                  else if negb (contextCreated (sdl 0)) then CouldNotCreateContext
                  else NotEnoughTextureUnits (texunits (sdl 0)) m_minTextureUnits])
    else tryFrom fuel sdl m_minTextureUnits (msaa - 1).
Proof.
  cbn [tryFrom]. unfold levelPasses.
  destruct (Z.eqb_spec msaa 0) as [->|Hne].
  - destruct (windowCreated (sdl 0)); [|reflexivity].
    destruct (contextCreated (sdl 0)); [|reflexivity].
    cbn. destruct (texunits (sdl 0) <? m_minTextureUnits); reflexivity.
  - destruct (windowCreated (sdl msaa)); [|reflexivity].
    destruct (contextCreated (sdl msaa)); [|reflexivity].
    cbn [negb andb].
    destruct ((1 <? msaa) && (negb (msaaEnabled (sdl msaa)) || (msaaValue (sdl msaa) <? msaa)));
      [reflexivity|].
    cbn [negb andb].
    destruct (texunits (sdl msaa) <? m_minTextureUnits); reflexivity.
Qed.

Lemma tryFrom_ladder (fuel : nat) :
  forall msaa : Z,
    0 <= msaa -> (Z.to_nat msaa < fuel)%nat ->
    exists r,
      tryFrom fuel sdl m_minTextureUnits msaa = Some r
      /\ ((exists k, 0 <= k <= msaa
                     /\ levelPasses sdl m_minTextureUnits k = true
                     /\ (forall j, k < j <= msaa ->
                                   levelPasses sdl m_minTextureUnits j = false)
                     /\ r = mkContextResult (Z.max k 1) true true [])
          \/ ((forall j, 0 <= j <= msaa -> levelPasses sdl m_minTextureUnits j = false)
              /\ samples r = 0
              /\ errors r
                 = [if negb (windowCreated (sdl 0)) then CouldNotCreateWindow
                    else if negb (contextCreated (sdl 0)) then CouldNotCreateContext
                    else NotEnoughTextureUnits (texunits (sdl 0)) m_minTextureUnits])).
Proof.
  induction fuel as [|fuel IH]; intros msaa Hpos Hfuel; [lia|].
  rewrite tryFrom_step.
  destruct (levelPasses sdl m_minTextureUnits msaa) eqn:Epass.
  - eexists. split; [reflexivity|]. left. exists msaa.
    repeat split; auto; intros; lia.
  - destruct (Z.eqb_spec msaa 0) as [->|Hne].
    + eexists. split; [reflexivity|]. right. repeat split.
      intros j Hj. replace j with 0 by lia. exact Epass.
    + destruct (IH (msaa - 1)) as (r & Hr & Hcases); [lia|lia|].
      exists r. split; [exact Hr|].
      destruct Hcases as [(k & Hk & Hp & Habove & Hres)|(Hnone & Hs & He)].
      * left. exists k. repeat split; try lia; auto.
        intros j Hj. destruct (Z.eq_dec j msaa) as [->|Hjm]; [exact Epass|].
        apply Habove. lia.
      * right. repeat split; auto.
        intros j Hj. destruct (Z.eq_dec j msaa) as [->|Hjm]; [exact Epass|].
        apply Hnone. lia.
Qed.

End LadderFacts.

(** X20: the loop of [createWindowAndGLContext] started at a maximum MSAA
    level that is not negative ends after at most max + 1 passes.  It
    returns 0 exactly when no level from the maximum down to 0 passes all of
    its checks, and then logs the one error of the attempt at level 0.
    Otherwise it stops at the highest level that passes, returns that level
    (1 for level 0) and leaves window and context in place. *)
Theorem X20_context_ladder_picks_highest_passing_level :
  forall (sdl : Z -> Win.ContextAttempt) (m_minTextureUnits m_maxMSAALevel : Z)
         (fuel : nat),
    0 <= m_maxMSAALevel ->
    (Z.to_nat m_maxMSAALevel < fuel)%nat ->
    exists r,
      Win.tryFrom fuel sdl m_minTextureUnits m_maxMSAALevel = Some r
      /\ (Win.samples r = 0 <->
          forall j, 0 <= j <= m_maxMSAALevel ->
                    Win.levelPasses sdl m_minTextureUnits j = false)
      /\ (Win.samples r = 0 ->
          Win.errors r
          = [if negb (Win.windowCreated (sdl 0)) then Win.CouldNotCreateWindow
             else if negb (Win.contextCreated (sdl 0)) then Win.CouldNotCreateContext
             else Win.NotEnoughTextureUnits (Win.texunits (sdl 0)) m_minTextureUnits])
      /\ (forall k, 0 <= k <= m_maxMSAALevel ->
                    Win.levelPasses sdl m_minTextureUnits k = true ->
                    (forall j, k < j <= m_maxMSAALevel ->
                               Win.levelPasses sdl m_minTextureUnits j = false) ->
                    r = Win.mkContextResult (Z.max k 1) true true []).
Proof.
  intros sdl minUnits maxLevel fuel Hpos Hfuel.
  destruct (tryFrom_ladder sdl minUnits fuel maxLevel Hpos Hfuel) as (r & Hr & Hcases).
  exists r. split; [exact Hr|].
  destruct Hcases as [(k & Hk & Hp & Habove & ->)|(Hnone & Hs & He)].
  - split; [|split].
    + simpl. split; [lia|]. intros Hnone. rewrite (Hnone k Hk) in Hp. discriminate.
    + simpl. lia.
    + intros k' Hk' Hp' Habove'.
      destruct (Z.lt_trichotomy k k') as [Hlt|[->|Hgt]]; [| reflexivity |].
      * rewrite (Habove k') in Hp' by lia. discriminate.
      * rewrite (Habove' k) in Hp by lia. discriminate.
  - split; [|split].
    + split; auto.
    + auto.
    + intros k Hk Hp _. rewrite (Hnone k Hk) in Hp. discriminate.
Qed.

Lemma X20_context_ladder_picks_highest_passing_level_witness :
  exists r,
    Win.tryFrom 9 (fun msaa => Win.mkContextAttempt true true (msaa <=? 4) 4 8) 2 8
    = Some r
    /\ Win.samples r = 4.
Proof.
  destruct (X20_context_ladder_picks_highest_passing_level
              (fun msaa => Win.mkContextAttempt true true (msaa <=? 4) 4 8) 2 8 9)
    as (r & Hr & _ & _ & Hk).
  - lia.
  - vm_compute. lia.
  - exists r. split; [exact Hr|].
    rewrite (Hk 4); [reflexivity|lia|reflexivity|].
    intros j Hj.
    assert (Hc : j = 5 \/ j = 6 \/ j = 7 \/ j = 8) by lia.
    destruct Hc as [->|[->|[->| ->]]]; reflexivity.
Defined.

(* ===================================================================== *)
(** * The limiter inside the main loop *)
(* ===================================================================== *)

Section PacingFacts.

Import FramePacing.

Variable s : Settings.
Hypothesis Hen : limiterEnabled s = true.

Lemma frameWithWork_steady (work : Z) (t : Timer) :
  0 <= m_frameDelta t ->
  0 <= work <= targetDuration s ->
  frameWithWork s work
    (if 0 <? m_frameDelta t then Some (m_frameDelta t) else None) t
  = (mkTimer (m_frameStart t + (work + m_frameDelta t)) (targetDuration s - work),
     if 0 <? targetDuration s - work then Some (targetDuration s - work) else None).
Proof.
  intros Hd Hw. unfold frameWithWork.
  assert (Hsl : slept (if 0 <? m_frameDelta t then Some (m_frameDelta t) else None)
                = m_frameDelta t).
  { destruct (Z.ltb_spec 0 (m_frameDelta t)); simpl; lia. }
  rewrite Hsl.
  destruct (frameAfter_spec s (work + m_frameDelta t) t Hen) as [Heq _].
  rewrite Heq.
  replace (Z.max (- targetDuration s)
             (Z.min (targetDuration s)
                (m_frameDelta t + targetDuration s - (work + m_frameDelta t))))
    with (targetDuration s - work) by lia.
  reflexivity.
Qed.

Lemma runWork_steady (works : list Z) :
  forall t : Timer,
    0 <= m_frameDelta t ->
    Forall (fun work => 0 <= work <= targetDuration s) works ->
    runWork s works (if 0 <? m_frameDelta t then Some (m_frameDelta t) else None) t
    = map (fun work =>
             (targetDuration s - work,
              if 0 <? targetDuration s - work
              then Some (targetDuration s - work) else None)) works.
Proof.
  induction works as [|work rest IH]; intros t Hd Hall; [reflexivity|].
  inversion Hall as [|? ? Hw Hrest]; subst.
  cbn [runWork map]. rewrite (frameWithWork_steady work t Hd Hw).
  f_equal.
  set (t1 := mkTimer _ _).
  change (targetDuration s - work) with (m_frameDelta t1).
  apply IH; [simpl; lia|exact Hrest].
Qed.

End PacingFacts.

(** X21: the limiter in steady state.  When the limiter is on, the previous
    delta was not negative (so it was slept in full) and every pass of the
    main loop does between 0 and T of work, the delta of each frame is T
    minus the work of the pass before it, whatever the deltas before were,
    and that much is slept: nothing accumulates, and a loop whose passes all
    take the same work starts a frame every T. *)
Theorem X21_limiter_steady_state :
  forall (s : FramePacing.Settings) (works : list Z) (t : FramePacing.Timer),
    FramePacing.limiterEnabled s = true ->
    0 <= FramePacing.m_frameDelta t ->
    let T := FramePacing.targetDuration s in
    Forall (fun work => 0 <= work <= T) works ->
    let frames :=
      FramePacing.runWork s works
        (if 0 <? FramePacing.m_frameDelta t
         then Some (FramePacing.m_frameDelta t) else None) t in
    map fst frames = map (fun work => T - work) works
    /\ map (fun frame => FramePacing.slept (snd frame)) frames
       = map (fun work => T - work) works
    /\ (forall work, 0 <= work <= T ->
          Forall (fun w => w = work) works ->
          Forall (fun frame => work + FramePacing.slept (snd frame) = T) frames).
Proof.
  intros s works t Hen Hd T Hall frames.
  unfold frames. rewrite (runWork_steady s Hen works t Hd Hall). fold T.
  rewrite !map_map. cbn [fst snd].
  split; [reflexivity|].
  assert (Hsl : forall work, 0 <= work <= T ->
            FramePacing.slept (if 0 <? T - work then Some (T - work) else None)
            = T - work).
  { intros work Hw. destruct (Z.ltb_spec 0 (T - work)); simpl; lia. }
  split.
  - apply map_ext_in. intros work Hin.
    rewrite Forall_forall in Hall. apply Hsl. now apply Hall.
  - intros work Hw Hconst. rewrite Forall_map.
    rewrite Forall_forall in *. intros w Hin. cbn [snd].
    rewrite (Hconst w Hin). rewrite Hsl by exact Hw. lia.
Qed.

Lemma X21_limiter_steady_state_witness :
  map fst
    (FramePacing.runWork (FramePacing.mkSettings 50 0 false 60)
       [3000; 20000; 0; 12000] (Some 500) (FramePacing.mkTimer 777 500))
  = [17000; 0; 20000; 8000].
Proof.
  refine (proj1 (X21_limiter_steady_state (FramePacing.mkSettings 50 0 false 60)
                   [3000; 20000; 0; 12000] (FramePacing.mkTimer 777 500) _ _ _)).
  - reflexivity.
  - simpl. lia.
  - repeat constructor; vm_compute; discriminate.
Defined.

(** X22: the limiter never hands [nanosleep] an invalid interval.  Every
    duration it passes to [Thread::sleep] is positive and at most one
    second, and the [timespec] built from it has a second count of 0 or 1, a
    nanosecond count within [0, 999999999], and denotes exactly that
    duration. *)
Theorem X22_limiter_sleep_is_a_valid_timespec :
  forall (s : FramePacing.Settings) (now d : Z) (t : FramePacing.Timer),
    snd (FramePacing.limitFrameRate s now t) = Some d ->
    let sec := fst (FramePacing.Thread_sleep_timespec d) in
    let nsec := snd (FramePacing.Thread_sleep_timespec d) in
    0 < d <= 1000000
    /\ d = FramePacing.m_frameDelta (fst (FramePacing.limitFrameRate s now t))
    /\ 0 <= sec <= 1
    /\ 0 <= nsec <= 999999999
    /\ sec * 1000000000 + nsec = d * 1000.
Proof.
  intros s now d t Hsleep sec nsec.
  assert (Hen : FramePacing.limiterEnabled s = true).
  { unfold FramePacing.limitFrameRate in Hsleep.
    destruct (FramePacing.limiterEnabled s); [reflexivity|discriminate]. }
  pose proof (targetFps_pos s Hen) as Hfps.
  assert (HT : 0 <= FramePacing.targetDuration s <= 1000000).
  { split; [now apply targetDuration_nonneg|].
    unfold FramePacing.targetDuration.
    rewrite Z.quot_div_nonneg by lia.
    apply Z.div_le_upper_bound; nia. }
  assert (Hd : 0 < d <= 1000000
               /\ d = FramePacing.m_frameDelta (fst (FramePacing.limitFrameRate s now t))).
  { replace now with (FramePacing.m_frameStart t + (now - FramePacing.m_frameStart t))
      in * by lia.
    change (FramePacing.limitFrameRate s
              (FramePacing.m_frameStart t + (now - FramePacing.m_frameStart t)) t)
      with (FramePacing.frameAfter s (now - FramePacing.m_frameStart t) t) in *.
    destruct (frameAfter_spec s (now - FramePacing.m_frameStart t) t Hen) as [Heq Hr].
    rewrite Heq in *. cbn [fst snd FramePacing.m_frameDelta] in *.
    destruct (Z.ltb_spec 0 (Z.max (- FramePacing.targetDuration s)
                (Z.min (FramePacing.targetDuration s)
                   (FramePacing.m_frameDelta t + FramePacing.targetDuration s
                    - (now - FramePacing.m_frameStart t)))));
      [|discriminate].
    injection Hsleep as <-. lia. }
  destruct Hd as [Hrange Heq].
  split; [exact Hrange|]. split; [exact Heq|].
  unfold sec, nsec, FramePacing.Thread_sleep_timespec. cbn [fst snd].
  rewrite Z.quot_div_nonneg, Z.rem_mod_nonneg by lia.
  pose proof (Z.div_mod d 1000000 ltac:(lia)) as Hdm.
  pose proof (Z.mod_pos_bound d 1000000 ltac:(lia)) as Hm.
  assert (0 <= d / 1000000 <= 1).
  { split; [apply Z.div_pos; lia|].
    apply Z.div_le_upper_bound; lia. }
  lia.
Qed.

Lemma X22_limiter_sleep_is_a_valid_timespec_witness :
  FramePacing.Thread_sleep_timespec 1000000 = (1, 0)
  /\ 0 < 1000000 <= 1000000.
Proof.
  split; [reflexivity|].
  apply (X22_limiter_sleep_is_a_valid_timespec
           (FramePacing.mkSettings 1 0 false 60) 0 1000000 FramePacing.Timer_new).
  reflexivity.
Defined.
